(** * The startup patch engine of the LXD daemon

    A shallow embedding of the patch registry, of [patch.apply],
    [patchesGetNames] and [patchesApply], and the properties of the
    engine proved or refuted on it.

    The Go code works on a [*Daemon] through side effects.  Here every
    function takes the daemon state and returns the new one, and the
    calls made to the collaborators of the engine (the logger, the patch
    bodies, the node database) are appended to a history kept in the
    state, so that "the body of a patch was executed" is a fact about the
    state that a run returns.

    The bodies of some patches are embedded too, as far as the sources at
    hand have their code: the function each of them runs on the cluster
    database or on the file system, over queries of any behaviour. *)

From Stdlib Require Import ZArith List String Ascii Bool Arith DecimalString.
Import ListNotations.
Local Open Scope string_scope.

(** ** Go errors *)

(** The two kinds of error value the engine builds: a plain message
    ([fmt.Errorf] without [%w]) and [*fmt.wrapError], which [fmt.Errorf]
    returns for a format with one [%w]: the formatted message and the
    wrapped error.  Errors coming from a patch body or from the database
    are values of the same type. *)
Inductive error : Type :=
| errorString (s : string)
| wrapError (msg : string) (err : error).

(** [err.Error()] *)
Definition Error (e : error) : string :=
  match e with
  | errorString s => s
  | wrapError msg _ => msg
  end.

(** [errors.Unwrap(err)] *)
Definition Unwrap (e : error) : option error :=
  match e with
  | errorString _ => None
  | wrapError _ err => Some err
  end.

(** ** Formatting verbs *)

Module fmt.

Definition dquote : ascii := "034"%char.
Definition backslash : ascii := "092"%char.

Definition lowerhex (n : nat) : ascii :=
  nth n (list_ascii_of_string "0123456789abcdef") "0"%char.

Definition str1 (c : ascii) : string := String c EmptyString.

(** One byte of [strconv.Quote].  Exact on ASCII: the quote and the
    backslash are backslashed, the seven control characters with a
    short escape use it, every other control character is written
    [\xNN], printable characters stand for themselves.  Bytes from
    0x80 on are copied, which is what Go does for printable UTF-8 only:
    Go writes a byte of invalid UTF-8 as [\xNN] and a rune that is not
    printable as [\uNNNN], so on such names the text of a message
    differs from the one given here.  The names of the registry are
    ASCII. *)
Definition quoteByte (c : ascii) : string :=
  let n := nat_of_ascii c in
  if (n =? 34)%nat || (n =? 92)%nat then String backslash (str1 c)
  else if (n =? 7)%nat then String backslash "a"
  else if (n =? 8)%nat then String backslash "b"
  else if (n =? 12)%nat then String backslash "f"
  else if (n =? 10)%nat then String backslash "n"
  else if (n =? 13)%nat then String backslash "r"
  else if (n =? 9)%nat then String backslash "t"
  else if (n =? 11)%nat then String backslash "v"
  else if (n <? 32)%nat || (n =? 127)%nat
       then String backslash
              (String "x" (String (lowerhex (n / 16)) (str1 (lowerhex (n mod 16)))))
  else str1 c.

Fixpoint quoteBody (s : string) : string :=
  match s with
  | EmptyString => EmptyString
  | String c rest => quoteByte c ++ quoteBody rest
  end.

(** The verb [%q] on a string. *)
Definition q (s : string) : string :=
  String dquote (quoteBody s ++ str1 dquote).

(** The verb [%d] on an integer. *)
Definition d (z : Z) : string := NilZero.string_of_int (Z.to_int z).

End fmt.

(** ** Stages *)

(** [type patchStage int] with the constants numbered by [iota]. *)
Definition patchStage : Type := Z.

Definition patchNoStageSet : patchStage := 0%Z.
Definition patchPreDaemonStorage : patchStage := 1%Z.
Definition patchPostDaemonStorage : patchStage := 2%Z.
Definition patchPostNetworks : patchStage := 3%Z.

(** ** The node database *)

(** Modelled from the spec: the AppliedPatchStore ([d.db.Node] with
    [GetAppliedPatches] and [MarkPatchAsApplied]), whose code is not part
    of the sources at hand.  The store holds the names of the applied
    patches, in the order they were written; a record is never removed
    or updated.  Either operation may fail: [faults] schedules the
    outcome of the coming operations, the head for the next one ([None]:
    it succeeds); once the schedule is used up every operation succeeds.
    A write that fails leaves the table as it was. *)
Record Node : Type := mkNode {
  patches_table : list string;
  faults : list (option error)
}.

Definition next_fault (n : Node) : option error * Node :=
  match faults n with
  | [] => (None, n)
  | f :: fs => (f, mkNode (patches_table n) fs)
  end.

Definition GetAppliedPatches (n : Node) : Node * (list string * option error) :=
  match next_fault n with
  | (Some err, n') => (n', ([], Some err))
  | (None, n') => (n', (patches_table n', None))
  end.

Definition MarkPatchAsApplied (patch : string) (n : Node) : Node * option error :=
  match next_fault n with
  | (Some err, n') => (n', Some err)
  | (None, n') => (mkNode (patches_table n' ++ [patch]) (faults n'), None)
  end.

(** Modelled from the spec: [shared.ValueInSlice], "its name is already
    in the applied set". *)
Definition ValueInSlice (key : string) (list : list string) : bool :=
  existsb (String.eqb key) list.

(** ** Calls to the collaborators *)

Inductive event : Type :=
| EvGetAppliedPatches (res : option error)
| EvLogInfo (msg : string) (name : string)
| EvRun (name : string) (res : option error)
| EvMarkPatchAsApplied (name : string) (res : option error).

Section Engine.

(** Everything of the daemon that a patch body reads or changes.  The
    table of applied patches is reached through [GetAppliedPatches] and
    [MarkPatchAsApplied] only, and no patch body of the sources calls
    either, so bodies act on the rest of the daemon. *)
Variable World : Type.

(** [history] is kept for the specification only: the calls made so far,
    oldest first.  No function of the engine reads it. *)
Record Daemon : Type := mkDaemon {
  db_Node : Node;
  world : World;
  history : list event
}.

Definition body : Type := string -> World -> World * option error.

Record patch : Type := mkPatch {
  name : string;
  stage : patchStage;
  run : body
}.

(** *** State passing *)

Definition M (A : Type) : Type := Daemon -> Daemon * A.

Definition ret {A} (a : A) : M A := fun d => (d, a).

Definition bind {A B} (m : M A) (k : A -> M B) : M B :=
  fun d => let (d', a) := m d in k a d'.

Definition emit (e : event) : M unit :=
  fun d => (mkDaemon (db_Node d) (world d) (history d ++ [e]), tt).

Definition logger_Info (msg name : string) : M unit :=
  emit (EvLogInfo msg name).

Definition call_run (p : patch) : M (option error) :=
  fun d =>
    let (w', err) := run p (name p) (world d) in
    (mkDaemon (db_Node d) w' (history d ++ [EvRun (name p) err]), err).

Definition call_MarkPatchAsApplied (patch : string) : M (option error) :=
  fun d =>
    let (n', err) := MarkPatchAsApplied patch (db_Node d) in
    (mkDaemon n' (world d) (history d ++ [EvMarkPatchAsApplied patch err]), err).

Definition call_GetAppliedPatches : M (list string * option error) :=
  fun d =>
    let (n', res) := GetAppliedPatches (db_Node d) in
    (mkDaemon n' (world d) (history d ++ [EvGetAppliedPatches (snd res)]), res).

Notation "x <- m ;; k" := (bind m (fun x => k))
  (at level 61, m at next level, right associativity).
Notation "m ;;; k" := (bind m (fun _ => k))
  (at level 61, right associativity).

(** *** [func (p *patch) apply(d *Daemon) error] *)

Definition apply (p : patch) : M (option error) :=
  logger_Info "Applying patch" (name p) ;;;
  err <- call_run p ;;
  match err with
  | Some err =>
      ret (Some (wrapError ("Failed applying patch " ++ fmt.q (name p) ++ ": " ++ Error err) err))
  | None =>
      err <- call_MarkPatchAsApplied (name p) ;;
      match err with
      | Some err =>
          ret (Some (wrapError ("Failed marking patch applied " ++ fmt.q (name p) ++ ": " ++ Error err) err))
      | None => ret None
      end
  end.

(** *** [func patchesGetNames() []string] *)

(** [names[i] = v] on a slice; out of range Go panics, which the loop
    below never does since [i] stays under the length. *)
Fixpoint set_index (names : list string) (i : nat) (v : string) : list string :=
  match names, i with
  | [], _ => []
  | _ :: rest, O => v :: rest
  | x :: rest, S j => x :: set_index rest j v
  end.

Fixpoint patchesGetNames_range (i : nat) (ps : list patch) (names : list string)
  : list string :=
  match ps with
  | [] => names
  | patch :: rest =>
      if (stage patch =? patchNoStageSet)%Z
      then patchesGetNames_range (S i) rest names
      else patchesGetNames_range (S i) rest (set_index names i (name patch))
  end.

Definition patchesGetNames (patches : list patch) : list string :=
  let names := repeat EmptyString (List.length patches) in
  patchesGetNames_range 0 patches names.

(** *** [func patchesApply(d *Daemon, stage patchStage) error] *)

(** The [for _, patch := range patches] loop.  The parameter [stage]
    of [patchesApply] does not occur in it. *)
Fixpoint patchesApply_range (ps : list patch) (appliedPatches : list string)
  : M (option error) :=
  match ps with
  | [] => ret None
  | patch :: rest =>
      if (stage patch =? patchNoStageSet)%Z
      then ret (Some (errorString
                 ("Patch " ++ fmt.q (name patch) ++ " has no stage set: "
                    ++ fmt.d (stage patch))))
      else if ValueInSlice (name patch) appliedPatches
      then patchesApply_range rest appliedPatches
      else
        err <- apply patch ;;
        match err with
        | Some err => ret (Some err)
        | None => patchesApply_range rest appliedPatches
        end
  end.

Definition patchesApply (patches : list patch) (stage : patchStage)
  : M (option error) :=
  res <- call_GetAppliedPatches ;;
  match res with
  | (_, Some err) => ret (Some err)
  | (appliedPatches, None) => patchesApply_range patches appliedPatches
  end.

End Engine.

Arguments mkDaemon {World}.
Arguments db_Node {World}.
Arguments world {World}.
Arguments history {World}.
Arguments mkPatch {World}.
Arguments name {World}.
Arguments stage {World}.
Arguments run {World}.
Arguments ret {World A}.
Arguments bind {World A B}.
Arguments apply {World}.
Arguments patchesGetNames {World}.
Arguments patchesGetNames_range {World}.
Arguments patchesApply_range {World}.
Arguments patchesApply {World}.
Arguments call_run {World}.
Arguments call_MarkPatchAsApplied {World}.
Arguments call_GetAppliedPatches {World}.
Arguments logger_Info {World}.

(** ** Reading a run *)

(** The calls made while [m] runs from [d]: what [m] appended to the
    history. *)
Definition calls {World A} (m : M World A) (d : Daemon World) : list event :=
  skipn (List.length (history d)) (history (fst (m d))).

(** The names whose body was entered, in order. *)
Fixpoint executed (tr : list event) : list string :=
  match tr with
  | [] => []
  | EvRun n _ :: rest => n :: executed rest
  | _ :: rest => executed rest
  end.

(** The names for which a mark-applied write was issued, in order. *)
Fixpoint mark_writes (tr : list event) : list string :=
  match tr with
  | [] => []
  | EvMarkPatchAsApplied n _ :: rest => n :: mark_writes rest
  | _ :: rest => mark_writes rest
  end.

(** The names whose mark-applied write succeeded, in order. *)
Fixpoint marked (tr : list event) : list string :=
  match tr with
  | [] => []
  | EvMarkPatchAsApplied n None :: rest => n :: marked rest
  | _ :: rest => marked rest
  end.

(** The two messages of [patch.apply] and the one of the stage check. *)
Definition msgFailedApplying (name : string) (err : error) : string :=
  "Failed applying patch " ++ fmt.q name ++ ": " ++ Error err.

Definition msgFailedMarking (name : string) (err : error) : string :=
  "Failed marking patch applied " ++ fmt.q name ++ ": " ++ Error err.

Definition msgNoStage (name : string) : string :=
  "Patch " ++ fmt.q name ++ " has no stage set: 0".

(** The sequences of calls that the loop of [patchesApply] can make over
    patches named [names]: a patch is passed over, or applied in full, or
    the run ends in its body or in its mark-applied write. *)
Inductive loop_calls : list string -> list event -> Prop :=
| lc_stop names :
    loop_calls names []
| lc_skip n names tr :
    loop_calls names tr ->
    loop_calls (n :: names) tr
| lc_applied n names tr :
    loop_calls names tr ->
    loop_calls (n :: names)
      (EvLogInfo "Applying patch" n :: EvRun n None
         :: EvMarkPatchAsApplied n None :: tr)
| lc_body_failed n names err :
    loop_calls (n :: names)
      [EvLogInfo "Applying patch" n; EvRun n (Some err)]
| lc_mark_failed n names err :
    loop_calls (n :: names)
      [EvLogInfo "Applying patch" n; EvRun n None;
       EvMarkPatchAsApplied n (Some err)].

(** The daemon once the applied set has been read. *)
Definition after_read {World} (d : Daemon World) (n' : Node) (r : option error)
  : Daemon World :=
  mkDaemon n' (world d) (history d ++ [EvGetAppliedPatches r]).

(** What [patchesGetNames] puts at the place of a patch. *)
Definition slot {World} (p : patch World) : string :=
  if (stage p =? patchNoStageSet)%Z then EmptyString else name p.

(** A database that fails no operation. *)
Definition reliable (n : Node) : Prop := Forall (fun f => f = None) (faults n).

(** ** The registry of the daemon *)

Section Registry.

Context {World : Type}.

(** The code that the bodies call outside of the engine. *)
Variable storagePools_Patch : string -> World -> World * option error.
Variable network_PatchPreCheck : World -> World * option error.

Variables
  patchClusteringDropDatabaseRole patchNetworkClearBridgeVolatileHwaddr
  patchMoveBackupsInstances patchNetworkOVNEnableNAT
  patchNetworkOVNRemoveRoutes patchNetworkFANEnableNAT patchThinpoolTypoFix
  patchVMRenameUUIDKey patchDBNodesAutoInc patchNetworkACLRemoveDefaults
  patchClusteringServerCertTrust patchRemoveWarningsWithEmptyNode
  patchDnsmasqEntriesIncludeDeviceName
  patchStorageRenameCustomISOBlockVolumes patchZfsSetContentTypeUserProperty
  patchStorageZfsUnsetInvalidBlockSettings
  patchStorageZfsUnsetInvalidBlockSettingsV2
  patchStorageUnsetInvalidBlockSettings patchRemoveCandidRBACConfigKeys
  patchStorageSetVolumeUUID : body World.

Definition patchGenericStorage : body World :=
  fun name d => storagePools_Patch name d.

Definition patchGenericNetwork (f : body World) : body World :=
  fun name d =>
    match network_PatchPreCheck d with
    | (d', Some err) => (d', Some err)
    | (d', None) => f name d'
    end.

Definition patches : list (patch World) := [
  mkPatch "storage_lvm_skipactivation" patchPostDaemonStorage patchGenericStorage;
  mkPatch "clustering_drop_database_role" patchPostDaemonStorage patchClusteringDropDatabaseRole;
  mkPatch "network_clear_bridge_volatile_hwaddr" patchPostDaemonStorage (patchGenericNetwork patchNetworkClearBridgeVolatileHwaddr);
  mkPatch "move_backups_instances" patchPostDaemonStorage patchMoveBackupsInstances;
  mkPatch "network_ovn_enable_nat" patchPostDaemonStorage (patchGenericNetwork patchNetworkOVNEnableNAT);
  mkPatch "network_ovn_remove_routes" patchPostDaemonStorage (patchGenericNetwork patchNetworkOVNRemoveRoutes);
  mkPatch "network_fan_enable_nat" patchPostDaemonStorage (patchGenericNetwork patchNetworkFANEnableNAT);
  mkPatch "thinpool_typo_fix" patchPostDaemonStorage patchThinpoolTypoFix;
  mkPatch "vm_rename_uuid_key" patchPostDaemonStorage patchVMRenameUUIDKey;
  mkPatch "db_nodes_autoinc" patchPreDaemonStorage patchDBNodesAutoInc;
  mkPatch "network_acl_remove_defaults" patchPostDaemonStorage (patchGenericNetwork patchNetworkACLRemoveDefaults);
  mkPatch "clustering_server_cert_trust" patchPreDaemonStorage patchClusteringServerCertTrust;
  mkPatch "warnings_remove_empty_node" patchPostDaemonStorage patchRemoveWarningsWithEmptyNode;
  mkPatch "dnsmasq_entries_include_device_name" patchPostDaemonStorage patchDnsmasqEntriesIncludeDeviceName;
  mkPatch "storage_missing_snapshot_records" patchPostDaemonStorage patchGenericStorage;
  mkPatch "storage_delete_old_snapshot_records" patchPostDaemonStorage patchGenericStorage;
  mkPatch "storage_zfs_drop_block_volume_filesystem_extension" patchPostDaemonStorage patchGenericStorage;
  mkPatch "storage_prefix_bucket_names_with_project" patchPostDaemonStorage patchGenericStorage;
  mkPatch "storage_move_custom_iso_block_volumes" patchPostDaemonStorage patchStorageRenameCustomISOBlockVolumes;
  mkPatch "zfs_set_content_type_user_property" patchPostDaemonStorage patchZfsSetContentTypeUserProperty;
  mkPatch "storage_zfs_unset_invalid_block_settings" patchPostDaemonStorage patchStorageZfsUnsetInvalidBlockSettings;
  mkPatch "storage_zfs_unset_invalid_block_settings_v2" patchPostDaemonStorage patchStorageZfsUnsetInvalidBlockSettingsV2;
  mkPatch "storage_unset_invalid_block_settings" patchPostDaemonStorage patchStorageUnsetInvalidBlockSettings;
  mkPatch "candid_rbac_remove_config_keys" patchPreDaemonStorage patchRemoveCandidRBACConfigKeys;
  mkPatch "storage_set_volume_uuid" patchPostDaemonStorage patchStorageSetVolumeUUID
].

End Registry.

(** ** Sample patches *)

(** The world of the samples counts the bodies that have run. *)
Definition succeeds : body nat := fun _ w => (S w, None).

Definition fails : body nat := fun _ w => (w, Some (errorString "boom")).

(** A body that fails when it is the second one to run and succeeds
    otherwise. *)
Definition fails_once : body nat :=
  fun _ w => if (w =? 1)%nat then (S w, Some (errorString "not yet")) else (S w, None).

(** A daemon that has applied nothing, on a database that works. *)
Definition fresh : Daemon nat := mkDaemon (mkNode [] []) 0 [].

(** A daemon whose database fails the second operation asked of it. *)
Definition write_fails : Daemon nat :=
  mkDaemon (mkNode [] [None; Some (errorString "disk full")]) 0 [].

Definition P1 : patch nat := mkPatch "P1" patchPostDaemonStorage succeeds.
Definition P2 : patch nat := mkPatch "P2" patchPostDaemonStorage fails_once.
Definition P3 : patch nat := mkPatch "P3" patchPostDaemonStorage succeeds.

(** Two patches of the same name and body, tagged with different stages. *)
Definition early : patch nat := mkPatch "rename_keys" patchPreDaemonStorage fails.
Definition late : patch nat := mkPatch "rename_keys" patchPostDaemonStorage fails.

(** A patch without a stage, and one whose body fails. *)
Definition broken : patch nat := mkPatch "broken" patchNoStageSet succeeds.
Definition doomed : patch nat := mkPatch "doomed" patchPostDaemonStorage fails.

(** Two patches of one name. *)
Definition twin_a : patch nat := mkPatch "twin" patchPostDaemonStorage succeeds.
Definition twin_b : patch nat := mkPatch "twin" patchPostDaemonStorage succeeds.

(** Two patches of different stages. *)
Definition Q1 : patch nat := mkPatch "Q1" patchPreDaemonStorage succeeds.
Definition Q2 : patch nat := mkPatch "Q2" patchPostNetworks succeeds.

(** The registry of the daemon with bodies that all succeed, and a daemon
    whose database fails the first operation asked of it. *)
Definition patches_that_succeed : list (patch nat) :=
  patches (fun _ w => (S w, None)) (fun w => (w, None))
    succeeds succeeds succeeds succeeds succeeds succeeds succeeds succeeds
    succeeds succeeds succeeds succeeds succeeds succeeds succeeds succeeds
    succeeds succeeds succeeds succeeds.

Definition database_locked : Daemon nat :=
  mkDaemon (mkNode [] [Some (errorString "database is locked")]) 0 [].

(** No string occurs twice in [l]. *)
Fixpoint distinct (l : list string) : bool :=
  match l with
  | [] => true
  | x :: rest => negb (existsb (String.eqb x) rest) && distinct rest
  end.

(** ** Pending patches *)

(** The patches of [ps] whose name is not in the applied set [applied],
    in registry order. *)
Definition pending {World} (applied : list string) (ps : list (patch World))
  : list (patch World) :=
  filter (fun p => negb (ValueInSlice (name p) applied)) ps.

(** The world after the bodies of [ps] have run one after the other. *)
Definition run_bodies {World} (ps : list (patch World)) (w : World) : World :=
  fold_left (fun w p => fst (run p (name p) w)) ps w.

(** ** Patch bodies on the cluster database *)

(** The bodies of the patches work on the cluster database inside
    [d.db.Cluster.Transaction(ctx, func(ctx, tx) error {...})].  The
    transaction machinery and the queries are not part of the sources at
    hand; what is modelled is the function handed to [Transaction], over
    a database of any type [DB] and queries of any behaviour, each call
    to a query being appended, with its result, to the calls of the
    transaction.  The lines that the bodies write to the log are left
    out. *)

(** Go's [map[string]string]: [m k] is [Some v] when [k] is a key of the
    map. *)
Definition config : Type := string -> option string.

(** [m[k]], the empty string when [k] is no key of [m]. *)
Definition config_get (m : config) (k : string) : string :=
  match m k with
  | Some v => v
  | None => EmptyString
  end.

(** [_, found := m[k]] *)
Definition config_found (m : config) (k : string) : bool :=
  match m k with
  | Some _ => true
  | None => false
  end.

(** [delete(m, k)] *)
Definition config_delete (m : config) (k : string) : config :=
  fun k' => if String.eqb k k' then None else m k'.

(** [m[k] = v] *)
Definition config_set (m : config) (k v : string) : config :=
  fun k' => if String.eqb k k' then Some v else m k'.

(** The fields of [dbCluster.Warning], [db.NodeInfo] and [api.Network]
    that the bodies read. *)
Record Warning : Type := mkWarning {
  Warning_UUID : string;
  Warning_Node : string
}.

Record NodeInfo : Type := mkNodeInfo {
  NodeInfo_ID : Z;
  NodeInfo_Name : string
}.

Record Network : Type := mkNetwork {
  Network_Name : string;
  Network_Description : string;
  Network_Type : string;
  Network_Config : config
}.

(** The fields of [db.InstanceArgs], of [cluster.Instance] (a snapshot)
    and of [db.StorageVolume] that the bodies read. *)
Record InstanceArgs : Type := mkInstanceArgs {
  Inst_ID : Z;
  Inst_Type : Z;
  Inst_Name : string;
  Inst_Project : string;
  Inst_Config : config
}.

Record Instance : Type := mkInstance {
  Snap_ID : Z;
  Snap_Name : string;
  Snap_Project : string
}.

Record StorageVolume : Type := mkStorageVolume {
  Vol_Project : string;
  Vol_Name : string;
  Vol_Type : string;
  Vol_Location : string;
  Vol_Description : string;
  Vol_ContentType : string;
  Vol_Config : config
}.

(** The map without key. *)
Definition config_empty : config := fun _ => None.

(** The calls to the queries, with their arguments and results. *)
Inductive txcall : Type :=
| TxGetWarnings (res : list Warning * option error)
| TxDeleteWarning (uuid : string) (res : option error)
| TxGetNodes (res : list NodeInfo * option error)
| TxUpdateNodeRoles (id : Z) (roles : list Z) (res : option error)
| TxGetNetworks (project : string) (res : list string * option error)
| TxGetNetworkInAnyState (project name : string) (res : Network * option error)
| TxUpdateNetwork (project name description : string) (cfg : config)
    (res : option error)
| TxGetCreatedNetworks (res : list (string * list (Z * Network)) * option error)
| TxUpdateInstanceConfig (id : Z) (changes : config) (res : option error)
| TxGetInstanceSnapshotsWithName (project name : string)
    (res : list Instance * option error)
| TxGetInstanceConfig (id : Z) (res : config * option error)
| TxUpdateInstanceSnapshotConfig (id : Z) (changes : config) (res : option error)
| TxUpdateStoragePoolVolume (project name : string) (volType pool : Z)
    (description : string) (cfg : config) (res : option error)
| FsPathExists (path : string) (res : bool)
| FsMkdirAll (path : string) (perm : Z) (res : option error)
| FsReadDir (path : string) (res : list string * option error)
| FsRename (oldpath newpath : string) (res : option error).

(** The calls of a loop all succeed but possibly the last one, and the
    loop returns the error of the last call when it failed. *)
Inductive stops_at_first_error {E} (result : E -> option error)
  : list E -> option error -> Prop :=
| stops_nil : stops_at_first_error result [] None
| stops_ok e rest res :
    result e = None ->
    stops_at_first_error result rest res ->
    stops_at_first_error result (e :: rest) res
| stops_error e err :
    result e = Some err ->
    stops_at_first_error result [e] (Some err).

Section ClusterTx.

Variable DB : Type.

(** [*db.ClusterTx]: the database, and the calls made so far, oldest
    first, kept for the specification only. *)
Record ClusterTx : Type := mkClusterTx {
  tx_db : DB;
  tx_calls : list txcall
}.

Definition TM (A : Type) : Type := ClusterTx -> ClusterTx * A.

Definition tx_ret {A} (a : A) : TM A := fun t => (t, a).

Definition tx_bind {A B} (m : TM A) (k : A -> TM B) : TM B :=
  fun t => let (t', a) := m t in k a t'.

(** A call to the query [op], recorded as [ev]. *)
Definition tx_call {R} (op : DB -> DB * R) (ev : R -> txcall) : TM R :=
  fun t =>
    let (db', r) := op (tx_db t) in
    (mkClusterTx db' (tx_calls t ++ [ev r]), r).

(** [for _, x := range l { err := body(x); if err != nil { return err } }
    return nil] *)
Fixpoint for_range {A} (l : list A) (body : A -> TM (option error))
  : TM (option error) :=
  match l with
  | [] => tx_ret None
  | x :: rest =>
      tx_bind (body x) (fun err =>
        match err with
        | Some err => tx_ret (Some err)
        | None => for_range rest body
        end)
  end.

(** The calls made while [m] runs from [t]. *)
Definition tx_new_calls {A} (m : TM A) (t : ClusterTx) : list txcall :=
  skipn (List.length (tx_calls t)) (tx_calls (fst (m t))).

(** *** [patchRemoveWarningsWithEmptyNode] *)

Variable GetWarnings : DB -> DB * (list Warning * option error).
Variable DeleteWarning : string -> DB -> DB * option error.

Definition patchRemoveWarningsWithEmptyNode_tx : TM (option error) :=
  tx_bind (tx_call GetWarnings TxGetWarnings) (fun res =>
    match res with
    | (_, Some err) => tx_ret (Some err)
    | (warnings, None) =>
        for_range warnings (fun w =>
          if String.eqb (Warning_Node w) EmptyString
          then tx_call (DeleteWarning (Warning_UUID w))
                 (TxDeleteWarning (Warning_UUID w))
          else tx_ret None)
    end).

(** *** [patchClusteringDropDatabaseRole] *)

Variable GetNodes : DB -> DB * (list NodeInfo * option error).
Variable UpdateNodeRoles : Z -> list Z -> DB -> DB * option error.

Definition patchClusteringDropDatabaseRole_tx : TM (option error) :=
  tx_bind (tx_call GetNodes TxGetNodes) (fun res =>
    match res with
    | (_, Some err) =>
        tx_ret (Some (wrapError
                        ("Failed getting cluster members: " ++ Error err)%string
                        err))
    | (members, None) =>
        for_range members (fun member =>
          tx_call (UpdateNodeRoles (NodeInfo_ID member) [])
            (TxUpdateNodeRoles (NodeInfo_ID member) []))
    end).

(** *** [patchNetworkClearBridgeVolatileHwaddr] *)

(** [api.ProjectDefaultName] *)
Variable ProjectDefaultName : string.

Variable GetNetworks : string -> DB -> DB * (list string * option error).
Variable GetNetworkInAnyState :
  string -> string -> DB -> DB * (Network * option error).
Variable UpdateNetwork :
  string -> string -> string -> config -> DB -> DB * option error.

Definition patchNetworkClearBridgeVolatileHwaddr_tx : TM (option error) :=
  let projectName := ProjectDefaultName in
  tx_bind (tx_call (GetNetworks projectName) (TxGetNetworks projectName))
    (fun res =>
    match res with
    | (_, Some err) =>
        tx_ret (Some (wrapError
          ("Failed loading networks for network_clear_bridge_volatile_hwaddr patch: "
             ++ Error err)%string err))
    | (networks, None) =>
        for_range networks (fun networkName =>
          tx_bind (tx_call (GetNetworkInAnyState projectName networkName)
                     (TxGetNetworkInAnyState projectName networkName))
            (fun res =>
            match res with
            | (_, Some err) =>
                tx_ret (Some (wrapError
                  ("Failed loading network " ++ fmt.q networkName
                     ++ " for network_clear_bridge_volatile_hwaddr patch: "
                     ++ Error err)%string err))
            | (net, None) =>
                if negb (String.eqb
                           (config_get (Network_Config net) "volatile.bridge.hwaddr")
                           EmptyString)
                then
                  let cfg :=
                    config_delete (Network_Config net) "volatile.bridge.hwaddr" in
                  tx_bind (tx_call
                             (UpdateNetwork projectName (Network_Name net)
                                (Network_Description net) cfg)
                             (TxUpdateNetwork projectName (Network_Name net)
                                (Network_Description net) cfg))
                    (fun err =>
                    match err with
                    | Some err =>
                        tx_ret (Some (wrapError
                          ("Failed updating network " ++ fmt.q networkName
                             ++ " for network_clear_bridge_volatile_hwaddr patch: "
                             ++ Error err)%string err))
                    | None => tx_ret None
                    end)
                else tx_ret None
            end))
    end).

(** *** [patchNetworkOVNEnableNAT] *)

(** [tx.GetCreatedNetworks] returns a map from project names to maps
    from network ids to networks, which the body walks with [range]; Go
    leaves the order of such a walk open.  The result is modelled as the
    entries in the order in which the walk meets them, an order which is
    any. *)
Variable GetCreatedNetworks :
  DB -> DB * (list (string * list (Z * Network)) * option error).

(** What the body does to the configuration of one OVN network, and
    whether it changed it. *)
Definition ovn_enable_nat (c : config) : config * bool :=
  let (c1, modified1) :=
    if negb (String.eqb (config_get c "ipv4.address") EmptyString)
       && String.eqb (config_get c "ipv4.nat") EmptyString
    then (config_set c "ipv4.nat" "true", true)
    else (c, false) in
  if negb (String.eqb (config_get c1 "ipv6.address") EmptyString)
     && String.eqb (config_get c1 "ipv6.nat") EmptyString
  then (config_set c1 "ipv6.nat" "true", true)
  else (c1, modified1).

(** The body of the inner loop: one network of the project
    [projectName]. *)
Definition patchNetworkOVNEnableNAT_network (projectName : string) (idn : Z * Network)
  : TM (option error) :=
  let (networkID, network) := idn in
  if negb (String.eqb (Network_Type network) "ovn")
  then tx_ret None
  else
    let (cfg, modified) := ovn_enable_nat (Network_Config network) in
    if modified
    then
      tx_bind (tx_call
                 (UpdateNetwork projectName (Network_Name network)
                    (Network_Description network) cfg)
                 (TxUpdateNetwork projectName (Network_Name network)
                    (Network_Description network) cfg))
        (fun err =>
        match err with
        | Some err =>
            tx_ret (Some (wrapError
              ("Failed saving OVN NAT settings for "
                 ++ fmt.q (Network_Name network) ++ " ("
                 ++ fmt.d networkID ++ "): " ++ Error err)%string err))
        | None => tx_ret None
        end)
    else tx_ret None.

Definition patchNetworkOVNEnableNAT_tx : TM (option error) :=
  tx_bind (tx_call GetCreatedNetworks TxGetCreatedNetworks) (fun res =>
    match res with
    | (_, Some err) => tx_ret (Some err)
    | (projectNetworks, None) =>
        for_range projectNetworks (fun pn =>
          let (projectName, networks) := pn in
          for_range networks (patchNetworkOVNEnableNAT_network projectName))
    end).

(** *** [patchNetworkFANEnableNAT] *)

(** What the body does to the configuration of one fan bridge. *)
Definition fan_enable_nat (c : config) : config * bool :=
  if negb (config_found c "ipv4.nat")
  then (config_set c "ipv4.nat" "true", true)
  else (c, false).

(** The body of the inner loop: one network of the project
    [projectName]. *)
Definition patchNetworkFANEnableNAT_network (projectName : string) (idn : Z * Network)
  : TM (option error) :=
  let (networkID, network) := idn in
  if negb (String.eqb (Network_Type network) "bridge")
  then tx_ret None
  else if negb (String.eqb (config_get (Network_Config network) "bridge.mode") "fan")
  then tx_ret None
  else
    let (cfg, modified) := fan_enable_nat (Network_Config network) in
    if modified
    then
      tx_bind (tx_call
                 (UpdateNetwork projectName (Network_Name network)
                    (Network_Description network) cfg)
                 (TxUpdateNetwork projectName (Network_Name network)
                    (Network_Description network) cfg))
        (fun err =>
        match err with
        | Some err =>
            tx_ret (Some (wrapError
              ("Failed setting ipv4.nat=true for fan network "
                 ++ fmt.q (Network_Name network) ++ " ("
                 ++ fmt.d networkID ++ "): " ++ Error err)%string err))
        | None => tx_ret None
        end)
    else tx_ret None.

Definition patchNetworkFANEnableNAT_tx : TM (option error) :=
  tx_bind (tx_call GetCreatedNetworks TxGetCreatedNetworks) (fun res =>
    match res with
    | (_, Some err) => tx_ret (Some err)
    | (projectNetworks, None) =>
        for_range projectNetworks (fun pn =>
          let (projectName, networks) := pn in
          for_range networks (patchNetworkFANEnableNAT_network projectName))
    end).

(** *** [patchNetworkOVNRemoveRoutes] *)

(** What the body does to the configuration of one OVN network. *)
Definition ovn_remove_routes (c : config) : config * bool :=
  let (c1, modified1) :=
    if config_found c "ipv4.routes.external"
    then (config_delete c "ipv4.routes.external", true)
    else (c, false) in
  if config_found c1 "ipv6.routes.external"
  then (config_delete c1 "ipv6.routes.external", true)
  else (c1, modified1).

(** The body of the inner loop: one network of the project
    [projectName]. *)
Definition patchNetworkOVNRemoveRoutes_network (projectName : string) (idn : Z * Network)
  : TM (option error) :=
  let (networkID, network) := idn in
  if negb (String.eqb (Network_Type network) "ovn")
  then tx_ret None
  else
    let (cfg, modified) := ovn_remove_routes (Network_Config network) in
    if modified
    then
      tx_bind (tx_call
                 (UpdateNetwork projectName (Network_Name network)
                    (Network_Description network) cfg)
                 (TxUpdateNetwork projectName (Network_Name network)
                    (Network_Description network) cfg))
        (fun err =>
        match err with
        | Some err =>
            tx_ret (Some (wrapError
              ("Failed removing OVN external route settings for "
                 ++ fmt.q (Network_Name network) ++ " ("
                 ++ fmt.d networkID ++ "): " ++ Error err)%string err))
        | None => tx_ret None
        end)
    else tx_ret None.

Definition patchNetworkOVNRemoveRoutes_tx : TM (option error) :=
  tx_bind (tx_call GetCreatedNetworks TxGetCreatedNetworks) (fun res =>
    match res with
    | (_, Some err) => tx_ret (Some err)
    | (projectNetworks, None) =>
        for_range projectNetworks (fun pn =>
          let (projectName, networks) := pn in
          for_range networks (patchNetworkOVNRemoveRoutes_network projectName))
    end).

(** *** [patchVMRenameUUIDKey] *)

(** [instancetype.VM] *)
Variable instancetype_VM : Z.

Variable UpdateInstanceConfig : Z -> config -> DB -> DB * option error.
Variable GetInstanceSnapshotsWithName :
  string -> string -> DB -> DB * (list Instance * option error).
Variable GetInstanceConfig : Z -> DB -> DB * (config * option error).
Variable UpdateInstanceSnapshotConfig : Z -> config -> DB -> DB * option error.

(** [map[string]string{oldUUIDKey: "", newUUIDKey: uuid}] *)
Definition rename_changes (oldUUIDKey newUUIDKey uuid : string) : config :=
  config_set (config_set config_empty oldUUIDKey EmptyString) newUUIDKey uuid.

Definition msgFailedRenaming (oldUUIDKey newUUIDKey name project : string)
    (err : error) : string :=
  ("Failed renaming config key " ++ fmt.q oldUUIDKey ++ " to "
     ++ fmt.q newUUIDKey ++ " for VM " ++ fmt.q name ++ " (Project "
     ++ fmt.q project ++ "): " ++ Error err)%string.

(** The function that [patchVMRenameUUIDKey] hands to
    [tx.InstanceList], which calls it on every instance. *)
Definition patchVMRenameUUIDKey_instance (inst : InstanceArgs)
  : TM (option error) :=
  let oldUUIDKey := "volatile.vm.uuid" in
  let newUUIDKey := "volatile.uuid" in
  if negb (Z.eqb (Inst_Type inst) instancetype_VM)
  then tx_ret None
  else
    let uuid := config_get (Inst_Config inst) oldUUIDKey in
    tx_bind
      (if negb (String.eqb uuid EmptyString)
       then
         let changes := rename_changes oldUUIDKey newUUIDKey uuid in
         tx_bind (tx_call (UpdateInstanceConfig (Inst_ID inst) changes)
                    (TxUpdateInstanceConfig (Inst_ID inst) changes))
           (fun err =>
           match err with
           | Some err =>
               tx_ret (Some (wrapError
                 (msgFailedRenaming oldUUIDKey newUUIDKey (Inst_Name inst)
                    (Inst_Project inst) err) err))
           | None => tx_ret None
           end)
       else tx_ret None)
      (fun err =>
      match err with
      | Some err => tx_ret (Some err)
      | None =>
          tx_bind (tx_call
                     (GetInstanceSnapshotsWithName (Inst_Project inst)
                        (Inst_Name inst))
                     (TxGetInstanceSnapshotsWithName (Inst_Project inst)
                        (Inst_Name inst)))
            (fun res =>
            match res with
            | (_, Some err) => tx_ret (Some err)
            | (snaps, None) =>
                for_range snaps (fun snap =>
                  tx_bind (tx_call (GetInstanceConfig (Snap_ID snap))
                             (TxGetInstanceConfig (Snap_ID snap)))
                    (fun res =>
                    match res with
                    | (_, Some err) => tx_ret (Some err)
                    | (config, None) =>
                        let uuid := config_get config oldUUIDKey in
                        if negb (String.eqb uuid EmptyString)
                        then
                          let changes :=
                            rename_changes oldUUIDKey newUUIDKey uuid in
                          tx_bind (tx_call
                                     (UpdateInstanceSnapshotConfig
                                        (Snap_ID snap) changes)
                                     (TxUpdateInstanceSnapshotConfig
                                        (Snap_ID snap) changes))
                            (fun err =>
                            match err with
                            | Some err =>
                                tx_ret (Some (wrapError
                                  (msgFailedRenaming oldUUIDKey newUUIDKey
                                     (Snap_Name snap) (Snap_Project snap) err)
                                  err))
                            | None => tx_ret None
                            end)
                        else tx_ret None
                    end))
            end)
      end).

(** *** The patches that unset invalid block settings *)

(** [shared.IsTrue], and the constants of [dbCluster] for the types and
    the content types of volumes. *)
Variable IsTrue : string -> bool.
Variable StoragePoolVolumeTypeNameVM : string.
Variable StoragePoolVolumeTypeNameCustom : string.
Variable StoragePoolVolumeContentTypeNameFS : string.
Variable StoragePoolVolumeTypeCustom : Z.
Variable StoragePoolVolumeTypeVM : Z.

(** [s.DB.Cluster.Transaction] around one [tx.UpdateStoragePoolVolume]. *)
Variable UpdateStoragePoolVolume :
  string -> string -> Z -> Z -> string -> config -> DB -> DB * option error.

(** The loop over [block.filesystem] and [block.mount_options]: the
    configuration without the keys, and whether one was found. *)
Definition unset_block_settings (config0 : config) : config * bool :=
  fold_left
    (fun (acc : config * bool) k =>
       let (config, update) := acc in
       if config_found config k then (config_delete config k, true)
       else (config, update))
    ["block.filesystem"; "block.mount_options"] (config0, false).

(** The end of the body of the loop over the volumes, the same in the
    three patches: the keys are removed, the type of the volume is
    turned into its number, and the volume is written. *)
Definition update_block_volume (poolIDNameMap : Z -> string) (pool : Z)
    (vol : StorageVolume) : TM (option error) :=
  let (config, update) := unset_block_settings (Vol_Config vol) in
  if negb update
  then tx_ret None
  else
    match
      (if String.eqb (Vol_Type vol) StoragePoolVolumeTypeNameVM
       then Some StoragePoolVolumeTypeVM
       else if String.eqb (Vol_Type vol) StoragePoolVolumeTypeNameCustom
       then Some StoragePoolVolumeTypeCustom
       else None)
    with
    | None => tx_ret None
    | Some volType =>
        tx_bind (tx_call
                   (UpdateStoragePoolVolume (Vol_Project vol) (Vol_Name vol)
                      volType pool (Vol_Description vol) config)
                   (TxUpdateStoragePoolVolume (Vol_Project vol) (Vol_Name vol)
                      volType pool (Vol_Description vol) config))
          (fun err =>
          match err with
          | Some err =>
              tx_ret (Some (wrapError
                ("Failed updating volume " ++ fmt.q (Vol_Name vol)
                   ++ " in project " ++ fmt.q (Vol_Project vol)
                   ++ " on pool " ++ fmt.q (poolIDNameMap pool) ++ ": "
                   ++ Error err)%string err))
          | None => tx_ret None
          end)
    end.

(** The loop of [patchStorageZfsUnsetInvalidBlockSettings] over the
    volumes it has collected, [poolVolumes] being the entries of the map
    in the order of the walk. *)
Definition patchStorageZfsUnsetInvalidBlockSettings_volumes
    (ServerName : string) (poolIDNameMap : Z -> string)
    (poolVolumes : list (Z * list StorageVolume)) : TM (option error) :=
  for_range poolVolumes (fun pv =>
    let (pool, volumes) := pv in
    for_range volumes (fun vol =>
      if negb (String.eqb ServerName EmptyString)
         && negb (String.eqb (Vol_Location vol) ServerName)
      then tx_ret None
      else if IsTrue (config_get (Vol_Config vol) "zfs.block_mode")
      then tx_ret None
      else update_block_volume poolIDNameMap pool vol)).

(** The same loop in [patchStorageZfsUnsetInvalidBlockSettingsV2]. *)
Definition patchStorageZfsUnsetInvalidBlockSettingsV2_volumes
    (ServerName : string) (poolIDNameMap : Z -> string)
    (poolVolumes : list (Z * list StorageVolume)) : TM (option error) :=
  for_range poolVolumes (fun pv =>
    let (pool, volumes) := pv in
    for_range volumes (fun vol =>
      if negb (String.eqb ServerName EmptyString)
         && negb (String.eqb (Vol_Location vol) ServerName)
      then tx_ret None
      else if IsTrue (config_get (Vol_Config vol) "zfs.block_mode")
              && String.eqb (Vol_Type vol) StoragePoolVolumeTypeNameCustom
      then tx_ret None
      else update_block_volume poolIDNameMap pool vol)).

(** The same loop in [patchStorageUnsetInvalidBlockSettings]. *)
Definition patchStorageUnsetInvalidBlockSettings_volumes
    (poolIDNameMap : Z -> string)
    (poolVolumes : list (Z * list StorageVolume)) : TM (option error) :=
  for_range poolVolumes (fun pv =>
    let (pool, volumes) := pv in
    for_range volumes (fun vol =>
      if String.eqb (Vol_Type vol) StoragePoolVolumeTypeNameCustom
         && String.eqb (Vol_ContentType vol) StoragePoolVolumeContentTypeNameFS
      then tx_ret None
      else update_block_volume poolIDNameMap pool vol)).

(** *** [patchMoveBackupsInstances] *)

(** The body works on the file system; [DB] is then the file system and
    the queries are [shared.PathExists], [os.MkdirAll], [os.ReadDir]
    (the names of the entries) and [os.Rename].  [shared.VarPath],
    [filepath.Join] and [backup.WorkingDirPrefix] are not part of the
    sources at hand. *)
Variable VarPath : list string -> string.
Variable filepath_Join : string -> string -> string.
Variable WorkingDirPrefix : string.
Variable PathExists : string -> DB -> DB * bool.
Variable MkdirAll : string -> Z -> DB -> DB * option error.
Variable ReadDir : string -> DB -> DB * (list string * option error).
Variable Rename : string -> string -> DB -> DB * option error.

Definition patchMoveBackupsInstances_fs : TM (option error) :=
  tx_bind (tx_call (PathExists (VarPath ["backups"]))
             (FsPathExists (VarPath ["backups"])))
    (fun found =>
    if negb found
    then tx_ret None
    else
      let backupsPath := VarPath ["backups"; "instances"] in
      tx_bind (tx_call (MkdirAll backupsPath 448) (FsMkdirAll backupsPath 448))
        (fun err =>
        match err with
        | Some err =>
            tx_ret (Some (wrapError
              ("Failed creating instances backup directory "
                 ++ fmt.q backupsPath ++ ": " ++ Error err)%string err))
        | None =>
            tx_bind (tx_call (ReadDir (VarPath ["backups"]))
                       (FsReadDir (VarPath ["backups"])))
              (fun res =>
              match res with
              | (_, Some err) =>
                  tx_ret (Some (wrapError
                    ("Failed listing existing backup directory "
                       ++ fmt.q (VarPath ["backups"]) ++ ": " ++ Error err)%string
                    err))
              | (backups, None) =>
                  for_range backups (fun backupDir =>
                    if String.eqb backupDir "instances"
                       || String.prefix WorkingDirPrefix backupDir
                    then tx_ret None
                    else
                      let oldPath := VarPath ["backups"; backupDir] in
                      let newPath := filepath_Join backupsPath backupDir in
                      tx_bind (tx_call (Rename oldPath newPath)
                                 (FsRename oldPath newPath))
                        (fun err =>
                        match err with
                        | Some err =>
                            tx_ret (Some (wrapError
                              ("Failed moving backup from " ++ fmt.q oldPath
                                 ++ " to " ++ fmt.q newPath ++ ": "
                                 ++ Error err)%string err))
                        | None => tx_ret None
                        end))
              end)
        end)).

End ClusterTx.

Arguments mkClusterTx {DB}.
Arguments tx_db {DB}.
Arguments tx_calls {DB}.
Arguments tx_ret {DB A}.
Arguments tx_bind {DB A B}.
Arguments tx_call {DB R}.
Arguments for_range {DB A}.
Arguments tx_new_calls {DB A}.
Arguments patchRemoveWarningsWithEmptyNode_tx {DB}.
Arguments patchClusteringDropDatabaseRole_tx {DB}.
Arguments patchNetworkClearBridgeVolatileHwaddr_tx {DB}.
Arguments patchNetworkOVNEnableNAT_tx {DB}.
Arguments patchNetworkOVNEnableNAT_network {DB}.
Arguments patchNetworkFANEnableNAT_network {DB}.
Arguments patchNetworkOVNRemoveRoutes_network {DB}.
Arguments patchVMRenameUUIDKey_instance {DB}.
Arguments update_block_volume {DB}.
Arguments patchStorageZfsUnsetInvalidBlockSettings_volumes {DB}.
Arguments patchStorageZfsUnsetInvalidBlockSettingsV2_volumes {DB}.
Arguments patchStorageUnsetInvalidBlockSettings_volumes {DB}.
Arguments patchMoveBackupsInstances_fs {DB}.
Arguments patchNetworkFANEnableNAT_tx {DB}.
Arguments patchNetworkOVNRemoveRoutes_tx {DB}.

(** A daemon on which [P1] has been applied. *)
Definition P1_applied : Daemon nat := mkDaemon (mkNode ["P1"] []) 0 [].

(** A write of the volume [vol] of the pool [pool] by one of the patches
    that unset invalid block settings: the volume had one of the two
    keys; it is written under its project, name and description, with
    the number of its type, and with its configuration less the two
    keys. *)
Definition block_volume_write (TypeNameVM TypeNameCustom : string)
    (TypeCustom TypeVM : Z) (pool : Z) (vol : StorageVolume) (c : txcall)
  : Prop :=
  exists volType cfg r,
    c = TxUpdateStoragePoolVolume (Vol_Project vol) (Vol_Name vol) volType pool
          (Vol_Description vol) cfg r /\
    (config_found (Vol_Config vol) "block.filesystem" = true \/
     config_found (Vol_Config vol) "block.mount_options" = true) /\
    ((Vol_Type vol = TypeNameVM /\ volType = TypeVM) \/
     (Vol_Type vol <> TypeNameVM /\ Vol_Type vol = TypeNameCustom /\
      volType = TypeCustom)) /\
    cfg "block.filesystem" = None /\
    cfg "block.mount_options" = None /\
    (forall k, k <> "block.filesystem" -> k <> "block.mount_options" ->
               cfg k = Vol_Config vol k).

(** ** Sample databases *)

(** A body check that always fails. *)
Definition precheck_fails : nat -> nat * option error :=
  fun w => (w, Some (errorString "ovs-vsctl not found")).

(** A database of warnings in which every query succeeds and a deletion
    removes the warning. *)
Definition warnings_GetWarnings (db : list Warning)
  : list Warning * (list Warning * option error) :=
  (db, (db, None)).

Definition warnings_DeleteWarning (uuid : string) (db : list Warning)
  : list Warning * option error :=
  (filter (fun w => negb (String.eqb (Warning_UUID w) uuid)) db, None).

Definition sample_warnings : list Warning :=
  [mkWarning "w1" EmptyString; mkWarning "w2" "node1"; mkWarning "w3" EmptyString].

(** A database of created networks that records nothing: the read
    returns the networks, a write succeeds. *)
Definition networks_GetCreatedNetworks (db : list (string * list (Z * Network)))
  : list (string * list (Z * Network))
    * (list (string * list (Z * Network)) * option error) :=
  (db, (db, None)).

Definition networks_UpdateNetwork (project name description : string)
    (cfg : config) (db : list (string * list (Z * Network)))
  : list (string * list (Z * Network)) * option error :=
  (db, None).

Definition config_of (l : list (string * string)) : config :=
  fun k =>
    match find (fun kv => String.eqb (fst kv) k) l with
    | Some kv => Some (snd kv)
    | None => None
    end.

Definition sample_networks : list (string * list (Z * Network)) :=
  [("default",
    [(1%Z, mkNetwork "lxdbr0" EmptyString "bridge" (config_of [("ipv4.address", "10.0.0.1/24")]));
     (2%Z, mkNetwork "ovn1" EmptyString "ovn" (config_of [("ipv4.address", "10.1.0.1/24")]));
     (3%Z, mkNetwork "ovn2" EmptyString "ovn"
             (config_of [("ipv4.address", "10.2.0.1/24"); ("ipv4.nat", "false")]))])].

(** A database that accepts every write of a volume, and two volumes of
    a ZFS pool in block mode that carry [block.filesystem]: a virtual
    machine and a custom volume. *)
Definition accept_UpdateStoragePoolVolume (project name : string)
    (volType pool : Z) (description : string) (cfg : config) (db : unit)
  : unit * option error :=
  (db, None).

Definition sample_IsTrue (s : string) : bool :=
  existsb (String.eqb s) ["true"; "1"; "yes"; "on"].

Definition sample_volumes : list (Z * list StorageVolume) :=
  [(1%Z,
    [mkStorageVolume "default" "vm1" "virtual-machine" EmptyString EmptyString
       "block"
       (config_of [("zfs.block_mode", "true"); ("block.filesystem", "ext4")]);
     mkStorageVolume "default" "vol1" "custom" EmptyString EmptyString
       "filesystem"
       (config_of [("zfs.block_mode", "true"); ("block.filesystem", "ext4")])])].

(** A file system in which every operation succeeds, with three entries
    in the backups directory. *)
Definition sample_VarPath (parts : list string) : string :=
  ("/var/lib/lxd/" ++ String.concat "/" parts)%string.

Definition sample_Join (a b : string) : string := (a ++ "/" ++ b)%string.


(** * Properties *)

(** ** The store *)

Local Open Scope list_scope.

Lemma MarkPatchAsApplied_ok patch n n' :
  MarkPatchAsApplied patch n = (n', None) ->
  patches_table n' = patches_table n ++ [patch].
Proof.
  unfold MarkPatchAsApplied, next_fault.
  destruct (faults n) as [|[e|] fs]; intros H; inversion H; reflexivity.
Qed.

Lemma MarkPatchAsApplied_failed patch n n' err :
  MarkPatchAsApplied patch n = (n', Some err) ->
  patches_table n' = patches_table n.
Proof.
  unfold MarkPatchAsApplied, next_fault.
  destruct (faults n) as [|[e|] fs]; intros H; inversion H; reflexivity.
Qed.

Lemma GetAppliedPatches_table n n' res :
  GetAppliedPatches n = (n', res) ->
  patches_table n' = patches_table n /\
  (snd res = None -> fst res = patches_table n).
Proof.
  unfold GetAppliedPatches, next_fault.
  destruct (faults n) as [|[e|] fs]; intros H; inversion H; subst; simpl;
    split; try reflexivity; try discriminate; auto.
Qed.

Lemma ValueInSlice_In key l : ValueInSlice key l = true <-> In key l.
Proof.
  unfold ValueInSlice. rewrite existsb_exists. split.
  - intros [x [Hin Heq]]. apply String.eqb_eq in Heq. now subst.
  - intros Hin. exists key. split; [assumption | apply String.eqb_refl].
Qed.

(** ** One patch *)

Section Apply.

Context {World : Type}.
Implicit Types (p : patch World) (d : Daemon World).

(** The three ways through [patch.apply]. *)
Lemma apply_cases p d :
  (exists w' err,
      run p (name p) (world d) = (w', Some err) /\
      apply p d =
        (mkDaemon (db_Node d) w'
           (history d ++ [EvLogInfo "Applying patch" (name p);
                          EvRun (name p) (Some err)]),
         Some (wrapError (msgFailedApplying (name p) err) err)))
  \/ (exists w' n' err,
      run p (name p) (world d) = (w', None) /\
      MarkPatchAsApplied (name p) (db_Node d) = (n', Some err) /\
      apply p d =
        (mkDaemon n' w'
           (history d ++ [EvLogInfo "Applying patch" (name p);
                          EvRun (name p) None;
                          EvMarkPatchAsApplied (name p) (Some err)]),
         Some (wrapError (msgFailedMarking (name p) err) err)))
  \/ (exists w' n',
      run p (name p) (world d) = (w', None) /\
      MarkPatchAsApplied (name p) (db_Node d) = (n', None) /\
      apply p d =
        (mkDaemon n' w'
           (history d ++ [EvLogInfo "Applying patch" (name p);
                          EvRun (name p) None;
                          EvMarkPatchAsApplied (name p) None]),
         None)).
Proof.
  unfold apply, bind, logger_Info, emit, call_run, call_MarkPatchAsApplied, ret.
  simpl.
  destruct (run p (name p) (world d)) as [w' [err|]] eqn:Hrun; simpl.
  - left. exists w', err. split; [reflexivity|].
    rewrite <- app_assoc. reflexivity.
  - destruct (MarkPatchAsApplied (name p) (db_Node d)) as [n' [err|]] eqn:Hmark;
      simpl.
    + right; left. exists w', n', err. repeat split.
      rewrite <- !app_assoc. reflexivity.
    + right; right. exists w', n'. repeat split.
      rewrite <- !app_assoc. reflexivity.
Qed.

End Apply.

(** ** The loop *)

Section Loop.

Context {World : Type}.
Implicit Types (p : patch World) (d : Daemon World) (ps : list (patch World)).

Lemma calls_of_history {A} (m : M World A) d tr :
  history (fst (m d)) = history d ++ tr -> calls m d = tr.
Proof.
  intros H. unfold calls. rewrite H.
  rewrite skipn_app, skipn_all, Nat.sub_diag. reflexivity.
Qed.

(** Once the stage check has found an unset stage the loop returns. *)
Lemma range_no_stage p rest applied d :
  stage p = patchNoStageSet ->
  patchesApply_range (p :: rest) applied d
  = (d, Some (errorString (msgNoStage (name p)))).
Proof.
  intros H. simpl. rewrite H. reflexivity.
Qed.

Lemma range_skip p rest applied d :
  stage p <> patchNoStageSet ->
  ValueInSlice (name p) applied = true ->
  patchesApply_range (p :: rest) applied d
  = patchesApply_range rest applied d.
Proof.
  intros Hs Hin. simpl.
  destruct (Z.eqb_spec (stage p) patchNoStageSet) as [E|_]; [contradiction|].
  rewrite Hin. reflexivity.
Qed.

Lemma range_pending p rest applied d :
  stage p <> patchNoStageSet ->
  ValueInSlice (name p) applied = false ->
  patchesApply_range (p :: rest) applied d
  = match apply p d with
    | (d', Some err) => (d', Some err)
    | (d', None) => patchesApply_range rest applied d'
    end.
Proof.
  intros Hs Hin. simpl.
  destruct (Z.eqb_spec (stage p) patchNoStageSet) as [E|_]; [contradiction|].
  rewrite Hin. unfold bind, ret.
  destruct (apply p d) as [d' [err|]]; reflexivity.
Qed.

(** The loop over [pre ++ rest] is the loop over [pre], then, if that
    one came to its end, the loop over [rest]. *)
Lemma range_app pre rest applied d :
  patchesApply_range (pre ++ rest) applied d
  = match patchesApply_range pre applied d with
    | (d', Some err) => (d', Some err)
    | (d', None) => patchesApply_range rest applied d'
    end.
Proof.
  revert d. induction pre as [|p pre IH]; intros d.
  - reflexivity.
  - destruct (Z.eq_dec (stage p) patchNoStageSet) as [Hs|Hs].
    + rewrite <- app_comm_cons, !range_no_stage by assumption. reflexivity.
    + destruct (ValueInSlice (name p) applied) eqn:Hin.
      * rewrite <- app_comm_cons, !range_skip by assumption. apply IH.
      * rewrite <- app_comm_cons, !range_pending by assumption.
        destruct (apply p d) as [d' [err|]]; [reflexivity | apply IH].
  Qed.

(** What the loop leaves in the history and in the table. *)
Lemma range_history ps applied d d' res :
  patchesApply_range ps applied d = (d', res) ->
  exists tr,
    history d' = history d ++ tr /\
    loop_calls (map name ps) tr /\
    patches_table (db_Node d') = patches_table (db_Node d) ++ marked tr /\
    (forall n, In n (executed tr) -> ValueInSlice n applied = false).
Proof.
  revert d. induction ps as [|p rest IH]; intros d H.
  - inversion H; subst. exists []. rewrite !app_nil_r.
    repeat split; [apply lc_stop | intros n []].
  - destruct (Z.eq_dec (stage p) patchNoStageSet) as [Hs|Hs].
    { rewrite range_no_stage in H by assumption. inversion H; subst.
      exists []. rewrite !app_nil_r.
      repeat split; [apply lc_stop | intros n []]. }
    destruct (ValueInSlice (name p) applied) eqn:Hin.
    { rewrite range_skip in H by assumption.
      destruct (IH _ H) as (tr & Hh & Hl & Ht & He).
      exists tr. repeat split; try assumption. simpl. now apply lc_skip. }
    rewrite range_pending in H by assumption.
    destruct (apply_cases p d)
      as [(w' & err & _ & Ha) | [(w' & n' & err & _ & Hm & Ha) | (w' & n' & _ & Hm & Ha)]];
      rewrite Ha in H.
    + inversion H; subst. simpl.
      exists [EvLogInfo "Applying patch" (name p); EvRun (name p) (Some err)].
      split; [reflexivity|]. split; [apply lc_body_failed|].
      split; [simpl; now rewrite app_nil_r|].
      simpl. intros n [<-|[]]. assumption.
    + inversion H; subst. simpl.
      exists [EvLogInfo "Applying patch" (name p); EvRun (name p) None;
              EvMarkPatchAsApplied (name p) (Some err)].
      split; [reflexivity|]. split; [apply lc_mark_failed|].
      split; [simpl; rewrite app_nil_r;
              eapply MarkPatchAsApplied_failed; eassumption|].
      simpl. intros n [<-|[]]. assumption.
    + destruct (IH _ H) as (tr & Hh & Hl & Ht & He). simpl in Hh, Ht.
      exists (EvLogInfo "Applying patch" (name p) :: EvRun (name p) None
                :: EvMarkPatchAsApplied (name p) None :: tr).
      split; [rewrite Hh, <- app_assoc; reflexivity|].
      split; [simpl; now apply lc_applied|].
      split.
      * rewrite Ht. rewrite (MarkPatchAsApplied_ok _ _ _ Hm).
        simpl. rewrite <- app_assoc. reflexivity.
      * simpl. intros n [<-|Hn]; [assumption | now apply He].
Qed.

(** A loop that comes to its end has met no unset stage, and every
    name of the registry is in the applied set it was given or in the
    table it leaves. *)
Lemma range_success ps applied d d' :
  patchesApply_range ps applied d = (d', None) ->
  Forall (fun p => stage p <> patchNoStageSet /\
                   (In (name p) applied \/
                    In (name p) (patches_table (db_Node d')))) ps.
Proof.
  revert d. induction ps as [|p rest IH]; intros d H; [constructor|].
  destruct (Z.eq_dec (stage p) patchNoStageSet) as [Hs|Hs].
  { rewrite range_no_stage in H by assumption. discriminate. }
  destruct (ValueInSlice (name p) applied) eqn:Hin.
  { rewrite range_skip in H by assumption. constructor.
    - split; [assumption|]. left. now apply ValueInSlice_In.
    - eapply IH; eassumption. }
  rewrite range_pending in H by assumption.
  destruct (apply_cases p d)
    as [(w' & err & _ & Ha) | [(w' & n' & err & _ & Hm & Ha) | (w' & n' & _ & Hm & Ha)]];
    rewrite Ha in H; try discriminate.
  constructor.
  - split; [assumption|]. right.
    destruct (range_history _ _ _ _ _ H) as (tr & _ & _ & Ht & _).
    rewrite Ht. simpl. rewrite (MarkPatchAsApplied_ok _ _ _ Hm).
    apply in_or_app. left. apply in_or_app. right. now left.
  - eapply IH; eassumption.
Qed.

(** When every name of the registry is in the applied set and no stage
    is unset, the loop does nothing. *)
Lemma range_all_applied ps applied d :
  Forall (fun p => stage p <> patchNoStageSet /\ In (name p) applied) ps ->
  patchesApply_range ps applied d = (d, None).
Proof.
  induction 1 as [|p rest [Hs Hin] _ IH]; [reflexivity|].
  rewrite range_skip; [assumption | assumption |].
  now apply ValueInSlice_In.
Qed.

End Loop.

(** ** Shape of the calls of the loop *)

(** A mark-applied write comes right after the successful return of the
    body of the same name. *)
Lemma loop_calls_mark_after_success names tr i n r :
  loop_calls names tr ->
  nth_error tr i = Some (EvMarkPatchAsApplied n r) ->
  exists j, i = S j /\ nth_error tr j = Some (EvRun n None).
Proof.
  intros sh. revert i.
  induction sh as [| n0 names0 tr0 _ IH | n0 names0 tr0 _ IH | |]; intros i H.
  - destruct i; discriminate.
  - auto.
  - destruct i as [|[|[|i]]]; simpl in H; try discriminate;
      try (destruct i; discriminate).
    + inversion H; subst. exists 1. split; reflexivity.
    + destruct (IH i H) as (j & -> & Hj). exists (S (S (S j))).
      split; [reflexivity | exact Hj].
  - destruct i as [|[|[|i]]]; simpl in H; try discriminate;
      try (destruct i; discriminate).
  - destruct i as [|[|[|i]]]; simpl in H; try discriminate;
      try (destruct i; discriminate).
    inversion H; subst. exists 1. split; reflexivity.
Qed.

(** A body that returns an error is the last call of the loop. *)
Lemma loop_calls_failure_last names tr i n err :
  loop_calls names tr ->
  nth_error tr i = Some (EvRun n (Some err)) -> List.length tr = S i.
Proof.
  intros sh. revert i.
  induction sh as [| n0 names0 tr0 _ IH | n0 names0 tr0 _ IH | |]; intros i H.
  - destruct i; discriminate.
  - auto.
  - destruct i as [|[|[|i]]]; simpl in H; try discriminate;
      try (destruct i; discriminate).
    simpl. now rewrite (IH i H).
  - destruct i as [|[|[|i]]]; simpl in H; try discriminate;
      try (destruct i; discriminate).
    reflexivity.
  - destruct i as [|[|[|i]]]; simpl in H; try discriminate;
      try (destruct i; discriminate).
Qed.

(** A body that returns success is followed at once by the write for its
    name, and a write that fails is the last call of the loop. *)
Lemma loop_calls_success_then_mark names tr i n :
  loop_calls names tr ->
  nth_error tr i = Some (EvRun n None) ->
  exists r, nth_error tr (S i) = Some (EvMarkPatchAsApplied n r) /\
            (r <> None -> List.length tr = S (S i)).
Proof.
  intros sh. revert i.
  induction sh as [| n0 names0 tr0 _ IH | n0 names0 tr0 _ IH | |]; intros i H.
  - destruct i; discriminate.
  - auto.
  - destruct i as [|[|[|i]]]; simpl in H; try discriminate;
      try (destruct i; discriminate).
    + inversion H; subst. exists None. split; [reflexivity | congruence].
    + destruct (IH i H) as (r & Hr & Hl). exists r.
      split; [exact Hr |]. intros Hne. simpl. now rewrite (Hl Hne).
  - destruct i as [|[|[|i]]]; simpl in H; try discriminate;
      try (destruct i; discriminate).
  - destruct i as [|[|[|i]]]; simpl in H; try discriminate;
      try (destruct i; discriminate).
    inversion H; subst. exists (Some err). split; reflexivity.
Qed.

(** The writes are for names of the registry. *)
Lemma loop_calls_mark_writes_in names tr n :
  loop_calls names tr -> In n (mark_writes tr) -> In n names.
Proof.
  induction 1 as [| n0 names0 tr0 _ IH | n0 names0 tr0 _ IH | |];
    simpl; intros H.
  - contradiction.
  - right. now apply IH.
  - destruct H as [<-|H]; [now left | right; now apply IH].
  - contradiction.
  - destruct H as [<-|[]]. now left.
Qed.

(** With no name twice in the registry, no name is written twice. *)
Lemma loop_calls_mark_writes_NoDup names tr :
  loop_calls names tr -> NoDup names -> NoDup (mark_writes tr).
Proof.
  induction 1 as [| n0 names0 tr0 sh IH | n0 names0 tr0 sh IH | |];
    simpl; intros H.
  - constructor.
  - inversion H; subst. now apply IH.
  - inversion H as [|? ? Hnotin Hnd]; subst. constructor.
    + intros Hin. apply Hnotin.
      eapply loop_calls_mark_writes_in; eassumption.
    + now apply IH.
  - constructor.
  - constructor; [intros [] | constructor].
Qed.

(** A name is written at most as many times as the registry has
    patches of that name. *)
Lemma loop_calls_mark_writes_count names tr n :
  loop_calls names tr ->
  count_occ string_dec (mark_writes tr) n <= count_occ string_dec names n.
Proof.
  induction 1 as [| n0 names0 tr0 _ IH | n0 names0 tr0 _ IH | |]; simpl.
  - apply Nat.le_0_l.
  - destruct (string_dec n0 n); [apply Nat.le_le_succ_r|]; exact IH.
  - destruct (string_dec n0 n); [apply le_n_S|]; exact IH.
  - apply Nat.le_0_l.
  - destruct (string_dec n0 n); [apply le_n_S|]; apply Nat.le_0_l.
Qed.

Lemma marked_incl_mark_writes tr n :
  In n (marked tr) -> In n (mark_writes tr).
Proof.
  induction tr as [|e rest IH]; simpl; [auto|].
  destruct e as [? | ? ? | ? ? | m [err|]]; simpl; auto.
  intros [<-|H]; [now left | right; now apply IH].
Qed.

(** The loop returns an error for one of three reasons: an unset stage,
    a body that failed, a mark-applied write that failed; the failing
    call is then the last one of the history. *)
Lemma range_failure {World} (ps : list (patch World)) applied d d' e :
  patchesApply_range ps applied d = (d', Some e) ->
  (exists p, In p ps /\ stage p = patchNoStageSet /\
             e = errorString (msgNoStage (name p)))
  \/ (exists tr n cause,
         In n (map name ps) /\
         history d' = history d ++ tr ++ [EvRun n (Some cause)] /\
         e = wrapError (msgFailedApplying n cause) cause)
  \/ (exists tr n cause,
         In n (map name ps) /\
         history d' = history d ++ tr ++ [EvMarkPatchAsApplied n (Some cause)] /\
         e = wrapError (msgFailedMarking n cause) cause).
Proof.
  revert d. induction ps as [|p rest IH]; intros d H; [discriminate|].
  assert (Hlift :
    forall d1 front, history d1 = history d ++ front ->
      patchesApply_range rest applied d1 = (d', Some e) ->
      (exists p0, In p0 (p :: rest) /\ stage p0 = patchNoStageSet /\
                  e = errorString (msgNoStage (name p0)))
      \/ (exists tr n cause,
             In n (map name (p :: rest)) /\
             history d' = history d ++ tr ++ [EvRun n (Some cause)] /\
             e = wrapError (msgFailedApplying n cause) cause)
      \/ (exists tr n cause,
             In n (map name (p :: rest)) /\
             history d' = history d ++ tr ++ [EvMarkPatchAsApplied n (Some cause)] /\
             e = wrapError (msgFailedMarking n cause) cause)).
  { intros d1 front Hd1 Hr.
    destruct (IH _ Hr)
      as [(p0 & Hin & Hs & He)
         | [(tr & n & cause & Hin & Hh & He) | (tr & n & cause & Hin & Hh & He)]].
    - left. exists p0. repeat split; [now right | assumption | assumption].
    - right; left. exists (front ++ tr), n, cause.
      split; [now right|]. split; [|assumption].
      rewrite Hh, Hd1, <- !app_assoc. reflexivity.
    - right; right. exists (front ++ tr), n, cause.
      split; [now right|]. split; [|assumption].
      rewrite Hh, Hd1, <- !app_assoc. reflexivity. }
  destruct (Z.eq_dec (stage p) patchNoStageSet) as [Hs|Hs].
  { rewrite range_no_stage in H by assumption. inversion H; subst.
    left. exists p. repeat split; [now left | assumption]. }
  destruct (ValueInSlice (name p) applied) eqn:Hin.
  { rewrite range_skip in H by assumption.
    apply (Hlift d []); [now rewrite app_nil_r | assumption]. }
  rewrite range_pending in H by assumption.
  destruct (apply_cases p d)
    as [(w' & err & _ & Ha) | [(w' & n' & err & _ & Hm & Ha) | (w' & n' & _ & Hm & Ha)]];
    rewrite Ha in H.
  - inversion H; subst. right; left.
    exists [EvLogInfo "Applying patch" (name p)], (name p), err.
    split; [now left|]. split; reflexivity.
  - inversion H; subst. right; right.
    exists [EvLogInfo "Applying patch" (name p); EvRun (name p) None], (name p), err.
    split; [now left|]. split; reflexivity.
  - eapply Hlift; [|eassumption]. reflexivity.
Qed.

(** ** The runner *)

Section Runner.

Context {World : Type}.
Implicit Types (p K : patch World) (d : Daemon World)
  (ps pre post : list (patch World)) (st : patchStage).

Lemma patchesApply_read_failed ps st d n' l err :
  GetAppliedPatches (db_Node d) = (n', (l, Some err)) ->
  patchesApply ps st d = (after_read d n' (Some err), Some err).
Proof.
  intros H. unfold patchesApply, bind, call_GetAppliedPatches, ret.
  rewrite H. reflexivity.
Qed.

Lemma patchesApply_read_ok ps st d n' l :
  GetAppliedPatches (db_Node d) = (n', (l, None)) ->
  patches_table n' = patches_table (db_Node d) /\
  patchesApply ps st d
  = patchesApply_range ps (patches_table (db_Node d)) (after_read d n' None).
Proof.
  intros H. destruct (GetAppliedPatches_table _ _ _ H) as [Ht Hl].
  simpl in Hl. rewrite (Hl eq_refl) in H. split; [assumption|].
  unfold patchesApply, bind, call_GetAppliedPatches, ret.
  rewrite H. reflexivity.
Qed.

(** The parameter [stage] plays no part in a run. *)
Lemma patchesApply_ignores_stage ps st st' d :
  patchesApply ps st d = patchesApply ps st' d.
Proof. reflexivity. Qed.

(** A run over [pre ++ rest] is a run over [pre], then, if that one
    succeeded, the loop over [rest] with the same applied set. *)
Lemma patchesApply_app pre rest st d :
  patchesApply (pre ++ rest) st d
  = match patchesApply pre st d with
    | (d', Some err) => (d', Some err)
    | (d', None) =>
        patchesApply_range rest (patches_table (db_Node d)) d'
    end.
Proof.
  destruct (GetAppliedPatches (db_Node d)) as [n' [l [err|]]] eqn:Hget.
  - rewrite !(patchesApply_read_failed _ _ _ _ _ _ Hget). reflexivity.
  - destruct (patchesApply_read_ok (pre ++ rest) st _ _ _ Hget) as [_ ->].
    destruct (patchesApply_read_ok pre st _ _ _ Hget) as [_ ->].
    apply range_app.
Qed.

(** The run reaches [K] when the patches before it went through. *)
Lemma patchesApply_reaches pre K post st d d2 :
  patchesApply pre st d = (d2, None) ->
  stage K <> patchNoStageSet ->
  ValueInSlice (name K) (patches_table (db_Node d)) = false ->
  patchesApply (pre ++ K :: post) st d
  = match apply K d2 with
    | (d', Some err) => (d', Some err)
    | (d', None) =>
        patchesApply_range post (patches_table (db_Node d)) d'
    end.
Proof.
  intros Hpre Hs Hin. rewrite patchesApply_app, Hpre.
  now apply range_pending.
Qed.

(** What a run leaves in the history and in the table. *)
Lemma patchesApply_history ps st d d' res :
  patchesApply ps st d = (d', res) ->
  exists r tr,
    history d' = history d ++ EvGetAppliedPatches r :: tr /\
    loop_calls (map name ps) tr /\
    patches_table (db_Node d') = patches_table (db_Node d) ++ marked tr /\
    (forall n, In n (executed tr) -> ~ In n (patches_table (db_Node d))) /\
    (forall err, r = Some err -> tr = [] /\ res = Some err).
Proof.
  intros H.
  destruct (GetAppliedPatches (db_Node d)) as [n' [l [err|]]] eqn:Hget.
  - rewrite (patchesApply_read_failed _ _ _ _ _ _ Hget) in H.
    inversion H; subst. exists (Some err), []. simpl.
    split; [reflexivity|]. split; [apply lc_stop|].
    destruct (GetAppliedPatches_table _ _ _ Hget) as [Ht _].
    split; [now rewrite app_nil_r|].
    split; [intros n []|]. intros e He. inversion He; subst. now split.
  - destruct (patchesApply_read_ok ps st _ _ _ Hget) as [Ht Heq].
    rewrite Heq in H.
    destruct (range_history _ _ _ _ _ H) as (tr & Hh & Hl & Hm & He).
    exists None, tr. simpl in Hh, Hm.
    split; [rewrite Hh, <- app_assoc; reflexivity|].
    split; [assumption|].
    split; [now rewrite Hm, Ht|].
    split; [|discriminate].
    intros n Hn Hin. apply He in Hn.
    apply ValueInSlice_In in Hin. congruence.
Qed.

End Runner.

(** ** Order of the calls of a run *)

Lemma loop_calls_mark_writes_executed names tr n :
  loop_calls names tr -> In n (mark_writes tr) -> In n (executed tr).
Proof.
  induction 1 as [| n0 names0 tr0 _ IH | n0 names0 tr0 _ IH | |];
    simpl; intros H; auto.
  destruct H as [<-|H]; [now left | right; now apply IH].
Qed.

Lemma marked_NoDup tr : NoDup (mark_writes tr) -> NoDup (marked tr).
Proof.
  induction tr as [|e rest IH]; simpl; intros H; [constructor|].
  destruct e as [? | ? ? | ? ? | m [err|]]; simpl; auto.
  - inversion H; subst. now apply IH.
  - inversion H as [|? ? Hnotin Hnd]; subst. constructor; [|now apply IH].
    intros Hin. apply Hnotin. now apply marked_incl_mark_writes.
Qed.

Section CallOrder.

Context {World : Type}.
Implicit Types (d : Daemon World) (ps : list (patch World)) (st : patchStage).

(** The calls of a run: the read of the applied set, then the calls of
    the loop. *)
Lemma patchesApply_calls ps st d :
  exists r tr,
    calls (patchesApply ps st) d = EvGetAppliedPatches r :: tr /\
    loop_calls (map name ps) tr /\
    patches_table (db_Node (fst (patchesApply ps st d)))
    = patches_table (db_Node d) ++ marked tr /\
    (forall n, In n (executed tr) -> ~ In n (patches_table (db_Node d))).
Proof.
  destruct (patchesApply ps st d) as [d' res] eqn:H.
  destruct (patchesApply_history _ _ _ _ _ H) as (r & tr & Hh & Hl & Ht & He & _).
  exists r, tr. split; [|now repeat split].
  apply calls_of_history. rewrite H. exact Hh.
Qed.

(** In every run, for every registry: a write is issued only right
    after the body of the same name returned success; a body that
    returns an error ends the run; a body that returns success is
    followed at once by its write, and a failed write ends the run;
    the table grows by the names written with success. *)
Lemma patchesApply_call_order ps st d :
  let tr := calls (patchesApply ps st) d in
  (forall i n r,
      nth_error tr i = Some (EvMarkPatchAsApplied n r) ->
      exists j, i = S j /\ nth_error tr j = Some (EvRun n None))
  /\ (forall i n err,
      nth_error tr i = Some (EvRun n (Some err)) -> List.length tr = S i)
  /\ (forall i n,
      nth_error tr i = Some (EvRun n None) ->
      exists r, nth_error tr (S i) = Some (EvMarkPatchAsApplied n r) /\
                (r <> None -> List.length tr = S (S i)))
  /\ patches_table (db_Node (fst (patchesApply ps st d)))
     = patches_table (db_Node d) ++ marked tr.
Proof.
  destruct (patchesApply_calls ps st d) as (r & tr0 & Hc & Hl & Ht & _).
  cbv zeta. rewrite Hc. repeat split.
  - intros [|i] n r0 H; [discriminate|]. simpl in H.
    destruct (loop_calls_mark_after_success _ _ _ _ _ Hl H) as (j & -> & Hj).
    exists (S j). split; [reflexivity | exact Hj].
  - intros [|i] n err H; [discriminate|]. simpl in H. simpl.
    now rewrite (loop_calls_failure_last _ _ _ _ _ Hl H).
  - intros [|i] n H; [discriminate|]. simpl in H.
    destruct (loop_calls_success_then_mark _ _ _ _ Hl H) as (r0 & Hr & Hlen).
    exists r0. split; [exact Hr|]. intros Hne. simpl. now rewrite (Hlen Hne).
  - exact Ht.
Qed.

End CallOrder.

(** ** The applied record is written after success, once for each patch *)

(** C3, as stated, fails on the registry [twin_a; twin_b], two patches
    of the same name, neither applied yet: both bodies return success,
    each is followed by the write of its name, and so the one name is
    written, and marked, twice in the one run. *)
Lemma same_name_marked_twice_in_one_run :
  calls (patchesApply [twin_a; twin_b] patchPostDaemonStorage) fresh
  = [EvGetAppliedPatches None;
     EvLogInfo "Applying patch" "twin"; EvRun "twin" None;
     EvMarkPatchAsApplied "twin" None;
     EvLogInfo "Applying patch" "twin"; EvRun "twin" None;
     EvMarkPatchAsApplied "twin" None] /\
  marked (calls (patchesApply [twin_a; twin_b] patchPostDaemonStorage) fresh)
  = ["twin"; "twin"] /\
  ~ NoDup (mark_writes
             (calls (patchesApply [twin_a; twin_b] patchPostDaemonStorage) fresh)).
Proof.
  split; [reflexivity|]. split; [reflexivity|].
  intros H. inversion H as [|? ? Hnotin _]; subst. apply Hnotin. now left.
Qed.

(** C3, amended.  In a run of [patchesApply], for every registry and
    every daemon: the applied record of a name is written only right
    after the body of that name returned success, never after a body
    that returned an error (such a body is the last call of the run);
    the write is issued before any later body is entered (it is the very
    next call, and a write that fails is the last call); the table grows
    exactly by the names written with success; no name already in the
    table is written again; and a name is written at most as many times
    as the registry has patches of that name.  So, when the names of the
    registry are pairwise different, no name is written twice in a run,
    and a table without duplicates stays so. *)
Theorem applied_record_written_after_success_once_per_entry
    {World} (ps : list (patch World)) (st : patchStage) (d : Daemon World) :
  let tr := calls (patchesApply ps st) d in
  let d' := fst (patchesApply ps st d) in
  (forall i n r,
      nth_error tr i = Some (EvMarkPatchAsApplied n r) ->
      exists j, i = S j /\ nth_error tr j = Some (EvRun n None))
  /\ (forall i n err,
      nth_error tr i = Some (EvRun n (Some err)) -> List.length tr = S i)
  /\ (forall i n,
      nth_error tr i = Some (EvRun n None) ->
      exists r, nth_error tr (S i) = Some (EvMarkPatchAsApplied n r) /\
                (r <> None -> List.length tr = S (S i)))
  /\ patches_table (db_Node d') = patches_table (db_Node d) ++ marked tr
  /\ (forall n, In n (mark_writes tr) -> ~ In n (patches_table (db_Node d)))
  /\ (forall n, count_occ string_dec (mark_writes tr) n
                <= count_occ string_dec (map name ps) n)
  /\ (NoDup (map name ps) ->
      NoDup (mark_writes tr) /\
      (NoDup (patches_table (db_Node d)) -> NoDup (patches_table (db_Node d')))).
Proof.
  intros tr d'.
  destruct (patchesApply_call_order ps st d) as (Ha & Hb & Hc & Ht).
  fold tr in Ha, Hb, Hc, Ht. fold d' in Ht.
  destruct (patchesApply_calls ps st d) as (r & tr0 & Hcalls & Hl & _ & He).
  fold tr in Hcalls.
  assert (Hw : mark_writes tr = mark_writes tr0) by (rewrite Hcalls; reflexivity).
  assert (Hfresh : forall n, In n (mark_writes tr) ->
                             ~ In n (patches_table (db_Node d))).
  { intros n Hn. rewrite Hw in Hn. apply He.
    eapply loop_calls_mark_writes_executed; eassumption. }
  assert (Hcount : forall n, count_occ string_dec (mark_writes tr) n
                             <= count_occ string_dec (map name ps) n).
  { intros n. rewrite Hw. now apply loop_calls_mark_writes_count. }
  repeat (split; [assumption|]).
  intros Hnd.
  assert (Hwnd : NoDup (mark_writes tr)).
  { rewrite Hw. eapply loop_calls_mark_writes_NoDup; eassumption. }
  split; [assumption|].
  intros Htab. rewrite Ht. apply NoDup_app.
  - assumption.
  - now apply marked_NoDup.
  - intros n Hin Hm. apply (Hfresh n); [|assumption].
    now apply marked_incl_mark_writes.
Qed.

Lemma applied_record_written_after_success_once_per_entry_witness :
  NoDup (map name [P1; P2; P3]) /\
  marked (calls (patchesApply [P1; P2; P3] patchPostDaemonStorage) fresh) = ["P1"] /\
  NoDup (mark_writes (calls (patchesApply [P1; P2; P3] patchPostDaemonStorage) fresh)).
Proof.
  assert (H : NoDup (map name [P1; P2; P3])).
  { simpl. repeat constructor; simpl; intuition discriminate. }
  split; [exact H|]. split; [reflexivity|].
  exact (proj1 (proj2 (proj2 (proj2 (proj2 (proj2 (proj2
    (applied_record_written_after_success_once_per_entry
       [P1; P2; P3] patchPostDaemonStorage fresh)))))) H)).
Defined.

(** ** Fail fast *)

(** C4.  For every registry [pre ++ K :: post]: when the patches before
    [K] went through, [K] is pending and the body of [K] returns an
    error, [patchesApply] returns at once the error of [K]; the run
    ends with the call of the body of [K], so no patch of [post] is
    executed; the database is left as it was after the patches before
    [K], and every name marked in the run is in the table. *)
Theorem patchesApply_fail_fast
    {World} (pre post : list (patch World)) (K : patch World)
    (st : patchStage) (d d2 : Daemon World) (w' : World) (err : error) :
  patchesApply pre st d = (d2, None) ->
  stage K <> patchNoStageSet ->
  ValueInSlice (name K) (patches_table (db_Node d)) = false ->
  run K (name K) (world d2) = (w', Some err) ->
  let registry := pre ++ K :: post in
  patchesApply registry st d
  = (mkDaemon (db_Node d2) w'
       (history d2 ++ [EvLogInfo "Applying patch" (name K);
                       EvRun (name K) (Some err)]),
     Some (wrapError (msgFailedApplying (name K) err) err))
  /\ calls (patchesApply registry st) d
     = calls (patchesApply pre st) d
         ++ [EvLogInfo "Applying patch" (name K); EvRun (name K) (Some err)]
  /\ executed (calls (patchesApply registry st) d)
     = executed (calls (patchesApply pre st) d) ++ [name K]
  /\ marked (calls (patchesApply registry st) d)
     = marked (calls (patchesApply pre st) d)
  /\ (forall n, In n (marked (calls (patchesApply pre st) d)) ->
                In n (patches_table (db_Node (fst (patchesApply registry st d))))).
Proof.
  intros Hpre Hs Hin Hrun registry.
  assert (Hrun' :
    patchesApply registry st d
    = (mkDaemon (db_Node d2) w'
         (history d2 ++ [EvLogInfo "Applying patch" (name K);
                         EvRun (name K) (Some err)]),
       Some (wrapError (msgFailedApplying (name K) err) err))).
  { unfold registry. rewrite (patchesApply_reaches _ _ _ _ _ _ Hpre Hs Hin).
    destruct (apply_cases K d2)
      as [(w1 & e1 & Hr & Ha) | [(w1 & n1 & e1 & Hr & _) | (w1 & n1 & Hr & _)]];
      rewrite Hrun in Hr; inversion Hr; subst.
    rewrite Ha. reflexivity. }
  destruct (patchesApply_history _ _ _ _ _ Hpre) as (r & tr & Hh & _ & Ht & _).
  assert (Hcpre : calls (patchesApply pre st) d = EvGetAppliedPatches r :: tr).
  { apply calls_of_history. rewrite Hpre. exact Hh. }
  assert (Hcall : calls (patchesApply registry st) d
                  = (EvGetAppliedPatches r :: tr)
                      ++ [EvLogInfo "Applying patch" (name K);
                          EvRun (name K) (Some err)]).
  { apply calls_of_history. rewrite Hrun'. simpl.
    rewrite Hh, <- app_assoc. reflexivity. }
  split; [exact Hrun'|]. rewrite Hcall, Hcpre, Hrun'. simpl.
  split; [reflexivity|].
  assert (Hex : forall l, executed (l ++ [EvLogInfo "Applying patch" (name K);
                                          EvRun (name K) (Some err)])
                          = executed l ++ [name K]).
  { induction l as [|e l IH]; simpl; [reflexivity|].
    destruct e; simpl; now rewrite IH. }
  assert (Hmk : forall l, marked (l ++ [EvLogInfo "Applying patch" (name K);
                                         EvRun (name K) (Some err)])
                          = marked l).
  { induction l as [|e l IH]; simpl; [reflexivity|].
    destruct e as [? | ? ? | ? ? | ? [?|]]; simpl; now rewrite IH. }
  split; [apply Hex|]. split; [apply Hmk|].
  intros n Hn. rewrite Ht. apply in_or_app. now right.
Qed.

Lemma patchesApply_fail_fast_witness :
  let d2 := fst (patchesApply [P1] patchPostDaemonStorage fresh) in
  patchesApply [P1] patchPostDaemonStorage fresh = (d2, None) /\
  stage P2 <> patchNoStageSet /\
  ValueInSlice (name P2) (patches_table (db_Node fresh)) = false /\
  run P2 (name P2) (world d2) = (2, Some (errorString "not yet")) /\
  executed (calls (patchesApply [P1; P2; P3] patchPostDaemonStorage) fresh)
  = ["P1"; "P2"] /\
  marked (calls (patchesApply [P1; P2; P3] patchPostDaemonStorage) fresh)
  = ["P1"] /\
  patches_table (db_Node (fst (patchesApply [P1; P2; P3] patchPostDaemonStorage fresh)))
  = ["P1"].
Proof.
  intros d2.
  assert (H1 : patchesApply [P1] patchPostDaemonStorage fresh = (d2, None))
    by reflexivity.
  assert (H2 : stage P2 <> patchNoStageSet) by discriminate.
  assert (H3 : ValueInSlice (name P2) (patches_table (db_Node fresh)) = false)
    by reflexivity.
  assert (H4 : run P2 (name P2) (world d2) = (2, Some (errorString "not yet")))
    by reflexivity.
  repeat (split; [assumption|]).
  pose proof (patchesApply_fail_fast [P1] [P3] P2 patchPostDaemonStorage fresh
                d2 2 (errorString "not yet") H1 H2 H3 H4)
    as (Hrun & _ & Hex & Hmk & _).
  simpl in Hex, Hmk. split; [exact Hex|]. split; [exact Hmk|].
  simpl in Hrun. rewrite Hrun. reflexivity.
Defined.

(** The restart scenario: on [P1; P2; P3] the first run applies [P1],
    fails in [P2] and leaves [P3] alone; the run after it passes over
    [P1] and applies [P2] and [P3]. *)
Example restart_after_failure :
  let first := patchesApply [P1; P2; P3] patchPostDaemonStorage fresh in
  let second := patchesApply [P1; P2; P3] patchPostDaemonStorage (fst first) in
  executed (calls (patchesApply [P1; P2; P3] patchPostDaemonStorage) fresh)
  = ["P1"; "P2"] /\
  patches_table (db_Node (fst first)) = ["P1"] /\
  executed (calls (patchesApply [P1; P2; P3] patchPostDaemonStorage) (fst first))
  = ["P2"; "P3"] /\
  snd second = None /\
  patches_table (db_Node (fst second)) = ["P1"; "P2"; "P3"].
Proof. repeat split. Qed.

(** ** Idempotency *)

(** C5.  After a call of [patchesApply] that returned success the table
    holds the name of every patch of the registry, and a second call for
    the same stage, made on the state the first one left, executes no
    body: it makes one call, the read of the applied set, leaves the
    world and the table as they are, and returns what the read
    returned. *)
Theorem patchesApply_idempotent
    {World} (ps : list (patch World)) (st : patchStage) (d d1 : Daemon World) :
  patchesApply ps st d = (d1, None) ->
  executed (calls (patchesApply ps st) d1) = []
  /\ Forall (fun p => In (name p) (patches_table (db_Node d1))) ps
  /\ (exists r, calls (patchesApply ps st) d1 = [EvGetAppliedPatches r] /\
                snd (patchesApply ps st d1) = r)
  /\ world (fst (patchesApply ps st d1)) = world d1
  /\ patches_table (db_Node (fst (patchesApply ps st d1)))
     = patches_table (db_Node d1).
Proof.
  intros H1.
  assert (Hall : Forall (fun p => stage p <> patchNoStageSet /\
                                  In (name p) (patches_table (db_Node d1))) ps).
  { destruct (patchesApply_history _ _ _ _ _ H1) as (r & tr & _ & _ & Ht & _ & _).
    destruct (GetAppliedPatches (db_Node d)) as [n' [l [err|]]] eqn:Hget.
    - rewrite (patchesApply_read_failed _ _ _ _ _ _ Hget) in H1. discriminate.
    - destruct (patchesApply_read_ok ps st _ _ _ Hget) as [_ Heq].
      rewrite Heq in H1. apply range_success in H1.
      eapply Forall_impl; [|exact H1]. simpl.
      intros p [Hs [Hin|Hin]]; (split; [assumption|]); [|assumption].
      rewrite Ht. apply in_or_app. now left. }
  assert (Hsecond : exists r n',
    patchesApply ps st d1 = (after_read d1 n' r, r) /\
    patches_table n' = patches_table (db_Node d1)).
  { destruct (GetAppliedPatches (db_Node d1)) as [n' [l [err|]]] eqn:Hget.
    - exists (Some err), n'.
      split; [eapply patchesApply_read_failed; eassumption|].
      now destruct (GetAppliedPatches_table _ _ _ Hget).
    - destruct (patchesApply_read_ok ps st _ _ _ Hget) as [Ht Heq].
      exists None, n'. split; [|assumption].
      rewrite Heq. now apply range_all_applied. }
  destruct Hsecond as (r & n' & Hrun & Ht).
  assert (Hc : calls (patchesApply ps st) d1 = [EvGetAppliedPatches r]).
  { apply calls_of_history. rewrite Hrun. reflexivity. }
  rewrite Hc, Hrun. simpl. split; [reflexivity|].
  split; [eapply Forall_impl; [|exact Hall]; simpl; now intros p [_ Hp]|].
  split; [exists r; now split|]. split; [reflexivity | exact Ht].
Qed.

Lemma patchesApply_idempotent_witness :
  let d1 := fst (patchesApply [P1; P3] patchPostDaemonStorage fresh) in
  patchesApply [P1; P3] patchPostDaemonStorage fresh = (d1, None) /\
  executed (calls (patchesApply [P1; P3] patchPostDaemonStorage) fresh)
  = ["P1"; "P3"] /\
  executed (calls (patchesApply [P1; P3] patchPostDaemonStorage) d1) = [].
Proof.
  intros d1.
  assert (H1 : patchesApply [P1; P3] patchPostDaemonStorage fresh = (d1, None))
    by reflexivity.
  split; [exact H1|]. split; [reflexivity|].
  exact (proj1 (patchesApply_idempotent [P1; P3] patchPostDaemonStorage fresh d1 H1)).
Defined.

(** ** Errors of a patch *)

(** The two messages of [patch.apply] differ whatever the name and the
    wrapped errors. *)
Lemma msgFailedMarking_not_msgFailedApplying n n' err cause :
  msgFailedMarking n err <> msgFailedApplying n' cause.
Proof.
  unfold msgFailedMarking, msgFailedApplying. simpl. intros H.
  repeat (injection H as _ H). discriminate.
Qed.

(** C6.  When the patches before [K] went through, [K] is pending, its
    body returns success and the mark-applied write for its name fails
    with [err], [patchesApply] returns an error that wraps [err] with
    the message "Failed marking patch applied", no patch after [K] is
    executed, and the message differs from the message of a failure of
    the body of a patch of the same name, whatever the error of the
    body. *)
Theorem patchesApply_mark_failure_reported
    {World} (pre post : list (patch World)) (K : patch World)
    (st : patchStage) (d d2 : Daemon World) (w' : World) (n' : Node)
    (err : error) :
  patchesApply pre st d = (d2, None) ->
  stage K <> patchNoStageSet ->
  ValueInSlice (name K) (patches_table (db_Node d)) = false ->
  run K (name K) (world d2) = (w', None) ->
  MarkPatchAsApplied (name K) (db_Node d2) = (n', Some err) ->
  let reported := wrapError (msgFailedMarking (name K) err) err in
  patchesApply (pre ++ K :: post) st d
  = (mkDaemon n' w'
       (history d2 ++ [EvLogInfo "Applying patch" (name K);
                       EvRun (name K) None;
                       EvMarkPatchAsApplied (name K) (Some err)]),
     Some reported)
  /\ Unwrap reported = Some err
  /\ Error reported
     = ("Failed marking patch applied " ++ fmt.q (name K) ++ ": " ++ Error err)%string
  /\ (forall cause,
        Error reported
        <> Error (wrapError (msgFailedApplying (name K) cause) cause))
  /\ (forall cause,
        reported <> wrapError (msgFailedApplying (name K) cause) cause).
Proof.
  intros Hpre Hs Hin Hrun Hmark reported.
  split.
  - rewrite (patchesApply_reaches _ _ _ _ _ _ Hpre Hs Hin).
    destruct (apply_cases K d2)
      as [(w1 & e1 & Hr & _) | [(w1 & n1 & e1 & Hr & Hm & Ha) | (w1 & n1 & Hr & Hm & _)]].
    + rewrite Hrun in Hr. discriminate.
    + rewrite Hrun in Hr. rewrite Hmark in Hm.
      inversion Hr; inversion Hm; subst. rewrite Ha. reflexivity.
    + rewrite Hmark in Hm. discriminate.
  - split; [reflexivity|]. split; [reflexivity|]. split.
    + intros cause. simpl. apply msgFailedMarking_not_msgFailedApplying.
    + intros cause H. apply (f_equal Error) in H.
      revert H. apply msgFailedMarking_not_msgFailedApplying.
Qed.

Lemma patchesApply_mark_failure_reported_witness :
  let d2 := fst (patchesApply [] patchPostDaemonStorage write_fails) in
  patchesApply [] patchPostDaemonStorage write_fails = (d2, None) /\
  stage P1 <> patchNoStageSet /\
  ValueInSlice (name P1) (patches_table (db_Node write_fails)) = false /\
  run P1 (name P1) (world d2) = (1, None) /\
  MarkPatchAsApplied (name P1) (db_Node d2)
  = (mkNode [] [], Some (errorString "disk full")) /\
  snd (patchesApply [P1; P3] patchPostDaemonStorage write_fails)
  = Some (wrapError
            ("Failed marking patch applied " ++ fmt.q "P1" ++ ": disk full")%string
            (errorString "disk full")) /\
  executed (calls (patchesApply [P1; P3] patchPostDaemonStorage) write_fails)
  = ["P1"].
Proof.
  intros d2.
  assert (H1 : patchesApply [] patchPostDaemonStorage write_fails = (d2, None))
    by reflexivity.
  assert (H2 : stage P1 <> patchNoStageSet) by discriminate.
  assert (H3 : ValueInSlice (name P1) (patches_table (db_Node write_fails)) = false)
    by reflexivity.
  assert (H4 : run P1 (name P1) (world d2) = (1, None)) by reflexivity.
  assert (H5 : MarkPatchAsApplied (name P1) (db_Node d2)
               = (mkNode [] [], Some (errorString "disk full"))) by reflexivity.
  repeat (split; [assumption|]).
  pose proof (patchesApply_mark_failure_reported [] [P3] P1
                patchPostDaemonStorage write_fails d2
                1 (mkNode [] []) (errorString "disk full") H1 H2 H3 H4 H5)
    as (Hrun & _).
  simpl in Hrun. split; [rewrite Hrun; reflexivity | reflexivity].
Defined.

(** C7, as stated, fails: the error of a body failure carries the name
    of the patch and the error of the body but not the stage; two
    patches that differ in their stage only are reported by the same
    error, whose message is [Failed applying patch "rename_keys": boom]. *)
Lemma body_failure_error_without_stage :
  stage early <> stage late /\
  snd (patchesApply [early] (stage early) fresh)
  = snd (patchesApply [late] (stage late) fresh) /\
  snd (patchesApply [late] (stage late) fresh)
  = Some (wrapError
            ("Failed applying patch " ++ fmt.q "rename_keys" ++ ": boom")%string
            (errorString "boom")).
Proof.
  split; [discriminate|]. split; reflexivity.
Qed.

(** C7, amended.  When the patches before [K] went through, [K] is
    pending and its body returns the error [cause], the error that
    [patchesApply] returns wraps [cause] itself (it is what [Unwrap]
    gives back) under a message made of the name of the patch and of the
    message of [cause]; the stage of the patch is no part of it. *)
Theorem patchesApply_body_failure_wrapped
    {World} (pre post : list (patch World)) (K : patch World)
    (st : patchStage) (d d2 : Daemon World) (w' : World) (cause : error) :
  patchesApply pre st d = (d2, None) ->
  stage K <> patchNoStageSet ->
  ValueInSlice (name K) (patches_table (db_Node d)) = false ->
  run K (name K) (world d2) = (w', Some cause) ->
  exists reported,
    snd (patchesApply (pre ++ K :: post) st d) = Some reported
    /\ Unwrap reported = Some cause
    /\ Error reported
       = ("Failed applying patch " ++ fmt.q (name K) ++ ": " ++ Error cause)%string.
Proof.
  intros Hpre Hs Hin Hrun.
  exists (wrapError (msgFailedApplying (name K) cause) cause).
  split; [|split; reflexivity].
  rewrite (patchesApply_reaches _ _ _ _ _ _ Hpre Hs Hin).
  destruct (apply_cases K d2)
    as [(w1 & e1 & Hr & Ha) | [(w1 & n1 & e1 & Hr & _) | (w1 & n1 & Hr & _)]];
    rewrite Hrun in Hr; inversion Hr; subst.
  rewrite Ha. reflexivity.
Qed.

Lemma patchesApply_body_failure_wrapped_witness :
  let d2 := fst (patchesApply [P1] patchPostDaemonStorage fresh) in
  patchesApply [P1] patchPostDaemonStorage fresh = (d2, None) /\
  stage P2 <> patchNoStageSet /\
  ValueInSlice (name P2) (patches_table (db_Node fresh)) = false /\
  run P2 (name P2) (world d2) = (2, Some (errorString "not yet")) /\
  exists reported,
    snd (patchesApply [P1; P2; P3] patchPostDaemonStorage fresh) = Some reported
    /\ Unwrap reported = Some (errorString "not yet")
    /\ Error reported
       = ("Failed applying patch " ++ fmt.q "P2" ++ ": not yet")%string.
Proof.
  intros d2.
  assert (H1 : patchesApply [P1] patchPostDaemonStorage fresh = (d2, None))
    by reflexivity.
  assert (H2 : stage P2 <> patchNoStageSet) by discriminate.
  assert (H3 : ValueInSlice (name P2) (patches_table (db_Node fresh)) = false)
    by reflexivity.
  assert (H4 : run P2 (name P2) (world d2) = (2, Some (errorString "not yet")))
    by reflexivity.
  repeat (split; [assumption|]).
  exact (patchesApply_body_failure_wrapped [P1] [P3] P2 patchPostDaemonStorage
           fresh d2 2 (errorString "not yet") H1 H2 H3 H4).
Defined.

(** ** A patch without a stage *)

(** C2, as stated, fails on the registry [P1; broken; P3], in which
    [broken] has no stage: the run does return the configuration error
    that names [broken], but the body of [P1], which precedes it, has
    been executed and [P1] has been marked applied.  On
    [doomed; broken] the error returned is the one of the body of
    [doomed], not a configuration error. *)
Lemma unset_stage_found_after_earlier_bodies :
  In broken [P1; broken; P3] /\
  stage broken = patchNoStageSet /\
  snd (patchesApply [P1; broken; P3] patchPostDaemonStorage fresh)
  = Some (errorString ("Patch " ++ fmt.q "broken" ++ " has no stage set: 0")%string) /\
  executed (calls (patchesApply [P1; broken; P3] patchPostDaemonStorage) fresh)
  = ["P1"] /\
  patches_table (db_Node (fst (patchesApply [P1; broken; P3] patchPostDaemonStorage fresh)))
  = ["P1"] /\
  snd (patchesApply [doomed; broken] patchPostDaemonStorage fresh)
  = Some (wrapError ("Failed applying patch " ++ fmt.q "doomed" ++ ": boom")%string
            (errorString "boom")).
Proof.
  split; [right; now left|]. repeat split.
Qed.

(** C2, amended.  When the patch [K] of the registry [pre ++ K :: post]
    has no stage, a run of [patchesApply] does what a run on [pre] alone
    does and stops: it leaves the same state and makes the same calls,
    so that no body of [K] or of a patch after [K] is executed, while
    the pending patches before [K] are applied; when the run on [pre]
    raises no error, the error returned is the configuration error that
    names [K], otherwise it is the error of the run on [pre]. *)
Theorem patchesApply_unset_stage
    {World} (pre post : list (patch World)) (K : patch World)
    (st : patchStage) (d : Daemon World) :
  stage K = patchNoStageSet ->
  fst (patchesApply (pre ++ K :: post) st d) = fst (patchesApply pre st d)
  /\ calls (patchesApply (pre ++ K :: post) st) d = calls (patchesApply pre st) d
  /\ snd (patchesApply (pre ++ K :: post) st d)
     = match snd (patchesApply pre st d) with
       | Some err => Some err
       | None =>
           Some (errorString
                   ("Patch " ++ fmt.q (name K) ++ " has no stage set: 0")%string)
       end.
Proof.
  intros Hs.
  assert (H : patchesApply (pre ++ K :: post) st d
              = (fst (patchesApply pre st d),
                 match snd (patchesApply pre st d) with
                 | Some err => Some err
                 | None => Some (errorString (msgNoStage (name K)))
                 end)).
  { rewrite patchesApply_app.
    destruct (patchesApply pre st d) as [d2 [err|]]; simpl; [reflexivity|].
    now apply range_no_stage. }
  unfold calls. rewrite H. simpl. repeat split.
Qed.

Lemma patchesApply_unset_stage_witness :
  stage broken = patchNoStageSet /\
  calls (patchesApply [P1; broken; P3] patchPostDaemonStorage) fresh
  = calls (patchesApply [P1] patchPostDaemonStorage) fresh /\
  executed (calls (patchesApply [P1] patchPostDaemonStorage) fresh) = ["P1"] /\
  snd (patchesApply [P1; broken; P3] patchPostDaemonStorage fresh)
  = Some (errorString ("Patch " ++ fmt.q "broken" ++ " has no stage set: 0")%string).
Proof.
  assert (H1 : stage broken = patchNoStageSet) by reflexivity.
  split; [exact H1|].
  pose proof (patchesApply_unset_stage [P1] [P3] broken patchPostDaemonStorage
                fresh H1) as (_ & Hc & Hr).
  split; [exact Hc|]. split; [reflexivity | exact Hr].
Defined.

(** ** Two patches of one name *)

(** C9, as stated, fails on the registry [twin_a; twin_b], two patches
    of the same name: the run reports no error, and the second patch is
    applied like the first one, its name being written a second time. *)
Lemma duplicate_name_not_reported :
  ~ NoDup (map name [twin_a; twin_b]) /\
  snd (patchesApply [twin_a; twin_b] patchPostDaemonStorage fresh) = None /\
  executed (calls (patchesApply [twin_a; twin_b] patchPostDaemonStorage) fresh)
  = ["twin"; "twin"] /\
  patches_table (db_Node (fst (patchesApply [twin_a; twin_b] patchPostDaemonStorage fresh)))
  = ["twin"; "twin"].
Proof.
  split; [|repeat split].
  intros H. inversion H as [|? ? Hnotin _]; subst. apply Hnotin. now left.
Qed.

Lemma next_fault_reliable n :
  reliable n -> exists n',
    next_fault n = (None, n') /\ patches_table n' = patches_table n /\ reliable n'.
Proof.
  unfold reliable, next_fault. destruct n as [t [|f fs]]; simpl; intros H.
  - eexists. repeat split. constructor.
  - inversion H; subst. eexists. repeat split. assumption.
Qed.

Lemma range_all_succeed {World} (ps : list (patch World)) applied d :
  Forall (fun p => stage p <> patchNoStageSet) ps ->
  (forall p, In p ps -> forall w, snd (run p (name p) w) = None) ->
  reliable (db_Node d) ->
  exists d', patchesApply_range ps applied d = (d', None) /\ reliable (db_Node d').
Proof.
  intros Hst. revert d. induction Hst as [|p rest Hs _ IH]; intros d Hok Hrel.
  - exists d. now split.
  - assert (Hok' : forall q, In q rest -> forall w, snd (run q (name q) w) = None)
      by (intros q Hq; apply Hok; now right).
    destruct (ValueInSlice (name p) applied) eqn:Hin.
    + rewrite range_skip by assumption. now apply IH.
    + rewrite range_pending by assumption.
      destruct (next_fault_reliable _ Hrel) as (n1 & Hnf & _ & Hrel1).
      destruct (apply_cases p d)
        as [(w' & err & Hr & _) | [(w' & n' & err & _ & Hm & _) | (w' & n' & _ & Hm & Ha)]].
      * specialize (Hok p (or_introl eq_refl) (world d)).
        rewrite Hr in Hok. discriminate.
      * unfold MarkPatchAsApplied in Hm. rewrite Hnf in Hm. discriminate.
      * rewrite Ha. apply IH; [assumption|]. simpl.
        unfold MarkPatchAsApplied in Hm. rewrite Hnf in Hm.
        inversion Hm; subst. exact Hrel1.
Qed.

(** C9, amended.  The engine has no check for names that occur twice:
    on a registry with two patches of the same name, in which every
    patch has a stage, a run in which the database fails no operation
    and every body returns success reports no error. *)
Theorem patchesApply_no_duplicate_check
    {World} (ps : list (patch World)) (st : patchStage) (d : Daemon World) :
  ~ NoDup (map name ps) ->
  Forall (fun p => stage p <> patchNoStageSet) ps ->
  (forall p, In p ps -> forall w, snd (run p (name p) w) = None) ->
  reliable (db_Node d) ->
  snd (patchesApply ps st d) = None.
Proof.
  intros _ Hst Hok Hrel.
  destruct (next_fault_reliable _ Hrel) as (n1 & Hnf & Ht & Hrel1).
  assert (Hget : GetAppliedPatches (db_Node d) = (n1, (patches_table n1, None))).
  { unfold GetAppliedPatches. rewrite Hnf. reflexivity. }
  destruct (patchesApply_read_ok ps st _ _ _ Hget) as [_ ->].
  destruct (range_all_succeed ps (patches_table (db_Node d))
              (after_read d n1 None) Hst Hok Hrel1) as (d' & -> & _).
  reflexivity.
Qed.

Lemma patchesApply_no_duplicate_check_witness :
  ~ NoDup (map name [twin_a; twin_b]) /\
  Forall (fun p => stage p <> patchNoStageSet) [twin_a; twin_b] /\
  (forall p, In p [twin_a; twin_b] -> forall w, snd (run p (name p) w) = None) /\
  reliable (db_Node fresh) /\
  snd (patchesApply [twin_a; twin_b] patchPostDaemonStorage fresh) = None.
Proof.
  assert (H1 : ~ NoDup (map name [twin_a; twin_b])).
  { intros H. inversion H as [|? ? Hnotin _]; subst. apply Hnotin. now left. }
  assert (H2 : Forall (fun p : patch nat => stage p <> patchNoStageSet)
                 [twin_a; twin_b]).
  { repeat constructor; discriminate. }
  assert (H3 : forall p, In p [twin_a; twin_b] ->
                         forall w, snd (run p (name p) w) = None).
  { intros p [<-|[<-|[]]] w; reflexivity. }
  assert (H4 : reliable (db_Node fresh)) by constructor.
  repeat (split; [assumption|]).
  exact (patchesApply_no_duplicate_check [twin_a; twin_b] patchPostDaemonStorage
           fresh H1 H2 H3 H4).
Defined.

(** ** The stage asked for *)

(** C1 does not hold of the code.  On the registry [Q1; Q2], with [Q1]
    tagged [patchPreDaemonStorage] and [Q2] tagged [patchPostNetworks],
    a run asked for [patchPreDaemonStorage] executes the body of [Q2]
    too and marks it applied, and a run asked for [patchPostNetworks]
    executes the body of [Q1] too: the loop never compares the stage of
    a patch with the stage asked for.  On the registry of the daemon
    itself, with nothing applied yet, a run asked for
    [patchPreDaemonStorage] executes all the patches, the first of which
    is tagged [patchPostDaemonStorage]. *)
Theorem patchesApply_runs_patches_of_other_stages :
  stage Q2 <> patchPreDaemonStorage /\
  executed (calls (patchesApply [Q1; Q2] patchPreDaemonStorage) fresh)
  = ["Q1"; "Q2"] /\
  patches_table (db_Node (fst (patchesApply [Q1; Q2] patchPreDaemonStorage fresh)))
  = ["Q1"; "Q2"] /\
  snd (patchesApply [Q1; Q2] patchPreDaemonStorage fresh) = None /\
  stage Q1 <> patchPostNetworks /\
  executed (calls (patchesApply [Q1; Q2] patchPostNetworks) fresh)
  = ["Q1"; "Q2"] /\
  executed (calls (patchesApply patches_that_succeed patchPreDaemonStorage) fresh)
  = map name patches_that_succeed /\
  hd_error (map stage patches_that_succeed) = Some patchPostDaemonStorage.
Proof.
  split; [discriminate|]. repeat split. discriminate.
Qed.

(** ** The names of the patches *)

Lemma set_index_app (done rest : list string) x v :
  set_index (done ++ x :: rest) (List.length done) v = done ++ v :: rest.
Proof.
  induction done as [|y done IH]; simpl; [reflexivity|]. now rewrite IH.
Qed.

Lemma patchesGetNames_range_slots {World} (ps : list (patch World)) done :
  patchesGetNames_range (List.length done) ps
    (done ++ repeat EmptyString (List.length ps))
  = done ++ map slot ps.
Proof.
  revert done. induction ps as [|p rest IH]; intros done; [reflexivity|].
  simpl. unfold slot at 1.
  destruct (stage p =? patchNoStageSet)%Z.
  - specialize (IH (done ++ [EmptyString])).
    rewrite length_app, Nat.add_1_r, <- !app_assoc in IH. exact IH.
  - rewrite set_index_app.
    specialize (IH (done ++ [name p])).
    rewrite length_app, Nat.add_1_r, <- !app_assoc in IH. exact IH.
Qed.

(** The result has one element for each patch of the registry: its name,
    or the empty string when its stage is unset. *)
Lemma patchesGetNames_slots {World} (ps : list (patch World)) :
  patchesGetNames ps = map slot ps.
Proof.
  exact (patchesGetNames_range_slots ps []).
Qed.

(** C8 does not hold of the code.  On the registry [P1; broken; P3],
    whose second patch has no stage, [patchesGetNames] returns three
    elements, the second one the empty string, where the registry has
    two patches with a stage. *)
Theorem patchesGetNames_keeps_place_of_unset_stage :
  patchesGetNames [P1; broken; P3] = ["P1"; EmptyString; "P3"] /\
  List.length (patchesGetNames [P1; broken; P3]) = 3 /\
  List.length (filter (fun p => negb (stage p =? patchNoStageSet)%Z)
                 [P1; broken; P3]) = 2.
Proof.
  repeat split.
Qed.




(** ** The registry of the daemon *)

Lemma distinct_NoDup l : distinct l = true -> NoDup l.
Proof.
  induction l as [|x rest IH]; simpl; intros H; [constructor|].
  apply andb_true_iff in H as [Hx Hrest]. constructor; [|now apply IH].
  intros Hin. apply negb_true_iff in Hx.
  assert (Ht : existsb (String.eqb x) rest = true).
  { apply existsb_exists. exists x. split; [assumption | apply String.eqb_refl]. }
  congruence.
Qed.

(** A run on a registry without unset stage fails by the read of the
    applied set, by a body or by a mark-applied write, and the failing
    call is the last one of the run. *)
Lemma patchesApply_failure {World} (ps : list (patch World)) st d d' e :
  Forall (fun p => stage p <> patchNoStageSet) ps ->
  patchesApply ps st d = (d', Some e) ->
  calls (patchesApply ps st) d = [EvGetAppliedPatches (Some e)]
  \/ (exists tr n cause,
         In n (map name ps) /\
         calls (patchesApply ps st) d
         = EvGetAppliedPatches None :: tr ++ [EvRun n (Some cause)] /\
         e = wrapError (msgFailedApplying n cause) cause)
  \/ (exists tr n cause,
         In n (map name ps) /\
         calls (patchesApply ps st) d
         = EvGetAppliedPatches None :: tr ++ [EvMarkPatchAsApplied n (Some cause)] /\
         e = wrapError (msgFailedMarking n cause) cause).
Proof.
  intros Hst H.
  destruct (GetAppliedPatches (db_Node d)) as [n' [l [err|]]] eqn:Hget.
  - left. rewrite (patchesApply_read_failed _ _ _ _ _ _ Hget) in H.
    inversion H; subst. apply calls_of_history.
    rewrite (patchesApply_read_failed _ _ _ _ _ _ Hget). reflexivity.
  - destruct (patchesApply_read_ok ps st _ _ _ Hget) as [_ Heq].
    assert (Hr := H). rewrite Heq in Hr.
    destruct (range_failure _ _ _ _ _ Hr)
      as [(p & Hin & Hs & _)
         | [(tr & n & cause & Hin & Hh & He) | (tr & n & cause & Hin & Hh & He)]].
    + exfalso. rewrite Forall_forall in Hst. exact (Hst p Hin Hs).
    + right; left. exists tr, n, cause. split; [assumption|].
      split; [|assumption]. apply calls_of_history. rewrite H. simpl.
      rewrite Hh. simpl. rewrite <- app_assoc. reflexivity.
    + right; right. exists tr, n, cause. split; [assumption|].
      split; [|assumption]. apply calls_of_history. rewrite H. simpl.
      rewrite Hh. simpl. rewrite <- app_assoc. reflexivity.
Qed.

Section RegistryFacts.

Context {World : Type}.
Variable storagePools_Patch : string -> World -> World * option error.
Variable network_PatchPreCheck : World -> World * option error.
Variables b1 b2 b3 b4 b5 b6 b7 b8 b9 b10 b11 b12 b13 b14 b15 b16 b17 b18 b19 b20
  : body World.

Local Abbreviation registry :=
  (patches storagePools_Patch network_PatchPreCheck
     b1 b2 b3 b4 b5 b6 b7 b8 b9 b10 b11 b12 b13 b14 b15 b16 b17 b18 b19 b20).

(** The names of the registry are pairwise different. *)
Lemma patches_names_NoDup : NoDup (map name registry).
Proof. apply distinct_NoDup. reflexivity. Qed.

(** C10.  Whatever the bodies, every patch of the registry of the daemon
    is tagged [patchPreDaemonStorage] or [patchPostDaemonStorage], none
    has the unset stage, and a run of [patchesApply] on this registry
    that returns an error returns the error of the read of the applied
    set, or the wrapped error of a patch body, or the wrapped error of a
    mark-applied write, the failing call being the last one of the run;
    the check of the stage never fails. *)
Theorem patches_all_have_a_stage :
  Forall (fun p => stage p = patchPreDaemonStorage \/
                   stage p = patchPostDaemonStorage) registry
  /\ Forall (fun p => stage p <> patchNoStageSet) registry
  /\ forall st d d' e,
       patchesApply registry st d = (d', Some e) ->
       calls (patchesApply registry st) d = [EvGetAppliedPatches (Some e)]
       \/ (exists tr n cause,
              In n (map name registry) /\
              calls (patchesApply registry st) d
              = EvGetAppliedPatches None :: tr ++ [EvRun n (Some cause)] /\
              e = wrapError (msgFailedApplying n cause) cause)
       \/ (exists tr n cause,
              In n (map name registry) /\
              calls (patchesApply registry st) d
              = EvGetAppliedPatches None :: tr
                  ++ [EvMarkPatchAsApplied n (Some cause)] /\
              e = wrapError (msgFailedMarking n cause) cause).
Proof.
  assert (Hst : Forall (fun p => stage p = patchPreDaemonStorage \/
                                 stage p = patchPostDaemonStorage) registry).
  { unfold patches.
    repeat (constructor; [simpl; (now left) || (now right)|]). constructor. }
  assert (Hset : Forall (fun p : patch World => stage p <> patchNoStageSet) registry).
  { eapply Forall_impl; [|exact Hst]. simpl.
    intros p [-> | ->]; discriminate. }
  split; [exact Hst|]. split; [exact Hset|].
  intros st d d' e H. eapply patchesApply_failure; eassumption.
Qed.

End RegistryFacts.

Lemma patches_all_have_a_stage_witness :
  let d' := fst (patchesApply patches_that_succeed patchPostDaemonStorage
                   database_locked) in
  patchesApply patches_that_succeed patchPostDaemonStorage database_locked
  = (d', Some (errorString "database is locked")) /\
  calls (patchesApply patches_that_succeed patchPostDaemonStorage) database_locked
  = [EvGetAppliedPatches (Some (errorString "database is locked"))].
Proof.
  intros d'.
  assert (H1 : patchesApply patches_that_succeed patchPostDaemonStorage
                 database_locked
               = (d', Some (errorString "database is locked"))) by reflexivity.
  split; [exact H1|].
  destruct (proj2 (proj2 (patches_all_have_a_stage
              (fun _ w => (S w, None)) (fun w => (w, None))
              succeeds succeeds succeeds succeeds succeeds succeeds succeeds
              succeeds succeeds succeeds succeeds succeeds succeeds succeeds
              succeeds succeeds succeeds succeeds succeeds succeeds))
              patchPostDaemonStorage database_locked d'
              (errorString "database is locked") H1)
    as [H | [(tr & n & cause & _ & _ & He) | (tr & n & cause & _ & _ & He)]].
  - exact H.
  - discriminate He.
  - discriminate He.
Defined.


(** * Further properties of the engine *)

(** ** The names of the patches *)

(** [patchesGetNames] returns one element for each patch of the
    registry, whatever the stages: the name of the patch, or the empty
    string when its stage is unset. *)
Theorem patchesGetNames_one_element_per_patch
    {World} (ps : list (patch World)) :
  List.length (patchesGetNames ps) = List.length ps /\
  forall i p, nth_error ps i = Some p ->
    nth_error (patchesGetNames ps) i
    = Some (if (stage p =? patchNoStageSet)%Z then EmptyString else name p).
Proof.
  rewrite patchesGetNames_slots. split; [apply length_map|].
  intros i p H. rewrite nth_error_map, H. reflexivity.
Qed.

(** On a registry in which every patch has a stage, [patchesGetNames]
    returns the names of the patches in registry order. *)
Theorem patchesGetNames_all_names
    {World} (ps : list (patch World)) :
  Forall (fun p => stage p <> patchNoStageSet) ps ->
  patchesGetNames ps = map name ps.
Proof.
  intros H. rewrite patchesGetNames_slots. apply map_ext_in.
  intros p Hin. rewrite Forall_forall in H. unfold slot.
  destruct (Z.eqb_spec (stage p) patchNoStageSet) as [E|_]; [|reflexivity].
  now destruct (H p Hin).
Qed.

Lemma patchesGetNames_all_names_witness :
  Forall (fun p : patch nat => stage p <> patchNoStageSet) [P1; P2; P3] /\
  patchesGetNames [P1; P2; P3] = ["P1"; "P2"; "P3"].
Proof.
  assert (H : Forall (fun p : patch nat => stage p <> patchNoStageSet) [P1; P2; P3])
    by (repeat constructor; discriminate).
  split; [exact H|].
  exact (patchesGetNames_all_names [P1; P2; P3] H).
Defined.

(** ** The read of the applied set *)

(** When the read of the applied set fails, [patchesApply] returns the
    error of the read as it is, without a wrapper; the read is the only
    call of the run, and the world and the table are left as they
    were. *)
Theorem patchesApply_read_error_returned
    {World} (ps : list (patch World)) (st : patchStage) (d : Daemon World)
    (n' : Node) (l : list string) (err : error) :
  GetAppliedPatches (db_Node d) = (n', (l, Some err)) ->
  snd (patchesApply ps st d) = Some err
  /\ calls (patchesApply ps st) d = [EvGetAppliedPatches (Some err)]
  /\ world (fst (patchesApply ps st d)) = world d
  /\ patches_table (db_Node (fst (patchesApply ps st d)))
     = patches_table (db_Node d).
Proof.
  intros H. pose proof (patchesApply_read_failed ps st d n' l err H) as Hrun.
  assert (Hc : calls (patchesApply ps st) d = [EvGetAppliedPatches (Some err)]).
  { apply calls_of_history. rewrite Hrun. reflexivity. }
  rewrite Hc, Hrun. simpl. repeat split.
  now destruct (GetAppliedPatches_table _ _ _ H).
Qed.

Lemma patchesApply_read_error_returned_witness :
  GetAppliedPatches (db_Node database_locked)
  = (mkNode [] [], ([], Some (errorString "database is locked"))) /\
  snd (patchesApply [P1; P2; P3] patchPostDaemonStorage database_locked)
  = Some (errorString "database is locked") /\
  calls (patchesApply [P1; P2; P3] patchPostDaemonStorage) database_locked
  = [EvGetAppliedPatches (Some (errorString "database is locked"))].
Proof.
  assert (H : GetAppliedPatches (db_Node database_locked)
              = (mkNode [] [], ([], Some (errorString "database is locked"))))
    by reflexivity.
  split; [exact H|].
  pose proof (patchesApply_read_error_returned [P1; P2; P3]
                patchPostDaemonStorage database_locked _ _ _ H)
    as (Hr & Hc & _).
  split; [exact Hr | exact Hc].
Defined.

(** ** What a run executes *)

Lemma pending_cons_applied {World} (p : patch World) rest applied :
  ValueInSlice (name p) applied = true ->
  pending applied (p :: rest) = pending applied rest.
Proof. intros H. unfold pending. simpl. now rewrite H. Qed.

Lemma pending_cons_pending {World} (p : patch World) rest applied :
  ValueInSlice (name p) applied = false ->
  pending applied (p :: rest) = p :: pending applied rest.
Proof. intros H. unfold pending. simpl. now rewrite H. Qed.

(** The loop enters the bodies of the pending patches in registry order
    and stops at the first failure; when it comes to its end it has
    entered and marked them all, and the world is the one their bodies
    leave when run one after the other. *)
Lemma range_executes_pending {World} (ps : list (patch World)) applied d d' res :
  patchesApply_range ps applied d = (d', res) ->
  exists tr,
    history d' = history d ++ tr /\
    (exists k, executed tr = firstn k (map name (pending applied ps))) /\
    (res = None ->
     executed tr = map name (pending applied ps) /\
     marked tr = map name (pending applied ps) /\
     world d' = run_bodies (pending applied ps) (world d)).
Proof.
  revert d. induction ps as [|p rest IH]; intros d H.
  - inversion H; subst. exists []. rewrite app_nil_r.
    split; [reflexivity|]. split; [exists 0; reflexivity|]. now intros _.
  - destruct (Z.eq_dec (stage p) patchNoStageSet) as [Hs|Hs].
    { rewrite range_no_stage in H by assumption. inversion H; subst.
      exists []. rewrite app_nil_r.
      split; [reflexivity|]. split; [exists 0; reflexivity | discriminate]. }
    destruct (ValueInSlice (name p) applied) eqn:Hin.
    { rewrite range_skip in H by assumption.
      rewrite pending_cons_applied by assumption. now apply IH. }
    rewrite range_pending in H by assumption.
    rewrite pending_cons_pending by assumption.
    destruct (apply_cases p d)
      as [(w' & err & Hr & Ha) | [(w' & n' & err & Hr & Hm & Ha) | (w' & n' & Hr & Hm & Ha)]];
      rewrite Ha in H.
    + inversion H; subst.
      exists [EvLogInfo "Applying patch" (name p); EvRun (name p) (Some err)].
      split; [reflexivity|]. split; [exists 1; reflexivity | discriminate].
    + inversion H; subst.
      exists [EvLogInfo "Applying patch" (name p); EvRun (name p) None;
              EvMarkPatchAsApplied (name p) (Some err)].
      split; [reflexivity|]. split; [exists 1; reflexivity | discriminate].
    + destruct (IH _ H) as (tr & Hh & [k Hk] & Hok). simpl in Hh.
      exists (EvLogInfo "Applying patch" (name p) :: EvRun (name p) None
                :: EvMarkPatchAsApplied (name p) None :: tr).
      split; [rewrite Hh, <- app_assoc; reflexivity|].
      split; [exists (S k); simpl; now rewrite Hk|].
      intros Hres. destruct (Hok Hres) as (He & Hmk & Hw). simpl in Hw.
      simpl. rewrite He, Hmk. repeat split.
      rewrite Hw. unfold run_bodies. simpl. now rewrite Hr.
Qed.

(** A patch whose name is in the table when the run starts is not
    executed by the run. *)
Theorem patchesApply_skips_applied
    {World} (ps : list (patch World)) (st : patchStage) (d : Daemon World) :
  forall n, In n (patches_table (db_Node d)) ->
            ~ In n (executed (calls (patchesApply ps st) d)).
Proof.
  intros n Hin Hex.
  destruct (patchesApply_calls ps st d) as (r & tr & Hc & _ & _ & He).
  rewrite Hc in Hex. simpl in Hex. exact (He n Hex Hin).
Qed.

Lemma patchesApply_skips_applied_witness :
  In "P1" (patches_table (db_Node P1_applied)) /\
  ~ In "P1" (executed (calls (patchesApply [P1; P3] patchPostDaemonStorage)
                         P1_applied)).
Proof.
  assert (H : In "P1" (patches_table (db_Node P1_applied))) by (now left).
  split; [exact H|].
  exact (patchesApply_skips_applied [P1; P3] patchPostDaemonStorage P1_applied
           "P1" H).
Defined.

(** The bodies that a run enters are those of the pending patches, the
    patches whose name is not in the table when the run starts, taken in
    registry order from the first one on, without a gap. *)
Theorem patchesApply_executes_pending_in_order
    {World} (ps : list (patch World)) (st : patchStage) (d : Daemon World) :
  exists k,
    executed (calls (patchesApply ps st) d)
    = firstn k (map name (pending (patches_table (db_Node d)) ps)).
Proof.
  destruct (patchesApply ps st d) as [d' res] eqn:H.
  destruct (GetAppliedPatches (db_Node d)) as [n' [l [err|]]] eqn:Hget.
  - assert (Hc : calls (patchesApply ps st) d = [EvGetAppliedPatches (Some err)]).
    { apply calls_of_history.
      rewrite (patchesApply_read_failed _ _ _ _ _ _ Hget). reflexivity. }
    rewrite Hc. exists 0. reflexivity.
  - destruct (patchesApply_read_ok ps st _ _ _ Hget) as [_ Heq].
    rewrite Heq in H.
    destruct (range_executes_pending _ _ _ _ _ H) as (tr & Hh & [k Hk] & _).
    exists k. rewrite <- Hk.
    assert (Hc : calls (patchesApply ps st) d = EvGetAppliedPatches None :: tr).
    { apply calls_of_history. rewrite Heq, H. simpl. rewrite Hh. simpl.
      rewrite <- app_assoc. reflexivity. }
    rewrite Hc. reflexivity.
Qed.

(** A run that returns success has entered the body of every pending
    patch, in registry order, and of no other patch; it has appended
    their names to the table in that order, and the world it leaves is
    the one the bodies of the pending patches leave when run one after
    the other. *)
Theorem patchesApply_success_applies_pending
    {World} (ps : list (patch World)) (st : patchStage) (d d' : Daemon World) :
  patchesApply ps st d = (d', None) ->
  let todo := pending (patches_table (db_Node d)) ps in
  executed (calls (patchesApply ps st) d) = map name todo
  /\ patches_table (db_Node d') = patches_table (db_Node d) ++ map name todo
  /\ world d' = run_bodies todo (world d).
Proof.
  intros H todo.
  destruct (GetAppliedPatches (db_Node d)) as [n' [l [err|]]] eqn:Hget.
  - rewrite (patchesApply_read_failed _ _ _ _ _ _ Hget) in H. discriminate.
  - destruct (patchesApply_read_ok ps st _ _ _ Hget) as [Ht Heq].
    assert (Hr := H). rewrite Heq in Hr.
    destruct (range_executes_pending _ _ _ _ _ Hr) as (tr & Hh & _ & Hok).
    destruct (Hok eq_refl) as (He & Hmk & Hw).
    destruct (range_history _ _ _ _ _ Hr) as (tr' & Hh' & _ & Htab & _).
    assert (tr' = tr) by (rewrite Hh in Hh'; now apply app_inv_head in Hh').
    subst tr'.
    assert (Hc : calls (patchesApply ps st) d = EvGetAppliedPatches None :: tr).
    { apply calls_of_history. rewrite H. simpl. rewrite Hh. simpl.
      rewrite <- app_assoc. reflexivity. }
    rewrite Hc. simpl. split; [exact He|]. split.
    + rewrite Htab. simpl. rewrite Ht, Hmk. reflexivity.
    + exact Hw.
Qed.

Lemma patchesApply_success_applies_pending_witness :
  let d' := fst (patchesApply [P1; P3] patchPostDaemonStorage fresh) in
  patchesApply [P1; P3] patchPostDaemonStorage fresh = (d', None) /\
  patches_table (db_Node d') = ["P1"; "P3"] /\
  world d' = 2.
Proof.
  intros d'.
  assert (H : patchesApply [P1; P3] patchPostDaemonStorage fresh = (d', None))
    by reflexivity.
  split; [exact H|].
  pose proof (patchesApply_success_applies_pending [P1; P3]
                patchPostDaemonStorage fresh d' H) as (_ & Ht & Hw).
  split; [exact Ht | exact Hw].
Defined.

(** A name that one run has marked applied is not executed by the run
    that follows it, whether the first run returned success or an
    error. *)
Theorem patchesApply_restart_skips_marked
    {World} (ps ps' : list (patch World)) (st st' : patchStage)
    (d : Daemon World) :
  let d1 := fst (patchesApply ps st d) in
  forall n, In n (marked (calls (patchesApply ps st) d)) ->
            ~ In n (executed (calls (patchesApply ps' st') d1)).
Proof.
  intros d1 n Hn Hex.
  destruct (patchesApply_calls ps' st' d1) as (r & tr & Hc & _ & _ & He).
  rewrite Hc in Hex. simpl in Hex. apply (He n Hex).
  destruct (patchesApply_call_order ps st d) as (_ & _ & _ & Ht).
  unfold d1. rewrite Ht. apply in_or_app. now right.
Qed.

Lemma patchesApply_restart_skips_marked_witness :
  In "P1" (marked (calls (patchesApply [P1; P2; P3] patchPostDaemonStorage) fresh)) /\
  ~ In "P1"
      (executed
         (calls (patchesApply [P1; P2; P3] patchPostDaemonStorage)
            (fst (patchesApply [P1; P2; P3] patchPostDaemonStorage fresh)))).
Proof.
  assert (H : In "P1" (marked (calls (patchesApply [P1; P2; P3]
                                        patchPostDaemonStorage) fresh)))
    by (now left).
  split; [exact H|].
  exact (patchesApply_restart_skips_marked [P1; P2; P3] [P1; P2; P3]
           patchPostDaemonStorage patchPostDaemonStorage fresh "P1" H).
Defined.

(** * Patch bodies on the cluster database *)

Section TxLoops.

Context {DB : Type}.
Implicit Types (t : ClusterTx DB).

Lemma tx_new_calls_of {A} (m : TM DB A) t cs :
  tx_calls (fst (m t)) = tx_calls t ++ cs -> tx_new_calls m t = cs.
Proof.
  intros H. unfold tx_new_calls. rewrite H.
  rewrite skipn_app, skipn_all, Nat.sub_diag. reflexivity.
Qed.

Lemma for_range_cons_ok {A} (body : A -> TM DB (option error)) x rest t t1 :
  body x t = (t1, None) ->
  for_range (x :: rest) body t = for_range rest body t1.
Proof. intros H. simpl. unfold tx_bind. now rewrite H. Qed.

Lemma for_range_cons_error {A} (body : A -> TM DB (option error)) x rest t t1 err :
  body x t = (t1, Some err) ->
  for_range (x :: rest) body t = (t1, Some err).
Proof. intros H. simpl. unfold tx_bind. now rewrite H. Qed.

(** A loop that calls [op] on [target x] for the elements [x] that
    [keep] retains, and returns at the first error: the calls are made
    for the retained elements in order, from the first one on; all
    succeed but possibly the last one, whose error the loop returns;
    when the loop returns no error, every retained element has had its
    call. *)
Lemma for_range_filter_call {A T} (keep : A -> bool) (target : A -> T)
    (op : T -> DB -> DB * option error) (ev : T -> option error -> txcall)
    (l : list A) t :
  let body := fun x =>
    if keep x then tx_call (op (target x)) (ev (target x)) else tx_ret None in
  exists us k,
    tx_calls (fst (for_range l body t))
    = tx_calls t ++ map (fun u => ev (fst u) (snd u)) us /\
    map fst us = firstn k (map target (filter keep l)) /\
    stops_at_first_error snd us (snd (for_range l body t)) /\
    (snd (for_range l body t) = None ->
     map fst us = map target (filter keep l)).
Proof.
  intros body. revert t. induction l as [|x rest IH]; intros t.
  - exists [], 0. simpl. rewrite app_nil_r. repeat split. constructor.
  - simpl filter. destruct (keep x) eqn:Hk.
    + destruct (op (target x) (tx_db t)) as [db' [err|]] eqn:Hop.
      * assert (Hb : body x t
                     = (mkClusterTx db' (tx_calls t ++ [ev (target x) (Some err)]),
                        Some err)).
        { unfold body. rewrite Hk. unfold tx_call. now rewrite Hop. }
        rewrite (for_range_cons_error _ _ _ _ _ _ Hb).
        exists [(target x, Some err)], 1. simpl. repeat split.
        -- now constructor.
        -- discriminate.
      * assert (Hb : body x t
                     = (mkClusterTx db' (tx_calls t ++ [ev (target x) None]), None)).
        { unfold body. rewrite Hk. unfold tx_call. now rewrite Hop. }
        rewrite (for_range_cons_ok _ _ _ _ _ Hb).
        destruct (IH (mkClusterTx db' (tx_calls t ++ [ev (target x) None])))
          as (us & k & Hc & Hp & Hs & Hall).
        exists ((target x, None) :: us), (S k). simpl in *.
        split; [rewrite Hc, <- app_assoc; reflexivity|].
        split; [now rewrite Hp|].
        split; [now constructor|].
        intros Hres. now rewrite (Hall Hres).
    + assert (Hb : body x t = (t, None)).
      { unfold body. rewrite Hk. reflexivity. }
      rewrite (for_range_cons_ok _ _ _ _ _ Hb). apply IH.
Qed.

End TxLoops.

Section Warnings.

Context {DB : Type}.
Variable GetWarnings : DB -> DB * (list Warning * option error).
Variable DeleteWarning : string -> DB -> DB * option error.

Local Abbreviation remove_warnings :=
  (patchRemoveWarningsWithEmptyNode_tx GetWarnings DeleteWarning).

(** The function that [patchRemoveWarningsWithEmptyNode] runs in a
    transaction returns the error of [GetWarnings] as it is, without
    deleting anything.  Otherwise it calls [DeleteWarning] on the UUIDs
    of the warnings whose node is empty, in the order of the list, and
    on no other warning; it stops at the first deletion that fails and
    returns its error as it is; when it returns no error, every warning
    with an empty node has been deleted. *)
Theorem patchRemoveWarningsWithEmptyNode_deletes_empty_node (t : ClusterTx DB) :
  match GetWarnings (tx_db t) with
  | (_, (ws, Some err)) =>
      snd (remove_warnings t) = Some err /\
      tx_new_calls remove_warnings t = [TxGetWarnings (ws, Some err)]
  | (_, (ws, None)) =>
      let todo :=
        map Warning_UUID
          (filter (fun w => String.eqb (Warning_Node w) EmptyString) ws) in
      exists us k,
        tx_new_calls remove_warnings t
        = TxGetWarnings (ws, None)
            :: map (fun u => TxDeleteWarning (fst u) (snd u)) us /\
        map fst us = firstn k todo /\
        stops_at_first_error snd us (snd (remove_warnings t)) /\
        (snd (remove_warnings t) = None -> map fst us = todo)
  end.
Proof.
  assert (Hrun : remove_warnings t
    = match GetWarnings (tx_db t) with
      | (db1, (ws, Some err)) =>
          (mkClusterTx db1 (tx_calls t ++ [TxGetWarnings (ws, Some err)]), Some err)
      | (db1, (ws, None)) =>
          for_range ws (fun w =>
            if String.eqb (Warning_Node w) EmptyString
            then tx_call (DeleteWarning (Warning_UUID w))
                   (TxDeleteWarning (Warning_UUID w))
            else tx_ret None)
            (mkClusterTx db1 (tx_calls t ++ [TxGetWarnings (ws, None)]))
      end).
  { unfold patchRemoveWarningsWithEmptyNode_tx, tx_bind, tx_call.
    destruct (GetWarnings (tx_db t)) as [db1 [ws [err|]]]; reflexivity. }
  destruct (GetWarnings (tx_db t)) as [db1 [ws [err|]]] eqn:Hget; cbv beta iota.
  - rewrite Hrun. split; [reflexivity|]. apply tx_new_calls_of.
    rewrite Hrun. reflexivity.
  - intros todo.
    destruct (for_range_filter_call
                (fun w => String.eqb (Warning_Node w) EmptyString)
                Warning_UUID DeleteWarning TxDeleteWarning ws
                (mkClusterTx db1 (tx_calls t ++ [TxGetWarnings (ws, None)])))
      as (us & k & Hc & Hp & Hs & Hall).
    rewrite Hrun. exists us, k. repeat split; try assumption.
    apply tx_new_calls_of. rewrite Hrun.
    rewrite Hc. simpl. rewrite <- app_assoc. reflexivity.
Qed.

End Warnings.

Section DatabaseRole.

Context {DB : Type}.
Variable GetNodes : DB -> DB * (list NodeInfo * option error).
Variable UpdateNodeRoles : Z -> list Z -> DB -> DB * option error.

Local Abbreviation drop_roles :=
  (patchClusteringDropDatabaseRole_tx GetNodes UpdateNodeRoles).

(** The function that [patchClusteringDropDatabaseRole] runs in a
    transaction wraps the error of [GetNodes] under "Failed getting
    cluster members" and updates nothing.  Otherwise it calls
    [UpdateNodeRoles] with no role on the ids of the members, in the
    order of the list; it stops at the first update that fails and
    returns its error as it is; when it returns no error, the roles of
    every member have been reset. *)
Theorem patchClusteringDropDatabaseRole_resets_roles (t : ClusterTx DB) :
  match GetNodes (tx_db t) with
  | (_, (ms, Some err)) =>
      snd (drop_roles t)
      = Some (wrapError ("Failed getting cluster members: " ++ Error err)%string err)
      /\ tx_new_calls drop_roles t = [TxGetNodes (ms, Some err)]
  | (_, (ms, None)) =>
      exists us k,
        tx_new_calls drop_roles t
        = TxGetNodes (ms, None)
            :: map (fun u => TxUpdateNodeRoles (fst u) [] (snd u)) us /\
        map fst us = firstn k (map NodeInfo_ID ms) /\
        stops_at_first_error snd us (snd (drop_roles t)) /\
        (snd (drop_roles t) = None -> map fst us = map NodeInfo_ID ms)
  end.
Proof.
  assert (Hrun : drop_roles t
    = match GetNodes (tx_db t) with
      | (db1, (ms, Some err)) =>
          (mkClusterTx db1 (tx_calls t ++ [TxGetNodes (ms, Some err)]),
           Some (wrapError ("Failed getting cluster members: " ++ Error err)%string
                   err))
      | (db1, (ms, None)) =>
          for_range ms (fun member =>
            tx_call (UpdateNodeRoles (NodeInfo_ID member) [])
              (TxUpdateNodeRoles (NodeInfo_ID member) []))
            (mkClusterTx db1 (tx_calls t ++ [TxGetNodes (ms, None)]))
      end).
  { unfold patchClusteringDropDatabaseRole_tx, tx_bind, tx_call.
    destruct (GetNodes (tx_db t)) as [db1 [ms [err|]]]; reflexivity. }
  destruct (GetNodes (tx_db t)) as [db1 [ms [err|]]] eqn:Hget; cbv beta iota.
  - rewrite Hrun. split; [reflexivity|]. apply tx_new_calls_of.
    rewrite Hrun. reflexivity.
  - destruct (for_range_filter_call (fun _ : NodeInfo => true) NodeInfo_ID
                (fun id => UpdateNodeRoles id [])
                (fun id => TxUpdateNodeRoles id []) ms
                (mkClusterTx db1 (tx_calls t ++ [TxGetNodes (ms, None)])))
      as (us & k & Hc & Hp & Hs & Hall).
    assert (Hf : filter (fun _ : NodeInfo => true) ms = ms).
    { clear. induction ms as [|m ms IH]; simpl; [reflexivity | now rewrite IH]. }
    rewrite Hf in Hp, Hall. cbv beta iota zeta in Hc, Hs, Hall.
    rewrite Hrun. exists us, k. repeat split; try assumption.
    apply tx_new_calls_of. rewrite Hrun.
    rewrite Hc. simpl. rewrite <- app_assoc. reflexivity.
Qed.

End DatabaseRole.

Section TxInvariants.

Context {DB : Type}.
Implicit Types (t : ClusterTx DB).

(** Every call of a loop is a call that its body makes for an element of
    the list. *)
Lemma for_range_calls {A} (Q : A -> txcall -> Prop)
    (body : A -> TM DB (option error)) (l : list A) :
  (forall x t, In x l ->
     exists cs, tx_calls (fst (body x t)) = tx_calls t ++ cs /\ Forall (Q x) cs) ->
  forall t, exists cs,
    tx_calls (fst (for_range l body t)) = tx_calls t ++ cs /\
    Forall (fun c => exists x, In x l /\ Q x c) cs.
Proof.
  induction l as [|x rest IH]; intros Hbody t.
  - exists []. simpl. rewrite app_nil_r. split; [reflexivity | constructor].
  - destruct (Hbody x t (or_introl eq_refl)) as (cs1 & Hc1 & HQ1).
    assert (HQ1' : Forall (fun c => exists y, In y (x :: rest) /\ Q y c) cs1).
    { eapply Forall_impl; [|exact HQ1]. intros c Hc. exists x.
      split; [now left | exact Hc]. }
    destruct (body x t) as [t1 [err|]] eqn:Hb; simpl in Hc1.
    + rewrite (for_range_cons_error _ _ _ _ _ _ Hb). exists cs1. now split.
    + rewrite (for_range_cons_ok _ _ _ _ _ Hb).
      destruct (IH (fun y t' Hy => Hbody y t' (or_intror Hy)) t1)
        as (cs2 & Hc2 & HQ2).
      exists (cs1 ++ cs2). split.
      * rewrite Hc2, Hc1, <- app_assoc. reflexivity.
      * apply Forall_app. split; [exact HQ1'|].
        eapply Forall_impl; [|exact HQ2]. intros c (y & Hy & Hc).
        exists y. split; [now right | exact Hc].
Qed.

(** A property of the calls of the body that holds of no call and goes
    over to the calls of two runs put one after the other holds of the
    calls of the loop. *)
Lemma for_range_invariant {A} (P : list txcall -> Prop)
    (body : A -> TM DB (option error)) (l : list A) :
  P [] ->
  (forall a b, P a -> P b -> P (a ++ b)) ->
  (forall x t, exists cs, tx_calls (fst (body x t)) = tx_calls t ++ cs /\ P cs) ->
  forall t, exists cs,
    tx_calls (fst (for_range l body t)) = tx_calls t ++ cs /\ P cs.
Proof.
  intros Hnil Happ Hbody. induction l as [|x rest IH]; intros t.
  - exists []. simpl. rewrite app_nil_r. now split.
  - destruct (Hbody x t) as (cs1 & Hc1 & HP1).
    destruct (body x t) as [t1 [err|]] eqn:Hb; simpl in Hc1.
    + rewrite (for_range_cons_error _ _ _ _ _ _ Hb). exists cs1. now split.
    + rewrite (for_range_cons_ok _ _ _ _ _ Hb).
      destruct (IH t1) as (cs2 & Hc2 & HP2).
      exists (cs1 ++ cs2). split; [|now apply Happ].
      rewrite Hc2, Hc1, <- app_assoc. reflexivity.
Qed.

End TxInvariants.

(** ** Maps *)

Lemma config_delete_same c k : config_delete c k k = None.
Proof. unfold config_delete. now rewrite String.eqb_refl. Qed.

Lemma config_delete_other c k k' : k' <> k -> config_delete c k k' = c k'.
Proof.
  intros H. unfold config_delete.
  destruct (String.eqb_spec k k') as [E|_]; [now subst | reflexivity].
Qed.

Lemma config_set_same c k v : config_set c k v k = Some v.
Proof. unfold config_set. now rewrite String.eqb_refl. Qed.

Lemma config_set_other c k v k' : k' <> k -> config_set c k v k' = c k'.
Proof.
  intros H. unfold config_set.
  destruct (String.eqb_spec k k') as [E|_]; [now subst | reflexivity].
Qed.

Section BridgeHwaddr.

Context {DB : Type}.
Variable ProjectDefaultName : string.
Variable GetNetworks : string -> DB -> DB * (list string * option error).
Variable GetNetworkInAnyState :
  string -> string -> DB -> DB * (Network * option error).
Variable UpdateNetwork :
  string -> string -> string -> config -> DB -> DB * option error.

Local Abbreviation clear_hwaddr :=
  (patchNetworkClearBridgeVolatileHwaddr_tx ProjectDefaultName GetNetworks
     GetNetworkInAnyState UpdateNetwork).

Local Abbreviation hwaddr := "volatile.bridge.hwaddr".

(** The function that [patchNetworkClearBridgeVolatileHwaddr] runs in a
    transaction writes a network only after it has loaded it and found a
    non-empty [volatile.bridge.hwaddr] in its configuration (a key that
    is missing, or present with an empty value, leads to no write); it
    writes the network under the name and the description it loaded, in
    the default project, with the configuration it loaded less that one
    key.  And every network that it loads with a non-empty value for the
    key is written so. *)
Theorem patchNetworkClearBridgeVolatileHwaddr_writes (t : ClusterTx DB) :
  let cs := tx_new_calls clear_hwaddr t in
  (forall p n desc cfg r,
      In (TxUpdateNetwork p n desc cfg r) cs ->
      exists nm net,
        In (TxGetNetworkInAnyState ProjectDefaultName nm (net, None)) cs /\
        config_get (Network_Config net) hwaddr <> EmptyString /\
        p = ProjectDefaultName /\ n = Network_Name net /\
        desc = Network_Description net /\
        cfg hwaddr = None /\
        (forall k, k <> hwaddr -> cfg k = Network_Config net k))
  /\ (forall p nm net,
      In (TxGetNetworkInAnyState p nm (net, None)) cs ->
      config_get (Network_Config net) hwaddr <> EmptyString ->
      exists r,
        In (TxUpdateNetwork ProjectDefaultName (Network_Name net)
              (Network_Description net)
              (config_delete (Network_Config net) hwaddr) r) cs).
Proof.
  set (P := fun cs : list txcall =>
    (forall p n desc cfg r,
        In (TxUpdateNetwork p n desc cfg r) cs ->
        exists nm net,
          In (TxGetNetworkInAnyState ProjectDefaultName nm (net, None)) cs /\
          config_get (Network_Config net) hwaddr <> EmptyString /\
          p = ProjectDefaultName /\ n = Network_Name net /\
          desc = Network_Description net /\
          cfg hwaddr = None /\
          (forall k, k <> hwaddr -> cfg k = Network_Config net k))
    /\ (forall p nm net,
        In (TxGetNetworkInAnyState p nm (net, None)) cs ->
        config_get (Network_Config net) hwaddr <> EmptyString ->
        exists r,
          In (TxUpdateNetwork ProjectDefaultName (Network_Name net)
                (Network_Description net)
                (config_delete (Network_Config net) hwaddr) r) cs)).
  assert (Hnil : P []) by (split; intros; contradiction).
  assert (Happ : forall a b, P a -> P b -> P (a ++ b)).
  { intros a b [Ha1 Ha2] [Hb1 Hb2]. split.
    - intros p n desc cfg r Hin. apply in_app_or in Hin as [Hin|Hin].
      + destruct (Ha1 _ _ _ _ _ Hin) as (nm & net & Hl & Hrest).
        exists nm, net. split; [apply in_or_app; now left | exact Hrest].
      + destruct (Hb1 _ _ _ _ _ Hin) as (nm & net & Hl & Hrest).
        exists nm, net. split; [apply in_or_app; now right | exact Hrest].
    - intros p nm net Hin Hne. apply in_app_or in Hin as [Hin|Hin].
      + destruct (Ha2 _ _ _ Hin Hne) as (r & Hr). exists r.
        apply in_or_app. now left.
      + destruct (Hb2 _ _ _ Hin Hne) as (r & Hr). exists r.
        apply in_or_app. now right. }
  assert (Hfirst : forall r, P [TxGetNetworks ProjectDefaultName r]).
  { intros r. split.
    - intros p n desc cfg r0 [H|[]]. discriminate.
    - intros p nm net [H|[]]. discriminate. }
  cbv zeta. fold (P (tx_new_calls clear_hwaddr t)).
  unfold patchNetworkClearBridgeVolatileHwaddr_tx.
  match goal with
  | |- P (tx_new_calls (tx_bind _ ?k) t) => set (rest := k)
  end.
  destruct (GetNetworks ProjectDefaultName (tx_db t)) as [db1 [nets [err|]]] eqn:Hget.
  - assert (Hc : tx_new_calls
                   (tx_bind (tx_call (GetNetworks ProjectDefaultName)
                               (TxGetNetworks ProjectDefaultName)) rest) t
                 = [TxGetNetworks ProjectDefaultName (nets, Some err)]).
    { apply tx_new_calls_of. unfold tx_bind, tx_call. rewrite Hget. reflexivity. }
    rewrite Hc. apply Hfirst.
  - set (t1 := mkClusterTx db1
                 (tx_calls t ++ [TxGetNetworks ProjectDefaultName (nets, None)])).
    assert (Hloop : exists cs,
      tx_calls (fst (rest (nets, None) t1)) = tx_calls t1 ++ cs /\ P cs).
    { unfold rest. apply for_range_invariant; [exact Hnil | exact Happ |].
      intros nm t2. unfold tx_bind, tx_call.
      destruct (GetNetworkInAnyState ProjectDefaultName nm (tx_db t2))
        as [db2 [net [err|]]] eqn:Hload.
      - eexists. split; [reflexivity|]. split.
        + intros p n desc cfg r [H|[]]. discriminate.
        + intros p nm' net' [H|[]]. discriminate.
      - simpl.
        destruct (String.eqb_spec (config_get (Network_Config net) hwaddr)
                    EmptyString) as [Hempty|Hne]; simpl.
        + eexists. split; [reflexivity|]. split.
          * intros p n desc cfg r [H|[]]. discriminate.
          * intros p nm' net' [H|[]] Hne. inversion H; subst. contradiction.
        + destruct (UpdateNetwork ProjectDefaultName (Network_Name net)
                      (Network_Description net)
                      (config_delete (Network_Config net) hwaddr) db2)
            as [db3 r] eqn:Hupd.
          exists [TxGetNetworkInAnyState ProjectDefaultName nm (net, None);
                  TxUpdateNetwork ProjectDefaultName (Network_Name net)
                    (Network_Description net)
                    (config_delete (Network_Config net) hwaddr) r].
          split; [destruct r; simpl; rewrite <- app_assoc; reflexivity|].
          split.
          * intros p n desc cfg r0 [H|[H|[]]]; [discriminate|].
            inversion H; subst. exists nm, net.
            split; [now left|]. split; [exact Hne|].
            split; [reflexivity|]. split; [reflexivity|]. split; [reflexivity|].
            split; [apply config_delete_same|].
            intros k Hk. now apply config_delete_other.
          * intros p nm' net' [H|[H|[]]] _; [|discriminate].
            inversion H; subst. exists r. right. now left. }
    destruct Hloop as (cs & Hcs & HP).
    assert (Hc : tx_new_calls
                   (tx_bind (tx_call (GetNetworks ProjectDefaultName)
                               (TxGetNetworks ProjectDefaultName)) rest) t
                 = [TxGetNetworks ProjectDefaultName (nets, None)] ++ cs).
    { apply tx_new_calls_of.
      assert (Hstep : tx_bind (tx_call (GetNetworks ProjectDefaultName)
                                 (TxGetNetworks ProjectDefaultName)) rest t
                      = rest (nets, None) t1).
      { unfold tx_bind, tx_call. rewrite Hget. reflexivity. }
      rewrite Hstep, Hcs. unfold t1. simpl. rewrite <- app_assoc. reflexivity. }
    rewrite Hc. apply Happ; [apply Hfirst | exact HP].
Qed.

End BridgeHwaddr.

Section NestedLoops.

Context {DB : Type}.
Implicit Types (t : ClusterTx DB).

Lemma for_range_ext {A} (body body' : A -> TM DB (option error)) (l : list A) :
  (forall x t, body x t = body' x t) ->
  forall t, for_range l body t = for_range l body' t.
Proof.
  intros H. induction l as [|x rest IH]; intros t; [reflexivity|].
  simpl. unfold tx_bind. rewrite H.
  destruct (body' x t) as [t1 [err|]]; [reflexivity | apply IH].
Qed.

(** Every call of a loop over the entries of a map of maps is a call
    that the inner body makes for an entry of an inner map. *)
Lemma for_range_pairs_calls {A B} (Q : A -> B -> txcall -> Prop)
    (body : A * list B -> TM DB (option error))
    (inner : A -> B -> TM DB (option error)) (l : list (A * list B)) :
  (forall a bs t, body (a, bs) t = for_range bs (inner a) t) ->
  (forall a b t, exists cs,
      tx_calls (fst (inner a b t)) = tx_calls t ++ cs /\ Forall (Q a b) cs) ->
  forall t, exists cs,
    tx_calls (fst (for_range l body t)) = tx_calls t ++ cs /\
    Forall (fun c => exists a bs b, In (a, bs) l /\ In b bs /\ Q a b c) cs.
Proof.
  intros Hbody Hinner t.
  destruct (for_range_calls
              (fun (x : A * list B) c => exists b, In b (snd x) /\ Q (fst x) b c)
              body l) with (t := t) as (cs & Hc & HQ).
  - intros [a bs] t' _. rewrite Hbody.
    destruct (for_range_calls (Q a) (inner a) bs (fun b t'' _ => Hinner a b t'') t')
      as (cs & Hc & HQ).
    exists cs. split; [exact Hc|].
    eapply Forall_impl; [|exact HQ]. intros c (b & Hb & Hq). exists b. now split.
  - exists cs. split; [exact Hc|].
    eapply Forall_impl; [|exact HQ].
    intros c ([a bs] & Hin & b & Hb & Hq). exists a, bs, b. now repeat split.
Qed.

End NestedLoops.

Section CreatedNetworks.

Context {DB : Type}.
Variable UpdateNetwork :
  string -> string -> string -> config -> DB -> DB * option error.
Variable GetCreatedNetworks :
  DB -> DB * (list (string * list (Z * Network)) * option error).
Implicit Types (t : ClusterTx DB).

(** The calls of a body that reads the created networks and then walks
    them with [inner]. *)
Lemma created_networks_calls (Q : string -> Z * Network -> txcall -> Prop)
    (body : string * list (Z * Network) -> TM DB (option error))
    (inner : string -> Z * Network -> TM DB (option error)) t :
  let run :=
    tx_bind (tx_call GetCreatedNetworks TxGetCreatedNetworks) (fun res =>
      match res with
      | (_, Some err) => tx_ret (Some err)
      | (projectNetworks, None) => for_range projectNetworks body
      end) in
  (forall a bs t, body (a, bs) t = for_range bs (inner a) t) ->
  (forall a b t, exists cs,
      tx_calls (fst (inner a b t)) = tx_calls t ++ cs /\ Forall (Q a b) cs) ->
  match GetCreatedNetworks (tx_db t) with
  | (_, (pn, Some err)) =>
      snd (run t) = Some err /\
      tx_new_calls run t = [TxGetCreatedNetworks (pn, Some err)]
  | (_, (pn, None)) =>
      exists cs,
        tx_new_calls run t = TxGetCreatedNetworks (pn, None) :: cs /\
        Forall (fun c => exists p nets idn,
                  In (p, nets) pn /\ In idn nets /\ Q p idn c) cs
  end.
Proof.
  intros run Hbody Hinner.
  destruct (GetCreatedNetworks (tx_db t)) as [db1 [pn [err|]]] eqn:Hget.
  - assert (Hrun : run t
      = (mkClusterTx db1 (tx_calls t ++ [TxGetCreatedNetworks (pn, Some err)]),
         Some err)).
    { unfold run, tx_bind, tx_call. rewrite Hget. reflexivity. }
    split; [now rewrite Hrun|]. apply tx_new_calls_of. now rewrite Hrun.
  - set (t1 := mkClusterTx db1
                 (tx_calls t ++ [TxGetCreatedNetworks (pn, None)])).
    assert (Hrun : run t = for_range pn body t1).
    { unfold run, tx_bind, tx_call. rewrite Hget. reflexivity. }
    destruct (for_range_pairs_calls Q body inner pn Hbody Hinner t1)
      as (cs & Hc & HQ).
    exists cs. split; [|exact HQ].
    apply tx_new_calls_of. rewrite Hrun, Hc. unfold t1. simpl.
    rewrite <- app_assoc. reflexivity.
Qed.

(** The calls of the inner body shared by the three patches that rewrite
    the configuration of the created networks. *)
Lemma rewrite_network_calls (skip : bool) (rewritten : config * bool)
    (wrap : error -> error) (p : string) (net : Network) t :
  let inner :=
    if skip then tx_ret None
    else
      let (cfg, modified) := rewritten in
      if modified
      then
        tx_bind (tx_call
                   (UpdateNetwork p (Network_Name net) (Network_Description net) cfg)
                   (TxUpdateNetwork p (Network_Name net)
                      (Network_Description net) cfg))
          (fun err =>
          match err with
          | Some err => tx_ret (Some (wrap err))
          | None => tx_ret None
          end)
      else tx_ret None in
  exists cs,
    tx_calls (fst (inner t)) = tx_calls t ++ cs /\
    Forall (fun c => exists r,
              skip = false /\ snd rewritten = true /\
              c = TxUpdateNetwork p (Network_Name net) (Network_Description net)
                    (fst rewritten) r) cs.
Proof.
  destruct skip; cbv zeta.
  - exists []. simpl. rewrite app_nil_r. split; [reflexivity | constructor].
  - destruct rewritten as [cfg [|]].
    + unfold tx_bind, tx_call.
      destruct (UpdateNetwork p (Network_Name net) (Network_Description net) cfg
                  (tx_db t)) as [db' r] eqn:Hupd.
      exists [TxUpdateNetwork p (Network_Name net) (Network_Description net) cfg r].
      split; [destruct r; reflexivity|].
      constructor; [|constructor]. exists r. now repeat split.
    + exists []. simpl. rewrite app_nil_r. split; [reflexivity | constructor].
Qed.

Local Abbreviation ovn_nat :=
  (patchNetworkOVNEnableNAT_tx UpdateNetwork GetCreatedNetworks).

(** The function that [patchNetworkOVNEnableNAT] runs in a transaction
    returns the error of [GetCreatedNetworks] as it is and writes
    nothing.  Otherwise every call it makes after the read is a write of
    a network of type "ovn" that the read returned, in its project,
    under its name and description, with its configuration rewritten by
    [ovn_enable_nat], and is made only when the rewriting changed the
    configuration. *)
Theorem patchNetworkOVNEnableNAT_writes t :
  match GetCreatedNetworks (tx_db t) with
  | (_, (pn, Some err)) =>
      snd (ovn_nat t) = Some err /\
      tx_new_calls ovn_nat t = [TxGetCreatedNetworks (pn, Some err)]
  | (_, (pn, None)) =>
      exists cs,
        tx_new_calls ovn_nat t = TxGetCreatedNetworks (pn, None) :: cs /\
        Forall (fun c => exists p nets id net r,
                  In (p, nets) pn /\ In (id, net) nets /\
                  Network_Type net = "ovn" /\
                  snd (ovn_enable_nat (Network_Config net)) = true /\
                  c = TxUpdateNetwork p (Network_Name net)
                        (Network_Description net)
                        (fst (ovn_enable_nat (Network_Config net))) r) cs
  end.
Proof.
  pose proof (created_networks_calls
    (fun p (idn : Z * Network) c => exists r,
       negb (String.eqb (Network_Type (snd idn)) "ovn") = false /\
       snd (ovn_enable_nat (Network_Config (snd idn))) = true /\
       c = TxUpdateNetwork p (Network_Name (snd idn))
             (Network_Description (snd idn))
             (fst (ovn_enable_nat (Network_Config (snd idn)))) r)
    (fun pn => let (projectName, networks) := pn in
               for_range networks
                 (patchNetworkOVNEnableNAT_network UpdateNetwork projectName))
    (patchNetworkOVNEnableNAT_network UpdateNetwork) t
    (fun a bs t0 => eq_refl)) as H.
  cbv zeta in H.
  assert (H2 : forall a (b : Z * Network) (t0 : ClusterTx DB), exists cs,
    tx_calls (fst (patchNetworkOVNEnableNAT_network UpdateNetwork a b t0))
    = tx_calls t0 ++ cs /\
    Forall (fun c => exists r,
       negb (String.eqb (Network_Type (snd b)) "ovn") = false /\
       snd (ovn_enable_nat (Network_Config (snd b))) = true /\
       c = TxUpdateNetwork a (Network_Name (snd b))
             (Network_Description (snd b))
             (fst (ovn_enable_nat (Network_Config (snd b)))) r) cs).
  { intros a [id net] t0. simpl snd.
    apply (rewrite_network_calls
             (negb (String.eqb (Network_Type net) "ovn"))
             (ovn_enable_nat (Network_Config net))). }
  specialize (H H2). clear H2.
  unfold patchNetworkOVNEnableNAT_tx.
  destruct (GetCreatedNetworks (tx_db t)) as [db1 [pn [err|]]]; [exact H|].
  destruct H as (cs & Hc & HQ). exists cs. split; [exact Hc|].
  eapply Forall_impl; [|exact HQ].
  intros c (p & nets & [id net] & Hp & Hn & r & Hs & Hm & Hcall). simpl in *.
  exists p, nets, id, net, r. repeat split; try assumption.
  apply negb_false_iff in Hs. now apply String.eqb_eq in Hs.
Qed.

End CreatedNetworks.

Lemma config_get_set_same c k v : config_get (config_set c k v) k = v.
Proof. unfold config_get. now rewrite config_set_same. Qed.

Lemma config_get_set_other c k v k' :
  k' <> k -> config_get (config_set c k v) k' = config_get c k'.
Proof. intros H. unfold config_get. now rewrite config_set_other. Qed.

(** The rewriting of [patchNetworkOVNEnableNAT], family by family. *)
Lemma ovn_enable_nat_cases c :
  let b4 := negb (String.eqb (config_get c "ipv4.address") EmptyString)
            && String.eqb (config_get c "ipv4.nat") EmptyString in
  let b6 := negb (String.eqb (config_get c "ipv6.address") EmptyString)
            && String.eqb (config_get c "ipv6.nat") EmptyString in
  snd (ovn_enable_nat c) = b4 || b6 /\
  fst (ovn_enable_nat c) "ipv4.nat" = (if b4 then Some "true" else c "ipv4.nat") /\
  fst (ovn_enable_nat c) "ipv6.nat" = (if b6 then Some "true" else c "ipv6.nat") /\
  (forall k, k <> "ipv4.nat" -> k <> "ipv6.nat" -> fst (ovn_enable_nat c) k = c k).
Proof.
  intros b4 b6. unfold ovn_enable_nat. fold b4.
  destruct b4; cbv iota beta;
    rewrite ?config_get_set_other by discriminate; fold b6;
    destruct b6; cbn [fst snd orb]; repeat split;
    intros; rewrite ?config_set_same;
    rewrite ?config_set_other by (assumption || discriminate);
    rewrite ?config_set_same; reflexivity.
Qed.

(** What [patchNetworkOVNEnableNAT] does to the configuration of an OVN
    network: it touches no key but [ipv4.nat] and [ipv6.nat]; it leaves
    a NAT setting that is not empty as it is, and also the NAT setting
    of a family without address; it sets to "true" the NAT setting,
    missing or empty, of a family with an address, so that afterwards a
    family with an address has a NAT setting; when it reports no change
    the configuration is the same; and on a configuration that it has
    rewritten it finds nothing more to change. *)
Theorem ovn_enable_nat_config (c : config) :
  let c' := fst (ovn_enable_nat c) in
  (forall k, k <> "ipv4.nat" -> k <> "ipv6.nat" -> c' k = c k)
  /\ (config_get c "ipv4.nat" <> EmptyString -> c' "ipv4.nat" = c "ipv4.nat")
  /\ (config_get c "ipv6.nat" <> EmptyString -> c' "ipv6.nat" = c "ipv6.nat")
  /\ (config_get c "ipv4.address" = EmptyString -> c' "ipv4.nat" = c "ipv4.nat")
  /\ (config_get c "ipv6.address" = EmptyString -> c' "ipv6.nat" = c "ipv6.nat")
  /\ (config_get c "ipv4.address" <> EmptyString ->
      config_get c "ipv4.nat" = EmptyString -> c' "ipv4.nat" = Some "true")
  /\ (config_get c "ipv6.address" <> EmptyString ->
      config_get c "ipv6.nat" = EmptyString -> c' "ipv6.nat" = Some "true")
  /\ (snd (ovn_enable_nat c) = false -> forall k, c' k = c k)
  /\ snd (ovn_enable_nat c') = false.
Proof.
  intros c'.
  destruct (ovn_enable_nat_cases c) as (Hm & H4 & H6 & Hk). fold c' in H4, H6, Hk.
  assert (G4 : config_get c' "ipv4.address" = config_get c "ipv4.address")
    by (unfold config_get; rewrite Hk by discriminate; reflexivity).
  assert (G6 : config_get c' "ipv6.address" = config_get c "ipv6.address")
    by (unfold config_get; rewrite Hk by discriminate; reflexivity).
  destruct (ovn_enable_nat_cases c') as (Hm' & _).
  rewrite G4, G6 in Hm'.
  assert (N4 : config_get c' "ipv4.nat" =
     if negb (String.eqb (config_get c "ipv4.address") EmptyString)
        && String.eqb (config_get c "ipv4.nat") EmptyString
     then "true" else config_get c "ipv4.nat").
  { unfold config_get at 1. rewrite H4.
    destruct (negb (String.eqb (config_get c "ipv4.address") EmptyString)
              && String.eqb (config_get c "ipv4.nat") EmptyString); reflexivity. }
  assert (N6 : config_get c' "ipv6.nat" =
     if negb (String.eqb (config_get c "ipv6.address") EmptyString)
        && String.eqb (config_get c "ipv6.nat") EmptyString
     then "true" else config_get c "ipv6.nat").
  { unfold config_get at 1. rewrite H6.
    destruct (negb (String.eqb (config_get c "ipv6.address") EmptyString)
              && String.eqb (config_get c "ipv6.nat") EmptyString); reflexivity. }
  rewrite N4, N6 in Hm'. clear N4 N6 G4 G6.
  revert Hm Hm' H4 H6.
  destruct (String.eqb_spec (config_get c "ipv4.address") EmptyString) as [A4|A4];
  destruct (String.eqb_spec (config_get c "ipv4.nat") EmptyString) as [N4|N4];
  destruct (String.eqb_spec (config_get c "ipv6.address") EmptyString) as [A6|A6];
  destruct (String.eqb_spec (config_get c "ipv6.nat") EmptyString) as [N6|N6];
  cbn [negb andb orb]; intros Hm Hm' H4 H6;
  repeat match type of Hm' with
  | context [String.eqb (config_get c ?k) EmptyString] =>
      destruct (String.eqb_spec (config_get c k) EmptyString); try contradiction
  end; cbn in Hm'.
  all: repeat split; intros; try contradiction; try assumption; try congruence;
    try (now apply Hk).
  all: try (destruct (String.eqb_spec k "ipv4.nat") as [->|?]; [assumption|];
            destruct (String.eqb_spec k "ipv6.nat") as [->|?]; [assumption|];
            now apply Hk).
Qed.

(** The rewriting of [patchNetworkOVNRemoveRoutes]. *)
Lemma ovn_remove_routes_cases c :
  snd (ovn_remove_routes c)
  = config_found c "ipv4.routes.external" || config_found c "ipv6.routes.external"
  /\ fst (ovn_remove_routes c) "ipv4.routes.external" = None
  /\ fst (ovn_remove_routes c) "ipv6.routes.external" = None
  /\ (forall k, k <> "ipv4.routes.external" -> k <> "ipv6.routes.external" ->
                fst (ovn_remove_routes c) k = c k).
Proof.
  unfold ovn_remove_routes, config_found.
  destruct (c "ipv4.routes.external") as [v4|] eqn:E4; cbv iota beta;
    rewrite ?config_delete_other by discriminate;
    destruct (c "ipv6.routes.external") as [v6|] eqn:E6; cbn [fst snd orb];
    repeat split; intros;
    rewrite ?config_delete_same;
    rewrite ?config_delete_other by (assumption || discriminate);
    rewrite ?config_delete_same; try reflexivity; assumption.
Qed.

Section CreatedNetworksRewritten.

Context {DB : Type}.
Variable UpdateNetwork :
  string -> string -> string -> config -> DB -> DB * option error.
Variable GetCreatedNetworks :
  DB -> DB * (list (string * list (Z * Network)) * option error).
Implicit Types (t : ClusterTx DB).

Local Abbreviation fan_nat :=
  (patchNetworkFANEnableNAT_tx UpdateNetwork GetCreatedNetworks).

Local Abbreviation remove_routes :=
  (patchNetworkOVNRemoveRoutes_tx UpdateNetwork GetCreatedNetworks).

(** The function that [patchNetworkFANEnableNAT] runs in a transaction
    returns the error of [GetCreatedNetworks] as it is and writes
    nothing.  Otherwise every call it makes after the read is a write of
    a network that the read returned, of type "bridge" and of bridge
    mode "fan", whose configuration has no key [ipv4.nat] (a key that is
    present, even with an empty value, leads to no write); the network
    is written in its project, under its name and description, with its
    configuration and [ipv4.nat] set to "true". *)
Theorem patchNetworkFANEnableNAT_writes t :
  match GetCreatedNetworks (tx_db t) with
  | (_, (pn, Some err)) =>
      snd (fan_nat t) = Some err /\
      tx_new_calls fan_nat t = [TxGetCreatedNetworks (pn, Some err)]
  | (_, (pn, None)) =>
      exists cs,
        tx_new_calls fan_nat t = TxGetCreatedNetworks (pn, None) :: cs /\
        Forall (fun c => exists p nets id net r,
                  In (p, nets) pn /\ In (id, net) nets /\
                  Network_Type net = "bridge" /\
                  config_get (Network_Config net) "bridge.mode" = "fan" /\
                  Network_Config net "ipv4.nat" = None /\
                  c = TxUpdateNetwork p (Network_Name net)
                        (Network_Description net)
                        (config_set (Network_Config net) "ipv4.nat" "true") r) cs
  end.
Proof.
  pose proof (created_networks_calls GetCreatedNetworks
    (fun p (idn : Z * Network) c => exists r,
       Network_Type (snd idn) = "bridge" /\
       config_get (Network_Config (snd idn)) "bridge.mode" = "fan" /\
       Network_Config (snd idn) "ipv4.nat" = None /\
       c = TxUpdateNetwork p (Network_Name (snd idn))
             (Network_Description (snd idn))
             (config_set (Network_Config (snd idn)) "ipv4.nat" "true") r)
    (fun pn => let (projectName, networks) := pn in
               for_range networks
                 (patchNetworkFANEnableNAT_network UpdateNetwork projectName))
    (patchNetworkFANEnableNAT_network UpdateNetwork) t
    (fun a bs t0 => eq_refl)) as H.
  cbv zeta in H.
  assert (H2 : forall a (b : Z * Network) (t0 : ClusterTx DB), exists cs,
    tx_calls (fst (patchNetworkFANEnableNAT_network UpdateNetwork a b t0))
    = tx_calls t0 ++ cs /\
    Forall (fun c => exists r,
       Network_Type (snd b) = "bridge" /\
       config_get (Network_Config (snd b)) "bridge.mode" = "fan" /\
       Network_Config (snd b) "ipv4.nat" = None /\
       c = TxUpdateNetwork a (Network_Name (snd b))
             (Network_Description (snd b))
             (config_set (Network_Config (snd b)) "ipv4.nat" "true") r) cs).
  { intros a [id net] t0. simpl snd. unfold patchNetworkFANEnableNAT_network.
    destruct (String.eqb_spec (Network_Type net) "bridge") as [Hty|_]; simpl negb;
      cbv iota.
    2: { exists []. simpl. rewrite app_nil_r. split; [reflexivity | constructor]. }
    destruct (rewrite_network_calls UpdateNetwork
                (negb (String.eqb (config_get (Network_Config net) "bridge.mode") "fan"))
                (fan_enable_nat (Network_Config net))
                (fun err => wrapError
                   ("Failed setting ipv4.nat=true for fan network "
                      ++ fmt.q (Network_Name net) ++ " ("
                      ++ fmt.d id ++ "): " ++ Error err)%string err)
                a net t0) as (cs & Hc & HQ).
    exists cs. split; [exact Hc|].
    eapply Forall_impl; [|exact HQ]. intros c (r & Hs & Hm & Hcall).
    apply negb_false_iff in Hs. apply String.eqb_eq in Hs.
    unfold fan_enable_nat, config_found in Hm, Hcall.
    destruct (Network_Config net "ipv4.nat") as [v|] eqn:Hnat;
      simpl in Hm, Hcall; [discriminate|].
    exists r. now repeat split. }
  specialize (H H2). clear H2.
  unfold patchNetworkFANEnableNAT_tx.
  destruct (GetCreatedNetworks (tx_db t)) as [db1 [pn [err|]]]; [exact H|].
  destruct H as (cs & Hc & HQ). exists cs. split; [exact Hc|].
  eapply Forall_impl; [|exact HQ].
  intros c (p & nets & [id net] & Hp & Hn & r & Hrest). simpl in *.
  exists p, nets, id, net, r. now repeat split.
Qed.

(** The function that [patchNetworkOVNRemoveRoutes] runs in a
    transaction returns the error of [GetCreatedNetworks] as it is and
    writes nothing.  Otherwise every call it makes after the read is a
    write of a network of type "ovn" that the read returned, whose
    configuration has one of the keys [ipv4.routes.external] and
    [ipv6.routes.external]; the configuration written has neither key
    and is the one read at every other key. *)
Theorem patchNetworkOVNRemoveRoutes_writes t :
  match GetCreatedNetworks (tx_db t) with
  | (_, (pn, Some err)) =>
      snd (remove_routes t) = Some err /\
      tx_new_calls remove_routes t = [TxGetCreatedNetworks (pn, Some err)]
  | (_, (pn, None)) =>
      exists cs,
        tx_new_calls remove_routes t = TxGetCreatedNetworks (pn, None) :: cs /\
        Forall (fun c => exists p nets id net cfg r,
                  In (p, nets) pn /\ In (id, net) nets /\
                  Network_Type net = "ovn" /\
                  (config_found (Network_Config net) "ipv4.routes.external" = true \/
                   config_found (Network_Config net) "ipv6.routes.external" = true) /\
                  c = TxUpdateNetwork p (Network_Name net)
                        (Network_Description net) cfg r /\
                  cfg "ipv4.routes.external" = None /\
                  cfg "ipv6.routes.external" = None /\
                  (forall k, k <> "ipv4.routes.external" ->
                             k <> "ipv6.routes.external" ->
                             cfg k = Network_Config net k)) cs
  end.
Proof.
  pose proof (created_networks_calls GetCreatedNetworks
    (fun p (idn : Z * Network) c => exists r,
       negb (String.eqb (Network_Type (snd idn)) "ovn") = false /\
       snd (ovn_remove_routes (Network_Config (snd idn))) = true /\
       c = TxUpdateNetwork p (Network_Name (snd idn))
             (Network_Description (snd idn))
             (fst (ovn_remove_routes (Network_Config (snd idn)))) r)
    (fun pn => let (projectName, networks) := pn in
               for_range networks
                 (patchNetworkOVNRemoveRoutes_network UpdateNetwork projectName))
    (patchNetworkOVNRemoveRoutes_network UpdateNetwork) t
    (fun a bs t0 => eq_refl)) as H.
  cbv zeta in H.
  assert (H2 : forall a (b : Z * Network) (t0 : ClusterTx DB), exists cs,
    tx_calls (fst (patchNetworkOVNRemoveRoutes_network UpdateNetwork a b t0))
    = tx_calls t0 ++ cs /\
    Forall (fun c => exists r,
       negb (String.eqb (Network_Type (snd b)) "ovn") = false /\
       snd (ovn_remove_routes (Network_Config (snd b))) = true /\
       c = TxUpdateNetwork a (Network_Name (snd b))
             (Network_Description (snd b))
             (fst (ovn_remove_routes (Network_Config (snd b)))) r) cs).
  { intros a [id net] t0. simpl snd.
    apply (rewrite_network_calls UpdateNetwork
             (negb (String.eqb (Network_Type net) "ovn"))
             (ovn_remove_routes (Network_Config net))). }
  specialize (H H2). clear H2.
  unfold patchNetworkOVNRemoveRoutes_tx.
  destruct (GetCreatedNetworks (tx_db t)) as [db1 [pn [err|]]]; [exact H|].
  destruct H as (cs & Hc & HQ). exists cs. split; [exact Hc|].
  eapply Forall_impl; [|exact HQ].
  intros c (p & nets & [id net] & Hp & Hn & r & Hs & Hm & Hcall). simpl in *.
  destruct (ovn_remove_routes_cases (Network_Config net)) as (Hsnd & H4 & H6 & Hk).
  exists p, nets, id, net, (fst (ovn_remove_routes (Network_Config net))), r.
  split; [assumption|]. split; [assumption|].
  split; [apply negb_false_iff in Hs; now apply String.eqb_eq in Hs|].
  split; [rewrite Hsnd in Hm; now apply orb_true_iff in Hm|].
  now repeat split.
Qed.

End CreatedNetworksRewritten.


(** ** Samples *)

Example remove_warnings_sample :
  let run := patchRemoveWarningsWithEmptyNode_tx warnings_GetWarnings
               warnings_DeleteWarning in
  let t := mkClusterTx sample_warnings [] in
  tx_new_calls run t
  = [TxGetWarnings (sample_warnings, None);
     TxDeleteWarning "w1" None; TxDeleteWarning "w3" None] /\
  tx_db (fst (run t)) = [mkWarning "w2" "node1"] /\
  snd (run t) = None.
Proof. repeat split. Qed.

Example ovn_enable_nat_sample :
  let run := patchNetworkOVNEnableNAT_tx networks_UpdateNetwork
               networks_GetCreatedNetworks in
  let t := mkClusterTx sample_networks [] in
  exists cfg,
    tx_new_calls run t
    = [TxGetCreatedNetworks (sample_networks, None);
       TxUpdateNetwork "default" "ovn1" EmptyString cfg None] /\
    cfg "ipv4.nat" = Some "true" /\
    cfg "ipv4.address" = Some "10.1.0.1/24" /\
    snd (run t) = None.
Proof. eexists. repeat split. Qed.

(** ** A network patch whose check fails *)

(** When [network.PatchPreCheck] fails, a patch built with
    [patchGenericNetwork] does not run the function it wraps: the world
    is the one the check left, the run stops there with the error of
    the check wrapped under "Failed applying patch", and no applied
    record is written for the patch. *)
Theorem patchGenericNetwork_check_failure
    {World} (PatchPreCheck : World -> World * option error) (f : body World)
    (pre post : list (patch World)) (nm : string) (stg st : patchStage)
    (d d2 : Daemon World) (w' : World) (err : error) :
  patchesApply pre st d = (d2, None) ->
  stg <> patchNoStageSet ->
  ValueInSlice nm (patches_table (db_Node d)) = false ->
  PatchPreCheck (world d2) = (w', Some err) ->
  patchesApply
    (pre ++ mkPatch nm stg (patchGenericNetwork PatchPreCheck f) :: post) st d
  = (mkDaemon (db_Node d2) w'
       (history d2 ++ [EvLogInfo "Applying patch" nm; EvRun nm (Some err)]),
     Some (wrapError (msgFailedApplying nm err) err)).
Proof.
  intros Hpre Hs Hin Hcheck.
  rewrite (patchesApply_reaches pre
             (mkPatch nm stg (patchGenericNetwork PatchPreCheck f))
             post st d d2 Hpre Hs Hin).
  destruct (apply_cases (mkPatch nm stg (patchGenericNetwork PatchPreCheck f)) d2)
    as [(w1 & e1 & Hr & Ha) | [(w1 & n1 & e1 & Hr & _) | (w1 & n1 & Hr & _)]];
    simpl in Hr; unfold patchGenericNetwork in Hr; rewrite Hcheck in Hr;
    inversion Hr; subst.
  rewrite Ha. reflexivity.
Qed.

Lemma patchGenericNetwork_check_failure_witness :
  let d2 := fst (patchesApply [P1] patchPostDaemonStorage fresh) in
  let K := mkPatch "network_ovn_enable_nat" patchPostDaemonStorage
             (patchGenericNetwork precheck_fails succeeds) in
  patchesApply [P1] patchPostDaemonStorage fresh = (d2, None) /\
  patchPostDaemonStorage <> patchNoStageSet /\
  ValueInSlice "network_ovn_enable_nat" (patches_table (db_Node fresh)) = false /\
  precheck_fails (world d2) = (1, Some (errorString "ovs-vsctl not found")) /\
  world (fst (patchesApply [P1; K; P3] patchPostDaemonStorage fresh)) = 1 /\
  patches_table (db_Node (fst (patchesApply [P1; K; P3] patchPostDaemonStorage fresh)))
  = ["P1"].
Proof.
  intros d2 K.
  assert (H1 : patchesApply [P1] patchPostDaemonStorage fresh = (d2, None))
    by reflexivity.
  assert (H2 : patchPostDaemonStorage <> patchNoStageSet) by discriminate.
  assert (H3 : ValueInSlice "network_ovn_enable_nat"
                 (patches_table (db_Node fresh)) = false) by reflexivity.
  assert (H4 : precheck_fails (world d2)
               = (1, Some (errorString "ovs-vsctl not found"))) by reflexivity.
  repeat (split; [assumption|]).
  pose proof (patchGenericNetwork_check_failure precheck_fails succeeds
                [P1] [P3] "network_ovn_enable_nat" patchPostDaemonStorage
                patchPostDaemonStorage fresh d2 1
                (errorString "ovs-vsctl not found") H1 H2 H3 H4) as Hrun.
  simpl app in Hrun. fold K in Hrun. rewrite Hrun. split; reflexivity.
Defined.

(** ** Renaming the UUID key of virtual machines *)

Lemma rename_changes_keys (oldk newk v : string) :
  oldk <> newk ->
  rename_changes oldk newk v oldk = Some EmptyString /\
  rename_changes oldk newk v newk = Some v /\
  (forall k, k <> oldk -> k <> newk -> rename_changes oldk newk v k = None).
Proof.
  intros Hne. unfold rename_changes. repeat split.
  - rewrite config_set_other by assumption. apply config_set_same.
  - apply config_set_same.
  - intros k H1 H2. now rewrite !config_set_other by assumption.
Qed.

Section RenameUUIDKey.

Context {DB : Type}.
Variable instancetype_VM : Z.
Variable UpdateInstanceConfig : Z -> config -> DB -> DB * option error.
Variable GetInstanceSnapshotsWithName :
  string -> string -> DB -> DB * (list Instance * option error).
Variable GetInstanceConfig : Z -> DB -> DB * (config * option error).
Variable UpdateInstanceSnapshotConfig : Z -> config -> DB -> DB * option error.

Local Abbreviation rename_uuid :=
  (patchVMRenameUUIDKey_instance instancetype_VM UpdateInstanceConfig
     GetInstanceSnapshotsWithName GetInstanceConfig
     UpdateInstanceSnapshotConfig).

Local Abbreviation oldkey := "volatile.vm.uuid".
Local Abbreviation newkey := "volatile.uuid".

(** The function that [patchVMRenameUUIDKey] runs on every instance
    makes no call at all for an instance that is not a virtual machine.
    It updates the configuration of an instance only when that one has a
    non-empty [volatile.vm.uuid], and the configuration of a snapshot
    only after it has loaded it and found a non-empty
    [volatile.vm.uuid]; the changes it then sends are [volatile.vm.uuid]
    set to the empty string, [volatile.uuid] set to the value found, and
    no other key. *)
Theorem patchVMRenameUUIDKey_renames (inst : InstanceArgs) (t : ClusterTx DB) :
  let cs := tx_new_calls (rename_uuid inst) t in
  (Inst_Type inst <> instancetype_VM ->
   cs = [] /\ snd (rename_uuid inst t) = None)
  /\ (forall id ch r,
      In (TxUpdateInstanceConfig id ch r) cs ->
      id = Inst_ID inst /\
      config_get (Inst_Config inst) oldkey <> EmptyString /\
      ch oldkey = Some EmptyString /\
      ch newkey = Some (config_get (Inst_Config inst) oldkey) /\
      (forall k, k <> oldkey -> k <> newkey -> ch k = None))
  /\ (forall id ch r,
      In (TxUpdateInstanceSnapshotConfig id ch r) cs ->
      exists cfg,
        In (TxGetInstanceConfig id (cfg, None)) cs /\
        config_get cfg oldkey <> EmptyString /\
        ch oldkey = Some EmptyString /\
        ch newkey = Some (config_get cfg oldkey) /\
        (forall k, k <> oldkey -> k <> newkey -> ch k = None)).
Proof.
  set (P := fun cs : list txcall =>
    (forall id ch r,
        In (TxUpdateInstanceConfig id ch r) cs ->
        id = Inst_ID inst /\
        config_get (Inst_Config inst) oldkey <> EmptyString /\
        ch oldkey = Some EmptyString /\
        ch newkey = Some (config_get (Inst_Config inst) oldkey) /\
        (forall k, k <> oldkey -> k <> newkey -> ch k = None))
    /\ (forall id ch r,
        In (TxUpdateInstanceSnapshotConfig id ch r) cs ->
        exists cfg,
          In (TxGetInstanceConfig id (cfg, None)) cs /\
          config_get cfg oldkey <> EmptyString /\
          ch oldkey = Some EmptyString /\
          ch newkey = Some (config_get cfg oldkey) /\
          (forall k, k <> oldkey -> k <> newkey -> ch k = None))).
  assert (Hkeys : oldkey <> newkey) by discriminate.
  assert (Hnil : P []) by (split; intros; contradiction).
  assert (Happ : forall a b, P a -> P b -> P (a ++ b)).
  { intros a b [Ha1 Ha2] [Hb1 Hb2]. split.
    - intros id ch r Hin. apply in_app_or in Hin as [Hin|Hin]; eauto.
    - intros id ch r Hin. apply in_app_or in Hin as [Hin|Hin].
      + destruct (Ha2 _ _ _ Hin) as (cfg & Hl & Hrest).
        exists cfg. split; [apply in_or_app; now left | exact Hrest].
      + destruct (Hb2 _ _ _ Hin) as (cfg & Hl & Hrest).
        exists cfg. split; [apply in_or_app; now right | exact Hrest]. }
  assert (Hmain : exists cs,
    tx_calls (fst (rename_uuid inst t)) = tx_calls t ++ cs /\ P cs /\
    (Inst_Type inst <> instancetype_VM ->
     cs = [] /\ snd (rename_uuid inst t) = None)).
  { unfold patchVMRenameUUIDKey_instance.
    destruct (Z.eqb_spec (Inst_Type inst) instancetype_VM) as [Hvm|Hvm];
      cbv beta iota delta [negb].
    2: { exists []. simpl. rewrite app_nil_r. split; [reflexivity|].
         split; [exact Hnil|]. intros _. now split. }
    (* the instance itself *)
    match goal with
    | |- context [tx_bind ?m ?k] =>
        match type of k with
        | option error -> _ => set (first := m); set (rest := k)
        end
    end.
    assert (Hfirst : exists cs1,
      tx_calls (fst (first t)) = tx_calls t ++ cs1 /\ P cs1).
    { unfold first.
      destruct (String.eqb_spec (config_get (Inst_Config inst) oldkey) EmptyString)
        as [He|Hne]; cbv beta iota delta [negb].
      - exists []. simpl. rewrite app_nil_r. now split.
      - unfold tx_bind, tx_call.
        destruct (UpdateInstanceConfig (Inst_ID inst)
                    (rename_changes oldkey newkey
                       (config_get (Inst_Config inst) oldkey)) (tx_db t))
          as [db1 r] eqn:Hupd.
        exists [TxUpdateInstanceConfig (Inst_ID inst)
                  (rename_changes oldkey newkey
                     (config_get (Inst_Config inst) oldkey)) r].
        split; [destruct r; reflexivity|]. split.
        + intros id ch r0 [H|[]]. inversion H; subst.
          split; [reflexivity|]. split; [exact Hne|].
          apply rename_changes_keys. exact Hkeys.
        + intros id ch r0 [H|[]]. discriminate. }
    destruct Hfirst as (cs1 & Hc1 & HP1).
    assert (Hrest : forall err t', exists cs2,
      tx_calls (fst (rest err t')) = tx_calls t' ++ cs2 /\ P cs2).
    { intros [err|] t'; unfold rest.
      - exists []. simpl. rewrite app_nil_r. now split.
      - unfold tx_bind at 1. unfold tx_call at 1.
        destruct (GetInstanceSnapshotsWithName (Inst_Project inst) (Inst_Name inst)
                    (tx_db t')) as [db2 [snaps [err|]]] eqn:Hsn.
        + eexists. split; [reflexivity|]. split.
          * intros id ch r [H|[]]. discriminate.
          * intros id ch r [H|[]]. discriminate.
        + match goal with
          | |- context [for_range snaps ?b] => set (body := b)
          end.
          destruct (for_range_invariant P body snaps Hnil Happ) with
            (t := mkClusterTx db2
                    (tx_calls t' ++
                     [TxGetInstanceSnapshotsWithName (Inst_Project inst)
                        (Inst_Name inst) (snaps, None)]))
            as (cs3 & Hc3 & HP3).
          { intros snap t2. unfold body, tx_bind, tx_call.
            destruct (GetInstanceConfig (Snap_ID snap) (tx_db t2))
              as [db3 [cfg [err|]]] eqn:Hcfg.
            - eexists. split; [reflexivity|]. split.
              + intros id ch r [H|[]]. discriminate.
              + intros id ch r [H|[]]. discriminate.
            - simpl.
              destruct (String.eqb_spec (config_get cfg oldkey) EmptyString)
                as [He|Hne]; simpl.
              + eexists. split; [reflexivity|]. split.
                * intros id ch r [H|[]]. discriminate.
                * intros id ch r [H|[]]. discriminate.
              + destruct (UpdateInstanceSnapshotConfig (Snap_ID snap)
                            (rename_changes oldkey newkey (config_get cfg oldkey))
                            db3) as [db4 r] eqn:Hupd.
                exists [TxGetInstanceConfig (Snap_ID snap) (cfg, None);
                        TxUpdateInstanceSnapshotConfig (Snap_ID snap)
                          (rename_changes oldkey newkey (config_get cfg oldkey)) r].
                split; [destruct r; simpl; rewrite <- app_assoc; reflexivity|].
                split.
                * intros id ch r0 [H|[H|[]]]; discriminate.
                * intros id ch r0 [H|[H|[]]]; [discriminate|].
                  inversion H; subst. exists cfg.
                  split; [now left|]. split; [exact Hne|].
                  apply rename_changes_keys. exact Hkeys. }
          exists ([TxGetInstanceSnapshotsWithName (Inst_Project inst)
                     (Inst_Name inst) (snaps, None)] ++ cs3).
          split.
          * simpl in Hc3. rewrite Hc3, <- app_assoc. reflexivity.
          * apply Happ; [|exact HP3]. split.
            -- intros id ch r [H|[]]. discriminate.
            -- intros id ch r [H|[]]. discriminate. }
    unfold tx_bind at 1.
    destruct (first t) as [t1 err] eqn:Hf. simpl in Hc1.
    destruct (Hrest err t1) as (cs2 & Hc2 & HP2).
    exists (cs1 ++ cs2). split; [rewrite Hc2, Hc1, <- app_assoc; reflexivity|].
    split; [now apply Happ | intros Hn; contradiction]. }
  destruct Hmain as (cs & Hc & (HP1 & HP2) & Hnon).
  cbv zeta. rewrite (tx_new_calls_of _ _ _ Hc).
  split; [exact Hnon|]. split; [exact HP1 | exact HP2].
Qed.

End RenameUUIDKey.


(** ** Invalid block settings *)

Lemma unset_block_settings_cases c :
  snd (unset_block_settings c)
  = config_found c "block.filesystem" || config_found c "block.mount_options"
  /\ fst (unset_block_settings c) "block.filesystem" = None
  /\ fst (unset_block_settings c) "block.mount_options" = None
  /\ (forall k, k <> "block.filesystem" -> k <> "block.mount_options" ->
                fst (unset_block_settings c) k = c k).
Proof.
  unfold unset_block_settings, config_found. simpl fold_left.
  destruct (c "block.filesystem") as [v1|] eqn:E1; cbv iota beta;
    rewrite ?config_delete_other by discriminate;
    destruct (c "block.mount_options") as [v2|] eqn:E2; cbn [fst snd orb];
    repeat split; intros;
    rewrite ?config_delete_same;
    rewrite ?config_delete_other by (assumption || discriminate);
    rewrite ?config_delete_same; try reflexivity; assumption.
Qed.

Section BlockSettings.

Context {DB : Type}.
Variable IsTrue : string -> bool.
Variable TypeNameVM TypeNameCustom ContentTypeNameFS : string.
Variable TypeCustom TypeVM : Z.
Variable UpdateStoragePoolVolume :
  string -> string -> Z -> Z -> string -> config -> DB -> DB * option error.
Implicit Types (t : ClusterTx DB).

Local Abbreviation update_volume :=
  (update_block_volume TypeNameVM TypeNameCustom TypeCustom TypeVM
     UpdateStoragePoolVolume).

Local Abbreviation is_write :=
  (block_volume_write TypeNameVM TypeNameCustom TypeCustom TypeVM).

Lemma update_block_volume_calls (names : Z -> string) pool vol t :
  exists cs,
    tx_calls (fst (update_volume names pool vol t)) = tx_calls t ++ cs /\
    Forall (is_write pool vol) cs.
Proof.
  unfold update_block_volume.
  destruct (unset_block_settings_cases (Vol_Config vol)) as (Hsnd & H1 & H2 & Hk).
  destruct (unset_block_settings (Vol_Config vol)) as [cfg update].
  simpl in Hsnd, H1, H2, Hk.
  destruct update; cbv beta iota delta [negb].
  2: { exists []. simpl. rewrite app_nil_r. split; [reflexivity | constructor]. }
  symmetry in Hsnd. apply orb_true_iff in Hsnd.
  destruct (String.eqb_spec (Vol_Type vol) TypeNameVM) as [Hvm|Hvm].
  - unfold tx_bind, tx_call.
    destruct (UpdateStoragePoolVolume (Vol_Project vol) (Vol_Name vol) TypeVM pool
                (Vol_Description vol) cfg (tx_db t)) as [db' r].
    eexists. split; [destruct r; reflexivity|].
    constructor; [|constructor]. exists TypeVM, cfg, r.
    split; [reflexivity|]. split; [exact Hsnd|]. split; [now left|].
    now repeat split.
  - destruct (String.eqb_spec (Vol_Type vol) TypeNameCustom) as [Hc|Hc].
    + unfold tx_bind, tx_call.
      destruct (UpdateStoragePoolVolume (Vol_Project vol) (Vol_Name vol) TypeCustom
                  pool (Vol_Description vol) cfg (tx_db t)) as [db' r].
      eexists. split; [destruct r; reflexivity|].
      constructor; [|constructor]. exists TypeCustom, cfg, r.
      split; [reflexivity|]. split; [exact Hsnd|]. split; [now right|].
      now repeat split.
    + exists []. simpl. rewrite app_nil_r. split; [reflexivity | constructor].
Qed.

(** Every call of the loop of [patchStorageZfsUnsetInvalidBlockSettings]
    over the volumes is a write of a volume of the list, located on this
    server when the server has a name, whose [zfs.block_mode] is not
    true and which had [block.filesystem] or [block.mount_options]; the
    volume is a virtual machine or a custom volume, and it is written
    with its configuration less the two keys. *)
Theorem patchStorageZfsUnsetInvalidBlockSettings_writes
    (ServerName : string) (names : Z -> string)
    (poolVolumes : list (Z * list StorageVolume)) t :
  Forall (fun c => exists pool vols vol,
            In (pool, vols) poolVolumes /\ In vol vols /\
            (ServerName = EmptyString \/ Vol_Location vol = ServerName) /\
            IsTrue (config_get (Vol_Config vol) "zfs.block_mode") = false /\
            is_write pool vol c)
    (tx_new_calls
       (patchStorageZfsUnsetInvalidBlockSettings_volumes IsTrue TypeNameVM
          TypeNameCustom TypeCustom TypeVM UpdateStoragePoolVolume
          ServerName names poolVolumes) t).
Proof.
  unfold patchStorageZfsUnsetInvalidBlockSettings_volumes.
  match goal with
  | |- context [for_range poolVolumes ?b] => set (body := b)
  end.
  destruct (for_range_pairs_calls
    (fun pool vol c =>
       (ServerName = EmptyString \/ Vol_Location vol = ServerName) /\
       IsTrue (config_get (Vol_Config vol) "zfs.block_mode") = false /\
       is_write pool vol c)
    body
    (fun pool vol =>
       if negb (String.eqb ServerName EmptyString)
          && negb (String.eqb (Vol_Location vol) ServerName)
       then tx_ret None
       else if IsTrue (config_get (Vol_Config vol) "zfs.block_mode")
       then tx_ret None
       else update_volume names pool vol)
    poolVolumes (fun a bs t0 => eq_refl)) with (t := t) as (cs & Hc & HQ).
  - intros pool vol t0.
    destruct (String.eqb_spec ServerName EmptyString) as [Hs|Hs];
      destruct (String.eqb_spec (Vol_Location vol) ServerName) as [Hl|Hl];
      cbv beta iota delta [negb andb];
      try (exists []; simpl; rewrite app_nil_r;
           split; [reflexivity | constructor]);
      (destruct (IsTrue (config_get (Vol_Config vol) "zfs.block_mode")) eqn:Hb;
       [exists []; simpl; rewrite app_nil_r; split; [reflexivity | constructor]|]);
      destruct (update_block_volume_calls names pool vol t0) as (cs & Hc & HQ);
      exists cs; (split; [exact Hc|]);
      (eapply Forall_impl; [|exact HQ]); intros c Hw; repeat split; auto.
  - rewrite (tx_new_calls_of _ _ _ Hc).
    eapply Forall_impl; [|exact HQ].
    intros c (pool & vols & vol & H1 & H2 & H3 & H4 & H5).
    exists pool, vols, vol. now repeat split.
Qed.

(** Every call of the loop of
    [patchStorageZfsUnsetInvalidBlockSettingsV2] over the volumes is a
    write of a volume of the list, located on this server when the
    server has a name, which is not a custom volume with a true
    [zfs.block_mode] and which had [block.filesystem] or
    [block.mount_options]; a virtual machine is written whatever its
    [zfs.block_mode]. *)
Theorem patchStorageZfsUnsetInvalidBlockSettingsV2_writes
    (ServerName : string) (names : Z -> string)
    (poolVolumes : list (Z * list StorageVolume)) t :
  Forall (fun c => exists pool vols vol,
            In (pool, vols) poolVolumes /\ In vol vols /\
            (ServerName = EmptyString \/ Vol_Location vol = ServerName) /\
            (IsTrue (config_get (Vol_Config vol) "zfs.block_mode") = false \/
             Vol_Type vol <> TypeNameCustom) /\
            is_write pool vol c)
    (tx_new_calls
       (patchStorageZfsUnsetInvalidBlockSettingsV2_volumes IsTrue TypeNameVM
          TypeNameCustom TypeCustom TypeVM UpdateStoragePoolVolume
          ServerName names poolVolumes) t).
Proof.
  unfold patchStorageZfsUnsetInvalidBlockSettingsV2_volumes.
  match goal with
  | |- context [for_range poolVolumes ?b] => set (body := b)
  end.
  destruct (for_range_pairs_calls
    (fun pool vol c =>
       (ServerName = EmptyString \/ Vol_Location vol = ServerName) /\
       (IsTrue (config_get (Vol_Config vol) "zfs.block_mode") = false \/
        Vol_Type vol <> TypeNameCustom) /\
       is_write pool vol c)
    body
    (fun pool vol =>
       if negb (String.eqb ServerName EmptyString)
          && negb (String.eqb (Vol_Location vol) ServerName)
       then tx_ret None
       else if IsTrue (config_get (Vol_Config vol) "zfs.block_mode")
               && String.eqb (Vol_Type vol) TypeNameCustom
       then tx_ret None
       else update_volume names pool vol)
    poolVolumes (fun a bs t0 => eq_refl)) with (t := t) as (cs & Hc & HQ).
  - intros pool vol t0.
    destruct (String.eqb_spec ServerName EmptyString) as [Hs|Hs];
      destruct (String.eqb_spec (Vol_Location vol) ServerName) as [Hl|Hl];
      cbv beta iota delta [negb andb];
      try (exists []; simpl; rewrite app_nil_r;
           split; [reflexivity | constructor]);
      (destruct (IsTrue (config_get (Vol_Config vol) "zfs.block_mode")) eqn:Hb;
       destruct (String.eqb_spec (Vol_Type vol) TypeNameCustom) as [Hty|Hty];
       cbv beta iota delta [andb];
       try (exists []; simpl; rewrite app_nil_r;
            split; [reflexivity | constructor]));
      destruct (update_block_volume_calls names pool vol t0) as (cs & Hc & HQ);
      exists cs; (split; [exact Hc|]);
      (eapply Forall_impl; [|exact HQ]); intros c Hw; repeat split; auto.
  - rewrite (tx_new_calls_of _ _ _ Hc).
    eapply Forall_impl; [|exact HQ].
    intros c (pool & vols & vol & H1 & H2 & H3 & H4 & H5).
    exists pool, vols, vol. now repeat split.
Qed.

(** Every call of the loop of [patchStorageUnsetInvalidBlockSettings]
    over the volumes is a write of a volume of the list which is not a
    custom volume with filesystem content and which had
    [block.filesystem] or [block.mount_options]. *)
Theorem patchStorageUnsetInvalidBlockSettings_writes
    (names : Z -> string) (poolVolumes : list (Z * list StorageVolume)) t :
  Forall (fun c => exists pool vols vol,
            In (pool, vols) poolVolumes /\ In vol vols /\
            (Vol_Type vol <> TypeNameCustom \/
             Vol_ContentType vol <> ContentTypeNameFS) /\
            is_write pool vol c)
    (tx_new_calls
       (patchStorageUnsetInvalidBlockSettings_volumes TypeNameVM
          TypeNameCustom ContentTypeNameFS TypeCustom TypeVM
          UpdateStoragePoolVolume names poolVolumes) t).
Proof.
  unfold patchStorageUnsetInvalidBlockSettings_volumes.
  match goal with
  | |- context [for_range poolVolumes ?b] => set (body := b)
  end.
  destruct (for_range_pairs_calls
    (fun pool vol c =>
       (Vol_Type vol <> TypeNameCustom \/
        Vol_ContentType vol <> ContentTypeNameFS) /\
       is_write pool vol c)
    body
    (fun pool vol =>
       if String.eqb (Vol_Type vol) TypeNameCustom
          && String.eqb (Vol_ContentType vol) ContentTypeNameFS
       then tx_ret None
       else update_volume names pool vol)
    poolVolumes (fun a bs t0 => eq_refl)) with (t := t) as (cs & Hc & HQ).
  - intros pool vol t0.
    destruct (String.eqb_spec (Vol_Type vol) TypeNameCustom) as [Hty|Hty];
      destruct (String.eqb_spec (Vol_ContentType vol) ContentTypeNameFS) as [Hct|Hct];
      cbv beta iota delta [andb];
      try (exists []; simpl; rewrite app_nil_r;
           split; [reflexivity | constructor]);
      destruct (update_block_volume_calls names pool vol t0) as (cs & Hc & HQ);
      exists cs; (split; [exact Hc|]);
      (eapply Forall_impl; [|exact HQ]); intros c Hw; repeat split; auto.
  - rewrite (tx_new_calls_of _ _ _ Hc).
    eapply Forall_impl; [|exact HQ].
    intros c (pool & vols & vol & H1 & H2 & H3 & H4).
    exists pool, vols, vol. now repeat split.
Qed.

End BlockSettings.

(** ** Moving the backups *)

Section MoveBackups.

Context {FS : Type}.
Variable VarPath : list string -> string.
Variable filepath_Join : string -> string -> string.
Variable WorkingDirPrefix : string.
Variable PathExists : string -> FS -> FS * bool.
Variable MkdirAll : string -> Z -> FS -> FS * option error.
Variable ReadDir : string -> FS -> FS * (list string * option error).
Variable Rename : string -> string -> FS -> FS * option error.

Local Abbreviation move_backups :=
  (patchMoveBackupsInstances_fs VarPath filepath_Join WorkingDirPrefix
     PathExists MkdirAll ReadDir Rename).

(** [patchMoveBackupsInstances] does nothing but the check when the
    backups directory does not exist.  It renames only entries of the
    listing of the backups directory, after the instances directory has
    been created with success; it never renames the entry "instances"
    nor an entry whose name starts with the prefix of working
    directories; an entry is moved from the backups directory to the
    same name in the instances directory. *)
Theorem patchMoveBackupsInstances_moves (t : ClusterTx FS) :
  let cs := tx_new_calls move_backups t in
  (snd (PathExists (VarPath ["backups"]) (tx_db t)) = false ->
   cs = [FsPathExists (VarPath ["backups"]) false] /\
   snd (move_backups t) = None)
  /\ (forall oldpath newpath r,
      In (FsRename oldpath newpath r) cs ->
      In (FsMkdirAll (VarPath ["backups"; "instances"]) 448 None) cs /\
      exists names n,
        In (FsReadDir (VarPath ["backups"]) (names, None)) cs /\
        In n names /\
        n <> "instances" /\
        String.prefix WorkingDirPrefix n = false /\
        oldpath = VarPath ["backups"; n] /\
        newpath = filepath_Join (VarPath ["backups"; "instances"]) n).
Proof.
  assert (Hmain : exists cs,
    tx_calls (fst (move_backups t)) = tx_calls t ++ cs /\
    (snd (PathExists (VarPath ["backups"]) (tx_db t)) = false ->
     cs = [FsPathExists (VarPath ["backups"]) false] /\
     snd (move_backups t) = None) /\
    (forall oldpath newpath r,
      In (FsRename oldpath newpath r) cs ->
      In (FsMkdirAll (VarPath ["backups"; "instances"]) 448 None) cs /\
      exists names n,
        In (FsReadDir (VarPath ["backups"]) (names, None)) cs /\
        In n names /\
        n <> "instances" /\
        String.prefix WorkingDirPrefix n = false /\
        oldpath = VarPath ["backups"; n] /\
        newpath = filepath_Join (VarPath ["backups"; "instances"]) n)).
  { unfold patchMoveBackupsInstances_fs.
    unfold tx_bind at 1. unfold tx_call at 1.
    destruct (PathExists (VarPath ["backups"]) (tx_db t)) as [fs1 found] eqn:Hpe.
    destruct found; cbv beta iota delta [negb].
    2: { exists [FsPathExists (VarPath ["backups"]) false].
         split; [reflexivity|].
         split; [intros _; split; [reflexivity|];
                 unfold tx_bind, tx_call; rewrite Hpe; reflexivity|].
         intros oldpath newpath r [H|[]]. discriminate. }
    unfold tx_bind at 1. unfold tx_call at 1. cbn [tx_db tx_calls].
    destruct (MkdirAll (VarPath ["backups"; "instances"]) 448 fs1)
      as [fs2 [err|]] eqn:Hmk.
    { exists [FsPathExists (VarPath ["backups"]) true;
              FsMkdirAll (VarPath ["backups"; "instances"]) 448 (Some err)].
      split; [simpl; rewrite <- app_assoc; reflexivity|].
      split; [intros Hf; discriminate Hf|].
      intros oldpath newpath r [H|[H|[]]]; discriminate. }
    unfold tx_bind at 1. unfold tx_call at 1. cbn [tx_db tx_calls].
    destruct (ReadDir (VarPath ["backups"]) fs2) as [fs3 [names [err|]]] eqn:Hrd.
    { exists [FsPathExists (VarPath ["backups"]) true;
              FsMkdirAll (VarPath ["backups"; "instances"]) 448 None;
              FsReadDir (VarPath ["backups"]) (names, Some err)].
      split; [simpl; rewrite <- !app_assoc; reflexivity|].
      split; [intros Hf; discriminate Hf|].
      intros oldpath newpath r [H|[H|[H|[]]]]; discriminate. }
    match goal with
    | |- context [for_range names ?b ?t0] => set (body := b); set (t3 := t0)
    end.
    destruct (for_range_calls
      (fun n c => exists r,
         n <> "instances" /\ String.prefix WorkingDirPrefix n = false /\
         c = FsRename (VarPath ["backups"; n])
               (filepath_Join (VarPath ["backups"; "instances"]) n) r)
      body names) with (t := t3) as (cs & Hc & HQ).
    { intros n t0 _. unfold body.
      destruct (String.eqb_spec n "instances") as [Hn|Hn];
        cbv beta iota delta [orb].
      - exists []. simpl. rewrite app_nil_r. split; [reflexivity | constructor].
      - destruct (String.prefix WorkingDirPrefix n) eqn:Hp.
        + exists []. simpl. rewrite app_nil_r. split; [reflexivity | constructor].
        + unfold tx_bind, tx_call.
          destruct (Rename (VarPath ["backups"; n])
                      (filepath_Join (VarPath ["backups"; "instances"]) n)
                      (tx_db t0)) as [fs' r].
          eexists. split; [destruct r; reflexivity|].
          constructor; [|constructor]. exists r. now repeat split. }
    exists ([FsPathExists (VarPath ["backups"]) true;
             FsMkdirAll (VarPath ["backups"; "instances"]) 448 None;
             FsReadDir (VarPath ["backups"]) (names, None)] ++ cs).
    split; [rewrite Hc; unfold t3; simpl; rewrite <- !app_assoc; reflexivity|].
    split; [intros Hf; discriminate Hf|].
    intros oldpath newpath r Hin.
    split; [right; now left|].
    apply in_app_or in Hin as [Hin|Hin].
    { destruct Hin as [H|[H|[H|[]]]]; discriminate. }
    rewrite Forall_forall in HQ.
    destruct (HQ _ Hin) as (n & Hn & r0 & Hne & Hp & Heq).
    inversion Heq; subst. exists names, n.
    split; [right; right; now left|]. now repeat split. }
  destruct Hmain as (cs & Hc & H1 & H2).
  cbv zeta. rewrite (tx_new_calls_of _ _ _ Hc). split; assumption.
Qed.

End MoveBackups.


(** ** More samples *)

(** On a virtual machine and a custom volume that are both in block
    mode and carry [block.filesystem], the first patch writes nothing
    and the second one writes the virtual machine. *)
Example block_settings_sample :
  let v1 := patchStorageZfsUnsetInvalidBlockSettings_volumes sample_IsTrue
              "virtual-machine" "custom" 2 3 accept_UpdateStoragePoolVolume
              EmptyString (fun _ => "zpool") sample_volumes in
  let v2 := patchStorageZfsUnsetInvalidBlockSettingsV2_volumes sample_IsTrue
              "virtual-machine" "custom" 2 3 accept_UpdateStoragePoolVolume
              EmptyString (fun _ => "zpool") sample_volumes in
  let t := mkClusterTx tt [] in
  tx_new_calls v1 t = [] /\
  exists cfg,
    tx_new_calls v2 t
    = [TxUpdateStoragePoolVolume "default" "vm1" 3 1 EmptyString cfg None] /\
    cfg "block.filesystem" = None /\
    cfg "zfs.block_mode" = Some "true".
Proof. split; [reflexivity|]. eexists. repeat split. Qed.

Example move_backups_sample :
  let run := patchMoveBackupsInstances_fs sample_VarPath sample_Join
               "lxd_backup_"
               (fun _ (fs : unit) => (fs, true))
               (fun _ _ (fs : unit) => (fs, None))
               (fun _ (fs : unit) =>
                  (fs, (["c1"; "instances"; "lxd_backup_123"], None)))
               (fun _ _ (fs : unit) => (fs, None)) in
  tx_new_calls run (mkClusterTx tt [])
  = [FsPathExists "/var/lib/lxd/backups" true;
     FsMkdirAll "/var/lib/lxd/backups/instances" 448 None;
     FsReadDir "/var/lib/lxd/backups"
       (["c1"; "instances"; "lxd_backup_123"], None);
     FsRename "/var/lib/lxd/backups/c1" "/var/lib/lxd/backups/instances/c1" None].
Proof. reflexivity. Qed.
